(** * QD-DETR: label construction of [qd_detr/start_end_dataset.py]

    A shallow embedding of the label-building code of [StartEndDataset]
    (span labels, the three saliency label builders, the moment-length
    classes of [__getitem__], the split guard of [__init__]) and of
    [start_end_collate], with the properties the specification states about
    them.

    Modelling conventions.
    - Python integers are [Z].  Window bounds are integer seconds, as in the
      record shown in the class docstring ([[26, 36]]); for such operands
      [int(a / b)] is the quotient truncated towards zero, [Z.quot].
    - numpy/torch float arrays hold rationals ([Q]); rounding is not modelled.
      Integer arrays have dtype [int64] and wrap around ([int64]); integers
      stored in a float32 tensor are rounded to it ([float32_long]).
    - The process-wide generator of [random] and the in-memory annotation
      list [self.data] form the mutable [world] threaded through the code.
    - Exceptions are values of [exn]; a raising call leaves the world as it
      was at the point of the raise. *)

From Stdlib Require Import ZArith QArith String Ascii Lia.
From stdpp Require Import base list sorting strings gmap.

Local Open Scope Z_scope.

(** ** Exceptions and results *)

Inductive exn : Set :=
| ValueError
| IndexError
| KeyError
| ZeroDivisionError
| AssertionError
| NotImplementedError
| NameError
| UnboundLocalError
| AxisError
| TypeError
| RuntimeError.

Inductive res (A : Type) : Type :=
| Ok (a : A)
| Raise (e : exn).
Arguments Ok {A} a.
Arguments Raise {A} e.

Definition rbind {A B} (m : res A) (k : A -> res B) : res B :=
  match m with
  | Ok a => k a
  | Raise e => Raise e
  end.

Notation "x <~ m ;; k" := (rbind m (fun x => k))
  (at level 100, m at next level, right associativity).

Fixpoint rmap {A B} (f : A -> res B) (l : list A) : res (list B) :=
  match l with
  | [] => Ok []
  | x :: l' => y <~ f x ;; ys <~ rmap f l' ;; Ok (y :: ys)
  end.

(** ** Annotation records and the world *)

(** A window [[st, ed]] in seconds. *)
Definition window : Type := Z * Z.

(** One line of the annotation file.  Keys that a data file may lack are
    optional; reading an absent key raises [KeyError]. *)
Record meta : Type := Meta {
  qid : Z;
  query : string;
  vid : string;
  relevant_windows : list window;
  relevant_clip_ids : option (list Z);
  saliency_scores : option (list (list Z));
  domain : option string;
  label : option (list (list Z))
}.

Record world : Type := World {
  rng : list nat;          (* the draws the generator of [random] will produce *)
  data : list meta         (* [self.data] *)
}.

Definition M (A : Type) : Type := world -> res A * world.

Definition ret {A} (a : A) : M A := fun w => (Ok a, w).

Definition raise {A} (e : exn) : M A := fun w => (Raise e, w).

Definition bind {A B} (m : M A) (k : A -> M B) : M B :=
  fun w =>
    match m w with
    | (Ok a, w') => k a w'
    | (Raise e, w') => (Raise e, w')
    end.

Definition lift {A} (r : res A) : M A := fun w => (r, w).

Notation "x <- m ;; k" := (bind m (fun x => k))
  (at level 100, m at next level, right associativity).
Notation "x <-! m ;; k" := (bind (lift m) (fun x => k))
  (at level 100, m at next level, right associativity).

(** ** Python integers, ranges, indexing and slices *)

(** [int(a / b)] on integers. *)
Definition py_int_truediv (a b : Z) : res Z :=
  if b =? 0 then Raise ZeroDivisionError else Ok (a ÷ b).

(** [list(range(a, b))]. *)
Definition py_range (a b : Z) : list Z := seqZ a (b - a).

(** Position designated by index [i] in a sequence of length [n]; negative
    indices count from the end, and [l[i] = v] raises outside the bounds. *)
Definition py_index (n : nat) (i : Z) : res nat :=
  if (0 <=? i) && (i <? Z.of_nat n) then Ok (Z.to_nat i)
  else if (- Z.of_nat n <=? i) && (i <? 0) then Ok (Z.to_nat (Z.of_nat n + i))
  else Raise IndexError.

Definition py_setitem {A} (l : list A) (i : Z) (v : A) : res (list A) :=
  p <~ py_index (length l) i ;; Ok (<[p := v]> l).

(** A slice bound [i] clipped to a sequence of length [n]. *)
Definition slice_bound (n : nat) (i : Z) : nat :=
  if i <? 0 then Z.to_nat (Z.max 0 (Z.of_nat n + i))
  else Z.to_nat (Z.min i (Z.of_nat n)).

(** [l[:b]] and [l[a:]]. *)
Definition slice_to {A} (l : list A) (b : Z) : list A :=
  take (slice_bound (length l) b) l.

Definition slice_from {A} (l : list A) (a : Z) : list A :=
  drop (slice_bound (length l) a) l.

(** [l[a:b] = v] on a numpy array (scalar broadcast over the slice). *)
Definition slice_fill {A} (l : list A) (a b : Z) (v : A) : list A :=
  let lo := slice_bound (length l) a in
  let hi := slice_bound (length l) b in
  take lo l ++ replicate (hi - lo) v ++ drop (lo `max` hi) l.

(** ** Integers stored in floating-point tensors *)

(** The integer nearest to [x] among those that a binary float with [p]
    significant bits holds, ties going to the even significand. *)
Definition round_to_bits (p : Z) (x : Z) : Z :=
  let a := Z.abs x in
  if a <? 2 ^ p then x
  else
    let sh := Z.log2 a + 1 - p in
    let q := Z.shiftr a sh in
    let r := a - Z.shiftl q sh in
    let half := 2 ^ (sh - 1) in
    let q' := if (half <? r) || ((r =? half) && Z.odd q) then q + 1 else q in
    Z.sgn x * Z.shiftl q' sh.

(** [torch.Tensor(rows).long()] on a Python integer: converted to a C
    double, stored as float32, and read back as an integer.  (Beyond the
    range of [int64] the result of [.long()] is unspecified; the statements
    stay below [2^24], where the round trip is exact.) *)
Definition float32_long (x : Z) : Z := round_to_bits 24 (round_to_bits 53 x).

(** ** The [random] module

    Every draw of the generator is taken from [rng]; [randbelow n] reduces it
    into [[0, n)].  An exhausted stream keeps producing [0]. *)

Definition randbelow (n : nat) : M nat :=
  fun w =>
    match rng w with
    | [] => (Ok 0%nat, w)
    | r :: rs => (Ok (r mod n)%nat, World rs (data w))
    end.

(** [x[i], x[j] = x[j], x[i]]. *)
Definition swap {A} (i j : nat) (x : list A) : list A :=
  match x !! i, x !! j with
  | Some a, Some b => <[j := a]> (<[i := b]> x)
  | _, _ => x
  end.

(** [random.shuffle]: for [i] from [len(x) - 1] down to [1], exchange
    [x[i]] with [x[randbelow(i + 1)]]. *)
Fixpoint shuffle_loop {A} (i : nat) (x : list A) : M (list A) :=
  match i with
  | O => ret x
  | S i' => j <- randbelow (S i) ;; shuffle_loop i' (swap i j x)
  end.

Definition random_shuffle {A} (x : list A) : M (list A) :=
  shuffle_loop (length x - 1) x.

(** [random.sample], pool variant: the [i]-th result is [pool[j]] for
    [j = randbelow(n - i)], and slot [j] then receives the last live
    element of the pool. *)
Fixpoint sample_loop {A} (k : nat) (pool : list A) : M (list A) :=
  match k with
  | O => ret []
  | S k' =>
      j <- randbelow (length pool) ;;
      match pool !! j, last pool with
      | Some x, Some y =>
          rest <- sample_loop k' (take (length pool - 1) (<[j := y]> pool)) ;;
          ret (x :: rest)
      | _, _ => raise IndexError
      end
  end.

Definition random_sample {A} (population : list A) (k : Z) : M (list A) :=
  if (k <? 0) || (Z.of_nat (length population) <? k) then raise ValueError
  else sample_loop (Z.to_nat k) population.

(** ** numpy *)

Definition np_zeros (n : Z) : res (list Q) :=
  if n <? 0 then Raise ValueError else Ok (replicate (Z.to_nat n) 0%Q).

Definition sumZ (l : list Z) : Z := foldr Z.add 0 l.

(** [np.sum(np.array(rows), axis)] for a list of rows: the rows must have
    one common length, and an empty list is a 1-D array without that axis. *)
Definition rectangular {A} (rows : list (list A)) : bool :=
  match rows with
  | [] => true
  | r :: rs => forallb (fun r' => Nat.eqb (length r') (length r)) rs
  end.

(** A value of dtype [int64]: arithmetic on such arrays wraps around
    modulo [2^64]. *)
Definition int64 (z : Z) : Z := (z + 2 ^ 63) mod 2 ^ 64 - 2 ^ 63.

(** [np.array] gives the dtype [int64] to lists of Python integers that
    all lie in this range (other lists get another dtype, which is not
    modelled: the statements on the values of sums assume the range). *)
Definition in_int64 (z : Z) : Prop := - 2 ^ 63 <= z < 2 ^ 63.

Definition np_sum_axis1 (rows : list (list Z)) : res (list Z) :=
  match rows with
  | [] => Raise AxisError
  | _ => if rectangular rows
         then Ok ((fun row => int64 (sumZ row)) <$> rows)
         else Raise ValueError
  end.

(** [np.argsort]: positions of the entries in increasing order of value.
    Entries are ordered by value only; what is proved below holds for any
    order chosen among equal values. *)
Definition le_fst (p q : Z * nat) : Prop := fst p <= fst q.

#[local] Instance le_fst_dec : RelDecision le_fst.
Proof. intros p q. unfold le_fst. apply _. Defined.

#[local] Instance le_fst_trans : Transitive le_fst.
Proof. intros p q r. unfold le_fst. lia. Qed.

#[local] Instance le_fst_total : Total le_fst.
Proof. intros p q. unfold le_fst. lia. Qed.

Definition np_argsort (a : list Z) : list nat :=
  snd <$> merge_sort le_fst (zip a (seq 0 (length a))).

(** [needle in haystack] on strings. *)
Fixpoint contains (needle haystack : string) : bool :=
  String.prefix needle haystack
  || match haystack with
     | EmptyString => false
     | String _ rest => contains needle rest
     end.

Definition str_in (s : string) (l : list string) : bool :=
  existsb (String.eqb s) l.

(** ** The dataset object *)

Record StartEndDataset : Type := Dataset {
  dset_name : string;
  data_path : string;
  q_feat_type : string;
  max_q_l : Z;
  max_v_l : Z;
  ctx_mode : string;
  use_tef : bool;
  use_video : bool;
  load_labels : bool;
  clip_len : Z;
  max_windows : Z;
  span_loss_type : string;
  txt_drop_ratio : Q;
  m_vals : option (list Z)
}.

Definition Q_FEAT_TYPES : list string :=
  ["pooler_output"; "last_hidden_state"]%string.

Definition TVSUM_DOMAINS : list string :=
  ["BK"; "BT"; "DS"; "FM"; "GA"; "MS"; "PK"; "PR"; "VT"; "VU"]%string.

(** The arguments of [__init__] that the label code depends on.
    [m_classes] is given as the thresholds read from the bracketed string. *)
Record init_args : Type := InitArgs {
  a_dset_name : string;
  a_data_path : string;
  a_q_feat_type : string;
  a_max_q_l : Z;
  a_max_v_l : Z;
  a_data_ratio : Q;
  a_ctx_mode : string;
  a_load_labels : bool;
  a_clip_len : Z;
  a_max_windows : Z;
  a_span_loss_type : string;
  a_txt_drop_ratio : Q;
  a_dset_domain : option string;
  a_m_classes : option (list Z)
}.

Definition assert (b : bool) : res unit :=
  if b then Ok tt else Raise AssertionError.

(** [load_data]; [datalist] is what [load_jsonl(self.data_path)] returned. *)
Definition load_data (data_ratio : Q) (datalist : list meta) : list meta :=
  if Qeq_bool data_ratio 1 then datalist
  else
    let n_examples :=
      (Z.of_nat (length datalist) * Qnum data_ratio) ÷ Zpos (Qden data_ratio) in
    slice_to datalist n_examples.

(** The tvsum domain filter of [__init__]. *)
Definition filter_domain (target : string) (l : list meta) : res (list meta) :=
  kept <~ rmap (fun d =>
                  match domain d with
                  | Some dom => Ok (if String.eqb target dom then [d] else [])
                  | None => Raise KeyError
                  end) l ;;
  Ok (concat kept).

(** Lines 59-60 of [__init__]: no text row-dropout on a validation or test
    split. *)
Definition split_guard (data_path : string) (txt_drop_ratio : Q) : res unit :=
  if contains "val" data_path || contains "test" data_path
  then assert (Qeq_bool txt_drop_ratio 0)
  else Ok tt.

(** The remainder of [__init__], from line 62 on. *)
Definition init_rest (a : init_args) (datalist : list meta)
  : res (StartEndDataset * list meta) :=
  _ <~ assert (str_in (a_q_feat_type a) Q_FEAT_TYPES) ;;
  let d := load_data (a_data_ratio a) datalist in
  d <~ (if String.eqb (a_dset_name a) "tvsum" then
          match a_dset_domain a with
          | Some target =>
              _ <~ assert (str_in target TVSUM_DOMAINS) ;;
              filter_domain target d
          | None => Raise AssertionError
          end
        else Ok d) ;;
  Ok (Dataset (a_dset_name a) (a_data_path a) (a_q_feat_type a)
        (a_max_q_l a) (a_max_v_l a) (a_ctx_mode a)
        (contains "tef" (a_ctx_mode a)) (contains "video" (a_ctx_mode a))
        (a_load_labels a) (a_clip_len a) (a_max_windows a)
        (a_span_loss_type a) (a_txt_drop_ratio a) (a_m_classes a),
      d).

(** [StartEndDataset.__init__]: the dataset object and the initial content
    of [self.data]. *)
Definition init (a : init_args) (datalist : list meta)
  : res (StartEndDataset * list meta) :=
  _ <~ split_guard (a_data_path a) (a_txt_drop_ratio a) ;;
  init_rest a datalist.

(** ** Saliency labels *)

Section Labels.

Variable self : StartEndDataset.

(** [get_saliency_labels_sub_as_query] *)
Definition get_saliency_labels_sub_as_query
    (gt_window : window) (ctx_l : Z) (max_n : Z)
  : M (list Z * list Z * list Q) :=
  gt_st <-! py_int_truediv (fst gt_window) (clip_len self) ;;
  q_ed <-! py_int_truediv (snd gt_window) (clip_len self) ;;
  let gt_ed := Z.max 0 (Z.min q_ed ctx_l - 1) in
  let gt_st := if gt_st >? gt_ed then gt_ed else gt_st in
  pos_clip_indices <-
    (if negb (gt_st =? gt_ed)
     then random_sample (py_range gt_st (gt_ed + 1)) max_n
     else ret [gt_st; gt_st]) ;;
  let neg_pool := py_range 0 gt_st ++ py_range (gt_ed + 1) ctx_l in
  neg_clip_indices <- random_sample neg_pool max_n ;;
  score_array <-! np_zeros ctx_l ;;
  let score_array := slice_fill score_array gt_st (gt_ed + 1) 1%Q in
  ret (pos_clip_indices, neg_clip_indices, score_array).

(** [score_array_new = np.zeros(ctx_l + 1); score_array_new[:ctx_l] =
    score_array]: the copy needs a source of the slice's length, or of
    length one (which numpy broadcasts). *)
Definition resize (ctx_l : Z) (score_array : list Q) : res (list Q) :=
  score_array_new <~ np_zeros (ctx_l + 1) ;;
  let m := slice_bound (length score_array_new) ctx_l in
  if Nat.eqb (length score_array) m then Ok (score_array ++ drop m score_array_new)
  else
    match score_array with
    | [x] => Ok (replicate m x ++ drop m score_array_new)
    | _ => Raise ValueError
    end.

Definition lookup_or_raise {A} (l : list A) (i : nat) : res A :=
  match l !! i with
  | Some x => Ok x
  | None => Raise IndexError
  end.

(** The loop that writes the aggregate scores into the dense array. *)
Fixpoint score_loop (idxs : list nat) (rel_clip_ids agg_scores : list Z)
    (ctx_l : Z) (score_array : list Q) : res (list Q) :=
  match idxs with
  | [] => Ok score_array
  | idx :: rest =>
      id <~ lookup_or_raise rel_clip_ids idx ;;
      score_array <~ (if ctx_l <=? id then resize ctx_l score_array
                      else Ok score_array) ;;
      s <~ lookup_or_raise agg_scores idx ;;
      score_array <~ py_setitem score_array id (inject_Z s) ;;
      score_loop rest rel_clip_ids agg_scores ctx_l score_array
  end.

(** [[min(rel_clip_ids[idx], ctx_l - 1) for idx in idxs]] *)
Definition clamp_ids (rel_clip_ids : list Z) (ctx_l : Z) (idxs : list nat)
  : res (list Z) :=
  rmap (fun idx => id <~ lookup_or_raise rel_clip_ids idx ;;
                   Ok (Z.min id (ctx_l - 1))) idxs.

(** [list(set(range(ctx_l)) - set(rel_clip_ids))] *)
Definition easy_neg_pool (rel_clip_ids : list Z) (ctx_l : Z) : list Z :=
  filter (fun i => i ∉ rel_clip_ids) (py_range 0 ctx_l).

(** [get_saliency_labels_all] *)
Definition get_saliency_labels_all
    (rel_clip_ids : list Z) (scores : list (list Z)) (ctx_l : Z)
    (max_n : Z) (add_easy_negative : bool)
  : M (list Z * list Z * list Q) :=
  agg_scores <-! np_sum_axis1 scores ;;
  let sort_indices := np_argsort agg_scores in
  score_array <-! np_zeros ctx_l ;;
  score_array <-! score_loop (seq 0 (length rel_clip_ids))
                    rel_clip_ids agg_scores ctx_l score_array ;;
  hard_pos_clip_indices <-!
    clamp_ids rel_clip_ids ctx_l (slice_from sort_indices (- max_n)) ;;
  hard_neg_clip_indices <-!
    clamp_ids rel_clip_ids ctx_l (slice_to sort_indices max_n) ;;
  easy <-
    (if add_easy_negative then
       let pool := easy_neg_pool rel_clip_ids ctx_l in
       if Z.of_nat (length pool) >=? max_n then
         easy_pos <- random_sample rel_clip_ids max_n ;;
         easy_neg <- random_sample pool max_n ;;
         ret (easy_pos, easy_neg)
       else ret (hard_pos_clip_indices, hard_neg_clip_indices)
     else ret ([], [])) ;;
  ret (hard_pos_clip_indices ++ fst easy,
       hard_neg_clip_indices ++ snd easy,
       score_array).

(** [np.sum(labels - np.ones_like(labels), axis=-1)] on a 2-D array of
    dtype [int64]; a list without rows is a 1-D array whose sum is a
    scalar, which the following slice rejects. *)
Definition tvsum_agg (labels : list (list Z)) : res (list Z) :=
  match labels with
  | [] => Raise IndexError
  | _ => if rectangular labels
         then Ok ((fun row => int64 (sumZ ((fun x => int64 (x - 1)) <$> row)))
                    <$> labels)
         else Raise ValueError
  end.

(** [get_saliency_labels_all_tvsum]; the name [rel_clip_ids] is not bound
    in this function. *)
Definition get_saliency_labels_all_tvsum
    (labels : list (list Z)) (ctx_l : Z) (max_n : Z) (add_easy_negative : bool)
  : M (list Z * list Z * list Q) :=
  agg <-! tvsum_agg labels ;;
  let agg_scores := slice_to agg ctx_l in
  let score_array := (fun s => inject_Z s / 80 * 12)%Q <$> agg_scores in
  let sort_indices := np_argsort agg_scores in
  let clamp := fun idx : nat => Z.min (Z.of_nat idx) (ctx_l - 1) in
  let hard_pos_clip_indices := clamp <$> slice_from sort_indices (- max_n) in
  let hard_neg_clip_indices := clamp <$> slice_to sort_indices max_n in
  easy <-
    (if add_easy_negative then
       let pool := py_range 0 ctx_l in
       if Z.of_nat (length pool) >=? max_n then raise NameError
       else ret (hard_pos_clip_indices, hard_neg_clip_indices)
     else ret ([], [])) ;;
  ret (hard_pos_clip_indices ++ fst easy,
       hard_neg_clip_indices ++ snd easy,
       score_array).

(** ** Span labels *)

(** A span tensor: rows [[center, width]] (regime ["l1"]) or inclusive clip
    index bounds [[st, ed]] (regime ["ce"]). *)
Inductive spans : Type :=
| SpansCxw (rows : list (Q * Q))
| SpansIdx (rows : list (Z * Z)).

Definition spans_count (s : spans) : nat :=
  match s with
  | SpansCxw rows => length rows
  | SpansIdx rows => length rows
  end.

(** Modelled from the spec: [span_xx_to_cxw] of [qd_detr/span_utils.py] is
    not among the sources; the specification has it convert normalized
    [[start, end]] pairs to [[center, width]]. *)
Definition span_xx_to_cxw (xx : list (Q * Q)) : list (Q * Q) :=
  (fun p => ((fst p + snd p) / 2, snd p - fst p)%Q) <$> xx.

(** [self.data[index]] *)
Definition read_meta (index : nat) : M meta :=
  fun w => (lookup_or_raise (data w) index, w).

(** Record [m] once its window list holds [ws]. *)
Definition set_windows (ws : list window) (m : meta) : meta :=
  Meta (qid m) (query m) (vid m) ws (relevant_clip_ids m)
       (saliency_scores m) (domain m) (label m).

(** The in-place update of the window list of record [index]. *)
Definition write_windows (index : nat) (ws : list window) : M unit :=
  fun w => (Ok tt, World (rng w) (alter (set_windows ws) index (data w))).

(** One row of the ["ce"] regime: the two Python integers go through
    [torch.Tensor] (float32) and back through [.long()]. *)
Definition ce_row (ctx_l : Z) (w : window) : res (Z * Z) :=
  st <~ py_int_truediv (fst w) (clip_len self) ;;
  ed <~ py_int_truediv (snd w) (clip_len self) ;;
  Ok (float32_long st, float32_long (Z.min ed ctx_l - 1)).

(** Lines 319-321 of [get_span_labels].  The argument [windows] of the
    source is the list object held by an annotation record; it is designated
    here by the position [index] of that record in [self.data], so that the
    in-place shuffle reaches the record. *)
Definition select_windows (index : nat) : M (list window) :=
  m <- read_meta index ;;
  let windows := relevant_windows m in
  if Z.of_nat (length windows) >? max_windows self then
    shuffled <- random_shuffle windows ;;
    _ <- write_windows index shuffled ;;
    ret (slice_to shuffled (max_windows self))
  else ret windows.

(** Lines 323-336 of [get_span_labels].  In the ["l1"] regime torch divides
    by [ctx_l * clip_len] without raising when that product is zero; [Q]
    has no infinities and the quotient is then 0 here. *)
Definition span_rows (ctx_l : Z) (windows : list window)
  : res (spans * list Z) :=
  let lengths := (fun w : window => snd w - fst w) <$> windows in
  if String.eqb (span_loss_type self) "l1" then
    let d := inject_Z (ctx_l * clip_len self) in
    let xx := (fun w : window => (inject_Z (fst w) / d, inject_Z (snd w) / d)%Q)
                <$> windows in
    Ok (SpansCxw (span_xx_to_cxw xx), lengths)
  else if String.eqb (span_loss_type self) "ce" then
    rows <~ rmap (ce_row ctx_l) windows ;;
    Ok (SpansIdx rows, lengths)
  else Raise NotImplementedError.

(** [get_span_labels] *)
Definition get_span_labels (index : nat) (ctx_l : Z) : M (spans * list Z) :=
  windows <- select_windows index ;;
  lift (span_rows ctx_l windows).

(** ** Example assembly *)

Inductive value : Type :=
| VFeat (rows : list (list Q))
| VSpans (s : spans)
| VIndices (l : list Z)
| VScores (l : list Q)
| VClasses (l : list nat).

(** An insertion-ordered dictionary with string keys. *)
Definition dict (V : Type) : Type := list (string * V).

Fixpoint dict_set {V} (k : string) (v : V) (d : dict V) : dict V :=
  match d with
  | [] => [(k, v)]
  | (k', v') :: d' =>
      if String.eqb k k' then (k, v) :: d' else (k', v') :: dict_set k v d'
  end.

Fixpoint dict_get {V} (k : string) (d : dict V) : res V :=
  match d with
  | [] => Raise KeyError
  | (k', v') :: d' => if String.eqb k k' then Ok v' else dict_get k d'
  end.

(** [meta[k]] for a key [k] that a record may lack. *)
Definition key {A} (o : option A) : res A :=
  match o with
  | Some x => Ok x
  | None => Raise KeyError
  end.

Definition set_saliency (mi : dict value) (t : list Z * list Z * list Q)
  : dict value :=
  dict_set "saliency_all_labels" (VScores (snd t))
    (dict_set "saliency_neg_labels" (VIndices (snd (fst t)))
       (dict_set "saliency_pos_labels" (VIndices (fst (fst t))) mi)).

(** Lines 159-172 of [__getitem__]: the labels, and [lengths] when the
    branch taken binds it. *)
Definition label_phase (index : nat) (ctx_l : Z) (mi : dict value)
  : M (dict value * option (list Z)) :=
  if load_labels self then
    if String.eqb (dset_name self) "tvsum" then
      let mi := dict_set "span_labels" (VSpans (SpansCxw [(0, 0)%Q])) mi in
      m <- read_meta index ;;
      meta_label <-! key (label m) ;;
      t <- get_saliency_labels_all_tvsum meta_label ctx_l 1 false ;;
      ret (set_saliency mi t, None)
    else
      sl <- get_span_labels index ctx_l ;;
      let mi := dict_set "span_labels" (VSpans (fst sl)) mi in
      m <- read_meta index ;;
      if negb (contains "subs_train" (data_path self)) then
        ids <-! key (relevant_clip_ids m) ;;
        sc <-! key (saliency_scores m) ;;
        t <- get_saliency_labels_all ids sc ctx_l 1 true ;;
        ret (set_saliency mi t, Some (snd sl))
      else
        gt <-! lookup_or_raise (relevant_windows m) 0 ;;
        t <- get_saliency_labels_sub_as_query gt ctx_l 2 ;;
        ret (set_saliency mi t, Some (snd sl))
  else ret (mi, None).

(** The inner loop of lines 177-180: the position of the first threshold
    that [l] does not exceed. *)
Fixpoint first_class (l : Z) (m_cls : nat) (vals : list Z) : option nat :=
  match vals with
  | [] => None
  | m_val :: rest =>
      if l <=? m_val then Some m_cls else first_class l (S m_cls) rest
  end.

Fixpoint moment_class_loop (vals lengths : list Z) : list nat :=
  match lengths with
  | [] => []
  | l :: rest =>
      match first_class l 0 vals with
      | Some m_cls => m_cls :: moment_class_loop vals rest
      | None => moment_class_loop vals rest
      end
  end.

(** Lines 174-183 of [__getitem__]. *)
Definition moment_class_phase (lengths : option (list Z)) (mi : dict value)
  : res (dict value) :=
  match m_vals self with
  | None => Ok mi
  | Some vals =>
      match lengths with
      | None => Raise UnboundLocalError
      | Some lengths =>
          let moment_class := moment_class_loop vals lengths in
          _ <~ assert (Nat.eqb (length moment_class) (length lengths)) ;;
          Ok (dict_set "moment_class" (VClasses moment_class) mi)
      end
  end.

(** The temporal channels [[i / ctx_l, i / ctx_l + 1 / ctx_l]]. *)
Definition tef_rows (ctx_l : Z) : list (list Q) :=
  (fun i => let st := (inject_Z i / inject_Z ctx_l)%Q in
            [st; (st + 1 / inject_Z ctx_l)%Q]) <$> py_range 0 ctx_l.

(** Lines 112-157 of [__getitem__]: the feature entries and the context
    length.  [query_feat] and [video_feat] are the features that the
    configured loaders return for this record.  With [use_tef],
    [torch.arange(0, ctx_l, 1.0)] rejects a negative bound, and the Python
    quotient [1.0 / ctx_l] of line 151 raises for [ctx_l = 0]. *)
Definition feature_phase (query_feat video_feat : list (list Q))
  : res (dict value * Z) :=
  let mi := dict_set "query_feat" (VFeat query_feat) [] in
  let mi := if use_video self
            then dict_set "video_feat" (VFeat video_feat) mi else mi in
  let ctx_l := if use_video self
               then Z.of_nat (length video_feat) else max_v_l self in
  if use_tef self then
    _ <~ (if ctx_l <? 0 then Raise RuntimeError else Ok tt) ;;
    _ <~ (if ctx_l =? 0 then Raise ZeroDivisionError else Ok tt) ;;
    Ok (if use_video self
        then dict_set "video_feat"
               (VFeat (zip_with app video_feat (tef_rows ctx_l))) mi
        else dict_set "video_feat" (VFeat (tef_rows ctx_l)) mi,
        ctx_l)
  else Ok (mi, ctx_l).

(** [__getitem__] *)
Definition getitem (query_feat video_feat : list (list Q)) (index : nat)
  : M (meta * dict value) :=
  _ <- read_meta index ;;
  fp <-! feature_phase query_feat video_feat ;;
  ml <- label_phase index (snd fp) (fst fp) ;;
  mi <-! moment_class_phase (snd ml) (fst ml) ;;
  m <- read_meta index ;;
  ret (m, mi).

End Labels.

(** ** Batching *)

Inductive batched : Type :=
| BList (l : list value)
| BLong (rows : list (list Z))
| BTensor (rows : list (list Q))
| BPadded (padded : list (list (list Q))) (mask : list (list Q)).

(** Modelled from the spec: [pad_sequences_1d] of [utils/tensor_utils.py]
    is not among the sources; the specification has it pad every sequence
    with zero to the longest length of the batch and return the padded
    sequences with a mask holding 1 at real and 0 at padded positions. *)
Definition pad_sequences_1d {A} (zero : A) (sequences : list (list A))
  : list (list A) * list (list Q) :=
  let max_length := foldr Nat.max 0%nat (length <$> sequences) in
  ((fun s => s ++ replicate (max_length - length s) zero) <$> sequences,
   (fun s => replicate (length s) 1%Q ++ replicate (max_length - length s) 0%Q)
     <$> sequences).

Definition as_indices (v : value) : res (list Z) :=
  match v with VIndices l => Ok l | _ => Raise TypeError end.

Definition as_scores (v : value) : res (list Q) :=
  match v with VScores l => Ok l | _ => Raise TypeError end.

Definition as_feat (v : value) : res (list (list Q)) :=
  match v with VFeat rows => Ok rows | _ => Raise TypeError end.

(** [torch.LongTensor(rows)] *)
Definition long_tensor (rows : list (list Z)) : res (list (list Z)) :=
  if rectangular rows then Ok rows else Raise ValueError.

Definition zero_row (sequences : list (list (list Q))) : list Q :=
  match sequences with
  | (row :: _) :: _ => replicate (length row) 0%Q
  | _ => []
  end.

(** The body of the loop of [start_end_collate] for key [k]. *)
Definition collate_key (k : string) (batch : list (meta * dict value))
  : res batched :=
  vals <~ rmap (fun e => dict_get k (snd e)) batch ;;
  if String.eqb k "span_labels" then Ok (BList vals)
  else if str_in k ["saliency_pos_labels"; "saliency_neg_labels"]%string then
    rows <~ rmap as_indices vals ;;
    t <~ long_tensor rows ;;
    Ok (BLong t)
  else if String.eqb k "saliency_all_labels" then
    seqs <~ rmap as_scores vals ;;
    let pm := pad_sequences_1d 0%Q seqs in
    let pad_data := fst pm in
    Ok (BTensor pad_data)
  else if String.eqb k "moment_class" then Ok (BList vals)
  else
    seqs <~ rmap as_feat vals ;;
    let pm := pad_sequences_1d (zero_row seqs) seqs in
    Ok (BPadded (fst pm) (snd pm)).

Fixpoint collate_loop (keys : list string) (batch : list (meta * dict value))
    (batched_data : dict batched) : res (dict batched) :=
  match keys with
  | [] => Ok batched_data
  | k :: rest =>
      b <~ collate_key k batch ;;
      collate_loop rest batch (dict_set k b batched_data)
  end.

(** [start_end_collate] *)
Definition start_end_collate (batch : list (meta * dict value))
  : res (list meta * dict batched) :=
  let batch_meta := fst <$> batch in
  e0 <~ lookup_or_raise batch 0 ;;
  let model_inputs_keys := fst <$> snd e0 in
  batched_data <~ collate_loop model_inputs_keys batch [] ;;
  Ok (batch_meta, batched_data).

(** ** The index lists alone *)

(** [get_saliency_labels] *)
Definition get_saliency_labels
    (rel_clip_ids : list Z) (scores : list (list Z)) (ctx_l : Z)
    (max_n : Z) (add_easy_negative : bool)
  : M (list Z * list Z) :=
  agg_scores <-! np_sum_axis1 scores ;;
  let sort_indices := np_argsort agg_scores in
  hard_pos_clip_indices <-!
    clamp_ids rel_clip_ids ctx_l (slice_from sort_indices (- max_n)) ;;
  hard_neg_clip_indices <-!
    clamp_ids rel_clip_ids ctx_l (slice_to sort_indices max_n) ;;
  easy <-
    (if add_easy_negative then
       let pool := easy_neg_pool rel_clip_ids ctx_l in
       if Z.of_nat (length pool) >=? max_n then
         easy_pos <- random_sample rel_clip_ids max_n ;;
         easy_neg <- random_sample pool max_n ;;
         ret (easy_pos, easy_neg)
       else ret (hard_pos_clip_indices, hard_neg_clip_indices)
     else ret ([], [])) ;;
  ret (hard_pos_clip_indices ++ fst easy,
       hard_neg_clip_indices ++ snd easy).

(** ** Video features *)

Section Features.

(** [l2_normalize_np_array] of [utils/basic_utils.py] is not among the
    sources (and takes square roots); it is a parameter here. *)
Variable l2_normalize_np_array : list (list Q) -> list (list Q).

(** [np.concatenate(arrays, axis=1)] on 2-D arrays: at least one array,
    all with the same number of rows. *)
Definition np_concatenate_axis1 (arrays : list (list (list Q)))
  : res (list (list Q)) :=
  match arrays with
  | [] => Raise ValueError
  | a :: rest =>
      if forallb (fun b => Nat.eqb (length b) (length a)) rest
      then Ok (foldl (zip_with app) a rest)
      else Raise ValueError
  end.

(** [min(l)] *)
Definition py_min (l : list nat) : res nat :=
  match l with
  | [] => Raise ValueError
  | x :: rest => Ok (foldl Nat.min x rest)
  end.

(** [_get_video_feat_by_vid].  [rgb_opt] (tvsum) and [features]
    (elsewhere) are the arrays that [np.load] returns for the files of
    each directory of [self.v_feat_dirs], in order; [normalize_v] is
    [self.normalize_v]. *)
Definition get_video_feat_by_vid (self : StartEndDataset) (normalize_v : bool)
    (rgb_opt : list (list (list Q) * list (list Q)))
    (features : list (list (list Q)))
  : res (list (list Q)) :=
  v_feat_list <~
    (if String.eqb (dset_name self) "tvsum" then
       rmap (fun files : list (list Q) * list (list Q) =>
               let _feat_rgb := slice_to (fst files) (max_v_l self) in
               let _feat_opt := slice_to (snd files) (max_v_l self) in
               _feat <~ np_concatenate_axis1 [_feat_rgb; _feat_opt] ;;
               Ok (if normalize_v then l2_normalize_np_array _feat else _feat))
            rgb_opt
     else
       Ok ((fun file : list (list Q) =>
              let _feat := slice_to file (max_v_l self) in
              if normalize_v then l2_normalize_np_array _feat else _feat)
             <$> features)) ;;
  min_len <~ py_min (length <$> v_feat_list) ;;
  let v_feat_list := take min_len <$> v_feat_list in
  np_concatenate_axis1 v_feat_list.

End Features.

(** ** Noun phrases

    What [self.nlp] returns for a text: the tokens in order (token [k] has
    [token.i = k]), each with the position of its head and of its children,
    and the noun chunks as spans of token positions. *)

Record token : Type := Token {
  tok_text : string;
  tok_head : nat;            (* [token.head.i] *)
  tok_children : list nat    (* [[c.i for c in token.children]] *)
}.

Record chunk : Type := Chunk {
  chunk_start : nat;
  chunk_end : nat;
  chunk_text : string
}.

Record Doc : Type := MkDoc {
  doc_tokens : list token;
  doc_noun_chunks : list chunk
}.

(** The dictionaries [chunks] and [chunks_index] of lines 582-587. *)
Definition index_chunks (noun_chunks : list chunk)
  : gmap nat chunk * gmap nat (nat * nat) :=
  foldl (fun acc c =>
           foldl (fun acc i =>
                    (<[i := c]> (fst acc),
                     <[i := (chunk_start c, chunk_end c)]> (snd acc)))
                 acc (seq (chunk_start c) (chunk_end c - chunk_start c)))
        (∅, ∅) noun_chunks.

(** Lines 589-591: the last token that is its own head, if any. *)
Definition find_root (tokens : list token) : option nat :=
  foldl (fun head it => if Nat.eqb (tok_head (snd it)) (fst it)
                        then Some (tok_head (snd it)) else head)
        None (imap pair tokens).

(** What [extract_noun_phrase] returns: a text alone, a text with the two
    index lists, or (line 599) the text twice around an empty list. *)
Inductive noun_phrase : Type :=
| PhraseText (text : string)
| PhraseIndexed (text : string) (phrase_index not_phrase_index : list nat)
| PhraseWhole (text : string).

(** [extract_noun_phrase]; [text] is the lower-cased text and [doc] is
    [self.nlp(text)]. *)
Definition extract_noun_phrase (text : string) (doc : Doc) (need_index : bool)
  : res noun_phrase :=
  let cs := index_chunks (doc_noun_chunks doc) in
  let chunks := fst cs in
  let chunks_index := snd cs in
  match find_root (doc_tokens doc) with
  | None => Raise UnboundLocalError
  | Some root =>
      selected <~
        (match chunks !! root with
         | Some _ => Ok (Some root)
         | None =>
             t <~ lookup_or_raise (doc_tokens doc) root ;;
             match tok_children t with
             | c :: _ => Ok (match chunks !! c with
                             | Some _ => Some c
                             | None => None
                             end)
             | [] => Ok None
             end
         end) ;;
      match selected with
      | None => Ok (if need_index then PhraseWhole text else PhraseText text)
      | Some head =>
          match chunks_index !! head, chunks !! head with
          | Some se, Some c =>
              let head_index := seq (fst se) (snd se - fst se) in
              let sentence_index := seq 0 (length (doc_tokens doc)) in
              let phrase_index :=
                filter (fun i => i ∈ head_index) sentence_index in
              let not_phrase_index :=
                filter (fun i => i ∉ head_index) sentence_index in
              Ok (if need_index
                  then PhraseIndexed (chunk_text c) phrase_index not_phrase_index
                  else PhraseText (chunk_text c))
          | _, _ => Raise KeyError
          end
      end
  end.

(** ** Notions used in the statements *)

(** A computation that leaves [self.data] as it found it. *)
Definition frame {A} (m : M A) : Prop :=
  forall w, data (snd (m w)) = data w.

(** [c] is the position of the first threshold of [vals] that [l] does not
    exceed. *)
Definition is_first_threshold (vals : list Z) (l : Z) (c : nat) : Prop :=
  exists v, vals !! c = Some v /\ l <= v /\
            forall j v', (j < c)%nat -> vals !! j = Some v' -> v' < l.

(** Position [i] lies in the span of the noun chunk [c]. *)
Definition covers (i : nat) (c : chunk) : Prop :=
  (chunk_start c <= i < chunk_end c)%nat.

#[local] Instance covers_dec (i : nat) (c : chunk) : Decision (covers i c).
Proof. unfold covers. apply _. Defined.

(** The last of the noun chunks whose span contains position [i]. *)
Definition chunk_at (noun_chunks : list chunk) (i : nat) : option chunk :=
  last (filter (covers i) noun_chunks).

(** Position [r] holds the last token that is its own head. *)
Definition is_last_self_headed (tokens : list token) (r : nat) : Prop :=
  (exists t, tokens !! r = Some t /\ tok_head t = r) /\
  forall j t, tokens !! j = Some t -> tok_head t = j -> (j <= r)%nat.

(** The constructor arguments [a] with another [span_loss_type]. *)
Definition with_span_loss_type (s : string) (a : init_args) : init_args :=
  InitArgs (a_dset_name a) (a_data_path a) (a_q_feat_type a) (a_max_q_l a)
    (a_max_v_l a) (a_data_ratio a) (a_ctx_mode a) (a_load_labels a)
    (a_clip_len a) (a_max_windows a) s (a_txt_drop_ratio a)
    (a_dset_domain a) (a_m_classes a).

(** The pseudo ground-truth clip range [[gt_st, gt_ed]] that lines 188-191
    of [get_saliency_labels_sub_as_query] compute. *)
Definition gt_ed (self : StartEndDataset) (gt_window : window) (ctx_l : Z) : Z :=
  Z.max 0 (Z.min (snd gt_window ÷ clip_len self) ctx_l - 1).

Definition gt_st (self : StartEndDataset) (gt_window : window) (ctx_l : Z) : Z :=
  Z.min (fst gt_window ÷ clip_len self) (gt_ed self gt_window ctx_l).

(** The rescaled importance [sum(row - 1) / 80 * 12] of one row of a
    summarization label array. *)
Definition tvsum_score (row : list Z) : Q :=
  (inject_Z (sumZ ((fun x : Z => (x - 1)%Z) <$> row)) / 80 * 12)%Q.

(** ** Concrete inputs *)

Definition ds_hl : StartEndDataset :=
  Dataset "hl" "data/highlight_train_release.jsonl" "last_hidden_state"
    32 75 "video_tef" true true true 2 5 "l1" 0%Q None.

(** The annotation record of the class docstring, with a second window. *)
Definition meta_two : meta :=
  Meta 7803 "Man in gray top walks from outside to inside."
    "RoripwjYFp8_360.0_510.0" [(26, 36); (40, 60)]
    (Some [13; 14; 15; 16; 17])
    (Some [[4; 2; 3]; [4; 3; 3]; [4; 4; 3]; [4; 4; 4]; [3; 2; 2]])
    None None.

Definition meta_instant : meta :=
  Meta 1 "An instant." "v_0.0_150.0" [(0, 0)]
    (Some [0]) (Some [[1; 1; 1]]) None None.

(** A training split in the ["ce"] regime keeping one window per example,
    with moment-length thresholds 10, 30 and 150. *)
Definition ds_ce : StartEndDataset :=
  Dataset "hl" "data/highlight_train_release.jsonl" "last_hidden_state"
    32 75 "video_tef" true true true 2 1 "ce" 0%Q (Some [10; 30; 150]).

(** 75 clips of video features (the feature channels play no role). *)
Definition video_75 : list (list Q) := replicate 75 [].

(** Constructor arguments for a validation split, with and without text
    row-dropout. *)
Definition args_val (ratio : Q) : init_args :=
  InitArgs "hl" "data/highlight_val_release.jsonl" "last_hidden_state"
    32 75 1%Q "video_tef" true 2 5 "l1" ratio None None.

(** Two assembled examples whose dense score arrays have lengths 2 and 3. *)
Definition example_a : meta * dict value :=
  (meta_instant,
   [("saliency_pos_labels", VIndices [0; 0]);
    ("saliency_neg_labels", VIndices [1; 1]);
    ("saliency_all_labels", VScores [3; 0]%Q)]%string).

Definition example_b : meta * dict value :=
  (meta_two,
   [("saliency_pos_labels", VIndices [2; 1]);
    ("saliency_neg_labels", VIndices [0; 0]);
    ("saliency_all_labels", VScores [0; 4; 5]%Q)]%string).

(** [ds_hl] and [ds_ce] as used for inference, without labels. *)
Definition ds_hl_eval : StartEndDataset :=
  Dataset "hl" "data/highlight_test_release.jsonl" "last_hidden_state"
    32 75 "video_tef" true true false 2 5 "l1" 0%Q None.

Definition ds_ce_eval : StartEndDataset :=
  Dataset "hl" "data/highlight_test_release.jsonl" "last_hidden_state"
    32 75 "video_tef" true true false 2 1 "ce" 0%Q (Some [10; 30; 150]).

(** Constructor arguments for a tvsum training split of domain ["BK"],
    and records of two domains. *)
Definition args_tvsum : init_args :=
  InitArgs "tvsum" "data/tvsum/tvsum_train.jsonl" "last_hidden_state"
    32 75 1%Q "video_tef" true 2 5 "l1" 0%Q (Some "BK"%string) None.

Definition meta_bk : meta :=
  Meta 1 "Changing a bike tire." "bk_01" [] None None
    (Some "BK"%string) (Some [[3; 2]; [5; 4]; [1; 1]]).

Definition meta_vt : meta :=
  Meta 2 "Changing a vehicle tire." "vt_01" [] None None
    (Some "VT"%string) (Some [[2; 2]; [4; 5]]).

(** A tvsum training split. *)
Definition ds_tvsum : StartEndDataset :=
  Dataset "tvsum" "data/tvsum/tvsum_train.jsonl" "last_hidden_state"
    32 75 "video_tef" true true true 2 5 "l1" 0%Q None.

(** A parse of the text of [meta_two] up to its verb: the root [walks]
    belongs to no noun chunk, its first child [man] does. *)
Definition doc_man : Doc :=
  MkDoc [Token "man" 4 [1%nat]; Token "in" 0 [3%nat]; Token "gray" 3 [];
         Token "top" 1 [2%nat]; Token "walks" 4 [0%nat]]
        [Chunk 0 1 "man"; Chunk 2 4 "gray top"].

(** Constructor arguments for a training split with a span regime that
    the code does not know. *)
Definition args_iou : init_args :=
  InitArgs "hl" "data/highlight_train_release.jsonl" "last_hidden_state"
    32 75 1%Q "video_tef" true 2 5 "iou" 0%Q None None.

(** * Properties *)

(** ** The random source *)

Lemma randbelow_spec (n : nat) (w : world) :
  (0 < n)%nat ->
  exists j w', randbelow n w = (Ok j, w') /\ (j < n)%nat /\ data w' = data w.
Proof.
  intros Hn. unfold randbelow. destruct (rng w) as [|r rs].
  - exists 0%nat, w. auto.
  - exists (r mod n)%nat, (World rs (data w)). split; [done|]. split; [|done].
    apply Nat.mod_upper_bound. lia.
Qed.

Lemma insert_cons_perm {A} (l : list A) (j : nat) (b c : A) :
  l !! j = Some b -> b :: <[j := c]> l ≡ₚ c :: l.
Proof.
  revert j. induction l as [|a l IH]; intros [|j] H; simplify_eq/=.
  - apply Permutation_swap.
  - rewrite (Permutation_swap a b). rewrite (IH j H). apply Permutation_swap.
Qed.

Lemma swap_perm {A} (i j : nat) (x : list A) : swap i j x ≡ₚ x.
Proof.
  unfold swap.
  destruct (x !! i) as [a|] eqn:Hi; [|done].
  destruct (x !! j) as [b|] eqn:Hj; [|done].
  revert i j Hi Hj. induction x as [|c x IH]; intros [|i] [|j] Hi Hj; simplify_eq/=.
  - done.
  - by apply insert_cons_perm.
  - by apply insert_cons_perm.
  - f_equiv. by apply IH.
Qed.

Lemma shuffle_loop_spec {A} (i : nat) (x : list A) (w : world) :
  exists x' w', shuffle_loop i x w = (Ok x', w') /\ x' ≡ₚ x /\ data w' = data w.
Proof.
  revert x w. induction i as [|i IH]; intros x w; simpl.
  - exists x, w. done.
  - unfold bind. destruct (randbelow_spec (S (S i)) w) as (j & w1 & -> & _ & Hd); [lia|].
    destruct (IH (swap (S i) j x) w1) as (x' & w' & -> & Hp & Hd').
    exists x', w'. split; [done|]. split; [|congruence].
    rewrite Hp. apply swap_perm.
Qed.

Lemma random_shuffle_spec {A} (x : list A) (w : world) :
  exists x' w', random_shuffle x w = (Ok x', w') /\ x' ≡ₚ x /\ data w' = data w.
Proof. apply shuffle_loop_spec. Qed.

Lemma pool_step_perm {A} (pool : list A) (j : nat) (x y : A) :
  pool !! j = Some x -> last pool = Some y ->
  pool ≡ₚ x :: take (length pool - 1) (<[j := y]> pool).
Proof.
  intros Hj Hl. apply last_Some in Hl as [l ->].
  rewrite length_app. simpl. replace (length l + 1 - 1)%nat with (length l) by lia.
  destruct (decide (j < length l)%nat) as [Hlt|Hge].
  - rewrite lookup_app_l in Hj by done.
    rewrite insert_app_l by done.
    rewrite take_app_length' by (by rewrite length_insert).
    rewrite (insert_cons_perm l j x y Hj).
    by rewrite <- Permutation_cons_append.
  - assert (j = length l) as ->.
    { apply lookup_lt_Some in Hj. rewrite length_app in Hj. simpl in Hj. lia. }
    rewrite list_lookup_middle in Hj by done. simplify_eq.
    rewrite insert_app_r_alt by lia. rewrite Nat.sub_diag. simpl.
    rewrite take_app_length. by rewrite <- Permutation_cons_append.
Qed.

Lemma sample_loop_spec {A} (k : nat) (pool : list A) (w : world) :
  (k <= length pool)%nat ->
  exists r rest w',
    sample_loop k pool w = (Ok r, w') /\ length r = k /\
    pool ≡ₚ r ++ rest /\ data w' = data w.
Proof.
  revert pool w. induction k as [|k IH]; intros pool w Hk; simpl.
  - exists [], pool, w. done.
  - unfold bind.
    destruct (randbelow_spec (length pool) w) as (j & w1 & -> & Hj & Hd); [lia|].
    destruct (lookup_lt_is_Some_2 pool j Hj) as [x Hx]. rewrite Hx.
    destruct (last pool) as [y|] eqn:Hy.
    2:{ apply last_None in Hy. subst. simpl in Hk. lia. }
    destruct (IH (take (length pool - 1) (<[j := y]> pool)) w1)
      as (r & rest & w' & -> & Hlen & Hp & Hd').
    { rewrite length_take, length_insert. lia. }
    exists (x :: r), rest, w'. unfold ret. split; [done|].
    split; [simpl; lia|]. split; [|congruence].
    rewrite (pool_step_perm pool j x y Hx Hy). simpl. by rewrite Hp.
Qed.

Lemma random_sample_ok {A} (population : list A) (k : Z) (w : world) :
  0 <= k <= Z.of_nat (length population) ->
  exists r rest w',
    random_sample population k w = (Ok r, w') /\ Z.of_nat (length r) = k /\
    population ≡ₚ r ++ rest /\ data w' = data w.
Proof.
  intros Hk. unfold random_sample.
  destruct (Z.ltb_spec k 0); [lia|].
  destruct (Z.ltb_spec (Z.of_nat (length population)) k); [lia|]. simpl.
  destruct (sample_loop_spec (Z.to_nat k) population w) as (r & rest & w' & ? & ? & ? & ?);
    [lia|].
  exists r, rest, w'. repeat split; try done. lia.
Qed.

Lemma random_sample_raise {A} (population : list A) (k : Z) (w : world) :
  k < 0 \/ Z.of_nat (length population) < k ->
  random_sample population k w = (Raise ValueError, w).
Proof.
  intros Hk. unfold random_sample.
  destruct (Z.ltb_spec k 0); [done|].
  destruct (Z.ltb_spec (Z.of_nat (length population)) k); [done|]. lia.
Qed.

Lemma random_sample_frame {A} (population : list A) (k : Z) (w : world) :
  data (snd (random_sample population k w)) = data w.
Proof.
  destruct (decide (0 <= k <= Z.of_nat (length population))) as [H|H].
  - destruct (random_sample_ok population k w H) as (r & rest & w' & -> & _ & _ & ?).
    done.
  - rewrite random_sample_raise by lia. done.
Qed.

(** ** Ranges *)

Lemma py_range_elem (a b x : Z) : x ∈ py_range a b <-> a <= x < b.
Proof. unfold py_range. rewrite elem_of_seqZ. lia. Qed.

Lemma py_range_length (a b : Z) : Z.of_nat (length (py_range a b)) = Z.max 0 (b - a).
Proof. unfold py_range. rewrite length_seqZ. lia. Qed.

Lemma py_range_NoDup (a b : Z) : NoDup (py_range a b).
Proof. apply NoDup_seqZ. Qed.

(** ** The subset-query builder *)

(** C10.  For [gt_window = [10, 20]], [clip_len = 2] and [ctx_l = 50] the
    subset-query builder computes [gt_st = 5] and [gt_ed = 9]; whatever the
    generator draws, it returns two distinct positive indices of
    [{5, ..., 9}], two negative indices of [[0, 50)] outside that range,
    and a dense array of length 50 with ones at positions 5 to 9 and zeros
    elsewhere. *)
Theorem sub_as_query_example (self : StartEndDataset) (w : world) :
  clip_len self = 2 ->
  py_int_truediv 10 (clip_len self) = Ok 5 /\
  Z.max 0 (Z.min (20 ÷ clip_len self) 50 - 1) = 9 /\
  exists a b neg w',
    get_saliency_labels_sub_as_query self (10, 20) 50 2 w
    = (Ok ([a; b], neg,
           replicate 5 0%Q ++ replicate 5 1%Q ++ replicate 40 0%Q), w') /\
    a <> b /\ 5 <= a <= 9 /\ 5 <= b <= 9 /\
    length neg = 2%nat /\
    Forall (fun i => 0 <= i < 50 /\ ~ 5 <= i <= 9) neg.
Proof.
  intros Hcl. rewrite Hcl. split; [done|]. split; [done|].
  unfold get_saliency_labels_sub_as_query. rewrite Hcl.
  change (py_int_truediv (fst (10, 20)) 2) with (Ok 5 : res Z).
  change (py_int_truediv (snd (10, 20)) 2) with (Ok 10 : res Z).
  cbv beta iota delta [lift bind]. 
  change (Z.max 0 (Z.min 10 50 - 1)) with 9.
  change (5 >? 9) with false. cbv iota.
  change (negb (5 =? 9)) with true. cbv iota.
  destruct (random_sample_ok (py_range 5 (9 + 1)) 2 w) as (r & rest & w1 & -> & Hlen & Hp & _).
  { rewrite py_range_length. lia. }
  destruct (random_sample_ok (py_range 0 5 ++ py_range (9 + 1) 50) 2 w1)
    as (neg & rest' & w2 & -> & Hlen' & Hp' & _).
  { rewrite length_app, Nat2Z.inj_add, !py_range_length. lia. }
  destruct r as [|a [|b [|c r]]]; simpl in Hlen; try lia.
  exists a, b, neg, w2. split; [reflexivity|].
  assert (NoDup (a :: b :: rest)) as Hnd.
  { change (NoDup ([a; b] ++ rest)). rewrite <- Hp. apply py_range_NoDup. }
  assert (forall x, x ∈ [a; b] -> 5 <= x <= 9) as Hin.
  { intros x Hx. assert (x ∈ py_range 5 (9 + 1)) as Hx'.
    { rewrite Hp. apply elem_of_app. by left. }
    apply py_range_elem in Hx'. lia. }
  split. { apply NoDup_cons in Hnd as [Hnd _]. intros ->. apply Hnd. left. }
  split. { apply Hin. left. }
  split. { apply Hin. right. left. }
  split. { lia. }
  apply Forall_forall. intros x Hx.
  assert (x ∈ py_range 0 5 ++ py_range (9 + 1) 50) as Hx'.
  { rewrite Hp'. apply elem_of_app. by left. }
  apply elem_of_app in Hx' as [Hx'|Hx']; apply py_range_elem in Hx'; lia.
Qed.

Lemma sub_as_query_example_witness :
  clip_len ds_hl = 2 /\
  exists a b neg w',
    get_saliency_labels_sub_as_query ds_hl (10, 20) 50 2 (World [3; 1; 4; 1]%nat [])
    = (Ok ([a; b], neg,
           replicate 5 0%Q ++ replicate 5 1%Q ++ replicate 40 0%Q), w') /\
    a <> b /\ 5 <= a <= 9 /\ 5 <= b <= 9 /\
    length neg = 2%nat /\
    Forall (fun i => 0 <= i < 50 /\ ~ 5 <= i <= 9) neg.
Proof.
  split; [reflexivity|].
  apply (sub_as_query_example ds_hl (World [3; 1; 4; 1]%nat [])). reflexivity.
Defined.

(** C3 (the code departs from it).  The subset-query builder has no
    fallback for its negatives: whenever the complement of
    [[gt_st, gt_ed]] in [[0, ctx_l)] has fewer than [max_n] members, the
    call raises [ValueError], whatever the generator draws. *)
Theorem sub_as_query_small_pool_raises
    (self : StartEndDataset) (gt_window : window) (ctx_l max_n : Z) (w : world) :
  clip_len self <> 0 ->
  Z.max 0 (Z.min (fst gt_window ÷ clip_len self)
                 (Z.max 0 (Z.min (snd gt_window ÷ clip_len self) ctx_l - 1)))
  + Z.max 0 (ctx_l - (Z.max 0 (Z.min (snd gt_window ÷ clip_len self) ctx_l - 1) + 1))
  < max_n ->
  fst (get_saliency_labels_sub_as_query self gt_window ctx_l max_n w)
  = Raise ValueError.
Proof.
  intros Hcl Hsmall. unfold get_saliency_labels_sub_as_query, py_int_truediv.
  destruct (Z.eqb_spec (clip_len self) 0) as [|_]; [done|].
  cbv beta iota zeta delta [lift bind].
  set (q_st := fst gt_window ÷ clip_len self) in *.
  set (gt_ed := Z.max 0 (Z.min (snd gt_window ÷ clip_len self) ctx_l - 1)) in *.
  set (gt_st := if q_st >? gt_ed then gt_ed else q_st).
  assert (gt_st = Z.min q_st gt_ed) as Hst.
  { unfold gt_st. destruct (Z.gtb_spec q_st gt_ed); lia. }
  assert (Z.of_nat (length (py_range 0 gt_st ++ py_range (gt_ed + 1) ctx_l)) < max_n)
    as Hpool.
  { rewrite length_app, Nat2Z.inj_add, !py_range_length, Hst. lia. }
  destruct (negb (gt_st =? gt_ed)).
  - destruct (random_sample (py_range gt_st (gt_ed + 1)) max_n w) as [[r|e] w1] eqn:Hs.
    + cbv beta iota. rewrite random_sample_raise by lia. done.
    + destruct (decide (0 <= max_n <= Z.of_nat (length (py_range gt_st (gt_ed + 1)))))
        as [Hk|Hk].
      * destruct (random_sample_ok _ _ w Hk) as (? & ? & ? & Hs' & _). congruence.
      * rewrite random_sample_raise in Hs by lia. by simplify_eq.
  - unfold ret. rewrite random_sample_raise by lia. done.
Qed.

(** A window that covers a whole video of 75 clips leaves no negative. *)
Lemma sub_as_query_small_pool_raises_witness :
  clip_len ds_hl <> 0 /\
  Z.max 0 (Z.min (fst (0, 150) ÷ clip_len ds_hl)
                 (Z.max 0 (Z.min (snd (0, 150) ÷ clip_len ds_hl) 75 - 1)))
  + Z.max 0 (75 - (Z.max 0 (Z.min (snd (0, 150) ÷ clip_len ds_hl) 75 - 1) + 1))
  < 2 /\
  fst (get_saliency_labels_sub_as_query ds_hl (0, 150) 75 2 (World [] []))
  = Raise ValueError.
Proof.
  split; [discriminate|]. split; [reflexivity|].
  apply (sub_as_query_small_pool_raises ds_hl (0, 150) 75 2 (World [] []));
    [discriminate|reflexivity].
Defined.

(** ** Computations that leave the annotation list alone *)

Lemma frame_ret {A} (a : A) : frame (ret a).
Proof. by intros w. Qed.

Lemma frame_raise {A} (e : exn) : frame (@raise A e).
Proof. by intros w. Qed.

Lemma frame_lift {A} (r : res A) : frame (lift r).
Proof. by intros w. Qed.

Lemma frame_bind {A B} (m : M A) (k : A -> M B) :
  frame m -> (forall a, frame (k a)) -> frame (bind m k).
Proof.
  intros Hm Hk w. unfold bind. specialize (Hm w).
  destruct (m w) as [[a|e] w1]; simpl in *; [|done].
  by rewrite Hk.
Qed.

Lemma frame_random_sample {A} (population : list A) (k : Z) :
  frame (random_sample population k).
Proof. intros w. apply random_sample_frame. Qed.

Lemma frame_if {A} (b : bool) (m1 m2 : M A) :
  frame m1 -> frame m2 -> frame (if b then m1 else m2).
Proof. by destruct b. Qed.

Create HintDb frame_db.
#[export] Hint Resolve frame_ret frame_raise frame_lift frame_random_sample
  : frame_db.

Ltac frame_steps :=
  repeat first
    [ solve [auto with frame_db]
    | apply frame_bind; [|intros ?]
    | apply frame_if
    | progress cbv beta zeta ].

Lemma frame_sub_as_query self gt_window ctx_l max_n :
  frame (get_saliency_labels_sub_as_query self gt_window ctx_l max_n).
Proof. unfold get_saliency_labels_sub_as_query. frame_steps. Qed.

Lemma frame_all rel_clip_ids scores ctx_l max_n add_easy_negative :
  frame (get_saliency_labels_all rel_clip_ids scores ctx_l max_n add_easy_negative).
Proof. unfold get_saliency_labels_all. frame_steps. Qed.

Lemma frame_all_tvsum labels ctx_l max_n add_easy_negative :
  frame (get_saliency_labels_all_tvsum labels ctx_l max_n add_easy_negative).
Proof. unfold get_saliency_labels_all_tvsum. frame_steps. Qed.

Lemma frame_read_meta index : frame (read_meta index).
Proof. by intros w. Qed.

#[export] Hint Resolve frame_sub_as_query frame_all frame_all_tvsum
  frame_read_meta : frame_db.

(** ** The window selection of [get_span_labels] *)

Lemma set_windows_id (m : meta) : set_windows (relevant_windows m) m = m.
Proof. by destruct m. Qed.

(** What [select_windows] does to the world and which windows it keeps. *)
Lemma select_windows_run self index w m :
  data w !! index = Some m ->
  exists ws w',
    ws ≡ₚ relevant_windows m /\
    data w' = <[index := set_windows ws m]> (data w) /\
    select_windows self index w
    = (Ok (if Z.of_nat (length (relevant_windows m)) >? max_windows self
           then slice_to ws (max_windows self) else ws), w') /\
    (Z.of_nat (length (relevant_windows m)) <= max_windows self ->
     ws = relevant_windows m /\ w' = w).
Proof.
  intros Hm. unfold select_windows, bind, read_meta, lookup_or_raise.
  rewrite Hm. simpl.
  destruct (Z.gtb_spec (Z.of_nat (length (relevant_windows m))) (max_windows self))
    as [Hgt|Hle].
  - destruct (random_shuffle_spec (relevant_windows m) w) as (ws & w1 & -> & Hp & Hd).
    exists ws, (World (rng w1) (alter (set_windows ws) index (data w1))).
    split; [done|]. split.
    { simpl. rewrite Hd. apply list_eq. intros i.
      destruct (decide (i = index)) as [->|Hne].
      - rewrite list_lookup_alter_eq, Hm.
        by rewrite list_lookup_insert_eq by (by eapply lookup_lt_Some).
      - rewrite list_lookup_alter_ne by done. by rewrite list_lookup_insert_ne. }
    split; [done|]. lia.
  - exists (relevant_windows m), w. split; [done|]. split.
    { rewrite set_windows_id. by rewrite list_insert_id. }
    done.
Qed.

(** The two cases of the selection: every window is kept and nothing is
    written, or the list is shuffled in place and cut. *)
Lemma select_windows_small self index w m :
  data w !! index = Some m ->
  Z.of_nat (length (relevant_windows m)) <= max_windows self ->
  select_windows self index w = (Ok (relevant_windows m), w).
Proof.
  intros Hm Hle. unfold select_windows, bind, read_meta, lookup_or_raise.
  rewrite Hm. simpl.
  by destruct (Z.gtb_spec (Z.of_nat (length (relevant_windows m))) (max_windows self));
    [lia|].
Qed.

Lemma select_windows_shuffled self index w m :
  data w !! index = Some m ->
  max_windows self < Z.of_nat (length (relevant_windows m)) ->
  exists ws w1,
    random_shuffle (relevant_windows m) w = (Ok ws, w1) /\
    ws ≡ₚ relevant_windows m /\
    select_windows self index w
    = (Ok (slice_to ws (max_windows self)),
       World (rng w1) (<[index := set_windows ws m]> (data w))).
Proof.
  intros Hm Hgt. unfold select_windows, bind, read_meta, lookup_or_raise.
  rewrite Hm. simpl.
  destruct (Z.gtb_spec (Z.of_nat (length (relevant_windows m))) (max_windows self));
    [|lia].
  destruct (random_shuffle_spec (relevant_windows m) w) as (ws & w1 & Hsh & Hp & Hd).
  exists ws, w1. rewrite Hsh. split; [done|]. split; [done|].
  unfold write_windows, ret. simpl. do 2 f_equal.
  rewrite Hd. apply list_eq. intros i.
  destruct (decide (i = index)) as [->|Hne].
  - rewrite list_lookup_alter_eq, Hm.
    by rewrite list_lookup_insert_eq by (by eapply lookup_lt_Some).
  - rewrite list_lookup_alter_ne by done. by rewrite list_lookup_insert_ne.
Qed.

Lemma frame_after {A B} (m : M A) (k : A -> M B) (w : world) :
  (forall a, frame (k a)) ->
  data (snd (bind m k w)) = data (snd (m w)).
Proof.
  intros Hk. unfold bind. destruct (m w) as [[a|e] w1]; simpl; [|done]. apply Hk.
Qed.

Lemma get_span_labels_data self index ctx_l w :
  data (snd (get_span_labels self index ctx_l w))
  = data (snd (select_windows self index w)).
Proof. unfold get_span_labels. apply frame_after. intros a. apply frame_lift. Qed.

Lemma label_phase_data self index ctx_l mi w :
  data (snd (label_phase self index ctx_l mi w)) = data w \/
  data (snd (label_phase self index ctx_l mi w))
  = data (snd (select_windows self index w)).
Proof.
  unfold label_phase.
  destruct (load_labels self); [|by left].
  destruct (String.eqb (dset_name self) "tvsum").
  - left. revert w.
    match goal with |- forall w, data (snd (?f w)) = data w => change (frame f) end.
    frame_steps.
  - right. rewrite frame_after; [apply get_span_labels_data|].
    intros sl. frame_steps.
Qed.

(** On the labelled path outside tvsum the data after the label phase is
    the data after the window selection. *)
Lemma label_phase_data_spans self index ctx_l mi w :
  load_labels self = true ->
  String.eqb (dset_name self) "tvsum" = false ->
  data (snd (label_phase self index ctx_l mi w))
  = data (snd (select_windows self index w)).
Proof.
  intros Hl Ht. unfold label_phase. rewrite Hl, Ht.
  rewrite frame_after; [apply get_span_labels_data|].
  intros sl. frame_steps.
Qed.

(** [__getitem__] once the record is read and the features are built. *)
Lemma getitem_unfold self qf vf index w m fp :
  data w !! index = Some m ->
  feature_phase self qf vf = Ok fp ->
  getitem self qf vf index w
  = (ml <- label_phase self index (snd fp) (fst fp) ;;
     mi <-! moment_class_phase self (snd ml) (fst ml) ;;
     m <- read_meta index ;;
     ret (m, mi)) w.
Proof.
  intros Hm Hfp. unfold getitem. unfold bind at 1.
  unfold read_meta at 1, lookup_or_raise. rewrite Hm. cbv beta iota.
  unfold bind at 1, lift at 1. by rewrite Hfp.
Qed.

Lemma getitem_feature_error self qf vf index w m e :
  data w !! index = Some m ->
  feature_phase self qf vf = Raise e ->
  getitem self qf vf index w = (Raise e, w).
Proof.
  intros Hm Hfp. unfold getitem. unfold bind at 1.
  unfold read_meta at 1, lookup_or_raise. rewrite Hm. cbv beta iota.
  unfold bind at 1, lift at 1. by rewrite Hfp.
Qed.

Lemma getitem_no_record self qf vf index w :
  data w !! index = None ->
  getitem self qf vf index w = (Raise IndexError, w).
Proof.
  intros Hm. unfold getitem, bind, read_meta, lookup_or_raise. by rewrite Hm.
Qed.

Lemma getitem_data_label self qf vf index w m fp :
  data w !! index = Some m ->
  feature_phase self qf vf = Ok fp ->
  data (snd (getitem self qf vf index w))
  = data (snd (label_phase self index (snd fp) (fst fp) w)).
Proof.
  intros Hm Hfp. rewrite (getitem_unfold _ _ _ _ _ _ _ Hm Hfp).
  apply (frame_after (label_phase self index _ _)). intros ml. frame_steps.
Qed.

Lemma getitem_data self qf vf index w :
  data (snd (getitem self qf vf index w)) = data w \/
  data (snd (getitem self qf vf index w))
  = data (snd (select_windows self index w)).
Proof.
  destruct (data w !! index) as [m|] eqn:Hm.
  - destruct (feature_phase self qf vf) as [fp|e] eqn:Hfp.
    + rewrite (getitem_data_label _ _ _ _ _ _ _ Hm Hfp). apply label_phase_data.
    + left. by rewrite (getitem_feature_error _ _ _ _ _ _ _ Hm Hfp).
  - left. by rewrite getitem_no_record.
Qed.

(** The record that [__getitem__] returns is the record found at [index]
    once the labels are built. *)
Lemma getitem_returned_meta self qf vf index w m' mi :
  fst (getitem self qf vf index w) = Ok (m', mi) ->
  data (snd (getitem self qf vf index w)) !! index = Some m'.
Proof.
  destruct (data w !! index) as [m|] eqn:Hm;
    [|rewrite getitem_no_record by done; simpl; discriminate].
  destruct (feature_phase self qf vf) as [fp|e] eqn:Hfp;
    [|rewrite (getitem_feature_error _ _ _ _ _ _ _ Hm Hfp); simpl; discriminate].
  rewrite (getitem_unfold _ _ _ _ _ _ _ Hm Hfp).
  unfold bind, lift, read_meta, lookup_or_raise, ret.
  destruct (label_phase self index (snd fp) (fst fp) w) as [[ml|?] w1];
    simpl; [|done].
  destruct (moment_class_phase self (snd ml) (fst ml)) as [mi'|?]; simpl; [|done].
  destruct (data w1 !! index) as [m1|] eqn:Hm1; simpl; [|done].
  by intros [= <- <-].
Qed.

(** C5 (amended).  [__getitem__] changes nothing in [self.data] but the
    window list of the record it reads, which keeps its windows.  That
    list is left as it was when it has at most [max_windows] windows.
    When it has more and [get_span_labels] is reached (labels loaded,
    not tvsum, features built), the list stored in the record is the
    result of [random.shuffle] on it from the generator state of the
    call, the labels are computed from its first [max_windows] windows,
    and the record returned, like a later read of the same index, holds
    the shuffled list. *)
Theorem getitem_data_effect self qf vf index w m :
  data w !! index = Some m ->
  (exists ws,
     ws ≡ₚ relevant_windows m /\
     data (snd (getitem self qf vf index w))
     = <[index := set_windows ws m]> (data w)) /\
  (Z.of_nat (length (relevant_windows m)) <= max_windows self ->
   data (snd (getitem self qf vf index w)) = data w) /\
  (max_windows self < Z.of_nat (length (relevant_windows m)) ->
   load_labels self = true ->
   String.eqb (dset_name self) "tvsum" = false ->
   forall fp, feature_phase self qf vf = Ok fp ->
   exists ws w1,
     random_shuffle (relevant_windows m) w = (Ok ws, w1) /\
     ws ≡ₚ relevant_windows m /\
     get_span_labels self index (snd fp) w
     = (span_rows self (snd fp) (slice_to ws (max_windows self)),
        World (rng w1) (<[index := set_windows ws m]> (data w))) /\
     (forall sp lengths,
        fst (get_span_labels self index (snd fp) w) = Ok (sp, lengths) ->
        lengths = (fun wd : window => snd wd - fst wd)
                    <$> slice_to ws (max_windows self)) /\
     data (snd (getitem self qf vf index w))
     = <[index := set_windows ws m]> (data w) /\
     data (snd (getitem self qf vf index w)) !! index
     = Some (set_windows ws m) /\
     (forall m' mi, fst (getitem self qf vf index w) = Ok (m', mi) ->
                    m' = set_windows ws m)).
Proof.
  intros Hm. split; [|split].
  - destruct (select_windows_run self index w m Hm)
      as (ws & w' & Hp & Hd & Hrun & Hsmall).
    destruct (getitem_data self qf vf index w) as [Hg|Hg]; rewrite Hg.
    + exists (relevant_windows m). split; [done|].
      rewrite set_windows_id. by rewrite list_insert_id.
    + rewrite Hrun. simpl. by exists ws.
  - intros Hle. destruct (getitem_data self qf vf index w) as [Hg|Hg]; [done|].
    by rewrite Hg, (select_windows_small _ _ _ _ Hm Hle).
  - intros Hgt Hl Ht fp Hfp.
    destruct (select_windows_shuffled self index w m Hm Hgt)
      as (ws & w1 & Hsh & Hp & Hsel).
    assert (get_span_labels self index (snd fp) w
            = (span_rows self (snd fp) (slice_to ws (max_windows self)),
               World (rng w1) (<[index := set_windows ws m]> (data w)))) as Hspan.
    { unfold get_span_labels, bind. by rewrite Hsel. }
    assert (data (snd (getitem self qf vf index w))
            = <[index := set_windows ws m]> (data w)) as Hdata.
    { rewrite (getitem_data_label _ _ _ _ _ _ _ Hm Hfp).
      rewrite (label_phase_data_spans _ _ _ _ _ Hl Ht). by rewrite Hsel. }
    assert (data (snd (getitem self qf vf index w)) !! index
            = Some (set_windows ws m)) as Hread.
    { rewrite Hdata. apply list_lookup_insert_eq. by eapply lookup_lt_Some. }
    exists ws, w1. split; [done|]. split; [done|]. split; [done|].
    split; [|split; [done|split; [done|]]].
    + intros sp lengths. rewrite Hspan. simpl. unfold span_rows.
      destruct (String.eqb (span_loss_type self) "l1"); [by intros [= _ <-]|].
      destruct (String.eqb (span_loss_type self) "ce"); [|done].
      destruct (rmap _ _); simpl; [by intros [= _ <-]|done].
    + intros m' mi Hret. apply getitem_returned_meta in Hret. congruence.
Qed.

Lemma getitem_data_effect_witness :
  data (World [0; 0; 0]%nat [meta_two]) !! 0%nat = Some meta_two /\
  (exists ws,
     ws ≡ₚ relevant_windows meta_two /\
     data (snd (getitem ds_ce [] video_75 0 (World [0; 0; 0]%nat [meta_two])))
     = <[0%nat := set_windows ws meta_two]> (data (World [0; 0; 0]%nat [meta_two]))) /\
  (Z.of_nat (length (relevant_windows meta_two)) <= max_windows ds_ce ->
   data (snd (getitem ds_ce [] video_75 0 (World [0; 0; 0]%nat [meta_two])))
   = data (World [0; 0; 0]%nat [meta_two])) /\
  (max_windows ds_ce < Z.of_nat (length (relevant_windows meta_two)) ->
   load_labels ds_ce = true ->
   String.eqb (dset_name ds_ce) "tvsum" = false ->
   forall fp, feature_phase ds_ce [] video_75 = Ok fp ->
   exists ws w1,
     random_shuffle (relevant_windows meta_two) (World [0; 0; 0]%nat [meta_two])
     = (Ok ws, w1) /\
     ws ≡ₚ relevant_windows meta_two /\
     get_span_labels ds_ce 0 (snd fp) (World [0; 0; 0]%nat [meta_two])
     = (span_rows ds_ce (snd fp) (slice_to ws (max_windows ds_ce)),
        World (rng w1)
          (<[0%nat := set_windows ws meta_two]>
             (data (World [0; 0; 0]%nat [meta_two])))) /\
     (forall sp lengths,
        fst (get_span_labels ds_ce 0 (snd fp) (World [0; 0; 0]%nat [meta_two]))
        = Ok (sp, lengths) ->
        lengths = (fun wd : window => snd wd - fst wd)
                    <$> slice_to ws (max_windows ds_ce)) /\
     data (snd (getitem ds_ce [] video_75 0 (World [0; 0; 0]%nat [meta_two])))
     = <[0%nat := set_windows ws meta_two]> (data (World [0; 0; 0]%nat [meta_two])) /\
     data (snd (getitem ds_ce [] video_75 0 (World [0; 0; 0]%nat [meta_two])))
       !! 0%nat
     = Some (set_windows ws meta_two) /\
     (forall m' mi,
        fst (getitem ds_ce [] video_75 0 (World [0; 0; 0]%nat [meta_two]))
        = Ok (m', mi) ->
        m' = set_windows ws meta_two)).
Proof.
  split; [reflexivity|].
  apply (getitem_data_effect ds_ce [] video_75 0%nat
           (World [0; 0; 0]%nat [meta_two]) meta_two).
  reflexivity.
Defined.

(** C5 (as stated) fails: with two windows and [max_windows = 1], one call
    of [__getitem__] leaves the record's window list in another order, and
    a second call on the same index builds its span from another window. *)
Lemma getitem_reorders_windows :
  let w0 := World [0; 0; 0; 0; 0; 0]%nat [meta_two] in
  let r1 := getitem ds_ce [] video_75 0 w0 in
  let r2 := getitem ds_ce [] video_75 0 (snd r1) in
  relevant_windows <$> data w0 !! 0%nat = Some [(26, 36); (40, 60)] /\
  relevant_windows <$> data (snd r1) !! 0%nat = Some [(40, 60); (26, 36)] /\
  data (snd r1) <> data w0 /\
  (exists m1 mi1, fst r1 = Ok (m1, mi1) /\
     dict_get "span_labels" mi1 = Ok (VSpans (SpansIdx [(20, 29)]))) /\
  (exists m2 mi2, fst r2 = Ok (m2, mi2) /\
     dict_get "span_labels" mi2 = Ok (VSpans (SpansIdx [(13, 17)]))).
Proof.
  vm_compute. repeat split; try discriminate; eauto.
Qed.

(** ** Span labels *)

Lemma rmap_total {A B} (f : A -> res B) (g : A -> B) (l : list A) :
  (forall x, x ∈ l -> f x = Ok (g x)) -> rmap f l = Ok (g <$> l).
Proof.
  induction l as [|x l IH]; intros H; simpl; [done|].
  rewrite H by left. simpl. rewrite IH; [done|].
  intros y Hy. apply H. by right.
Qed.

(** Below [2^24] in magnitude an integer survives the float32 tensor. *)
Lemma round_to_bits_small (p x : Z) : Z.abs x < 2 ^ p -> round_to_bits p x = x.
Proof.
  intros Hx. unfold round_to_bits. by destruct (Z.ltb_spec (Z.abs x) (2 ^ p)); [|lia].
Qed.

Lemma float32_long_small (x : Z) : Z.abs x < 2 ^ 24 -> float32_long x = x.
Proof.
  intros Hx. unfold float32_long.
  rewrite (round_to_bits_small 53); [by apply round_to_bits_small|].
  assert (2 ^ 24 < 2 ^ 53) by (by apply Z.pow_lt_mono_r). lia.
Qed.

Lemma ce_row_ok self ctx_l (w : window) :
  clip_len self <> 0 ->
  ce_row self ctx_l w
  = Ok (float32_long (fst w ÷ clip_len self),
        float32_long (Z.min (snd w ÷ clip_len self) ctx_l - 1)).
Proof.
  intros Hcl. unfold ce_row, py_int_truediv.
  by destruct (Z.eqb_spec (clip_len self) 0).
Qed.

Lemma span_rows_ce self ctx_l (ws : list window) :
  span_loss_type self = "ce"%string -> clip_len self <> 0 ->
  span_rows self ctx_l ws
  = Ok (SpansIdx ((fun w : window =>
                     (float32_long (fst w ÷ clip_len self),
                      float32_long (Z.min (snd w ÷ clip_len self) ctx_l - 1)))
                    <$> ws),
        (fun w : window => snd w - fst w) <$> ws).
Proof.
  intros Hty Hcl. unfold span_rows. rewrite Hty. simpl.
  rewrite (rmap_total _ (fun w : window =>
    (float32_long (fst w ÷ clip_len self),
     float32_long (Z.min (snd w ÷ clip_len self) ctx_l - 1)))); [done|].
  intros x _. by apply ce_row_ok.
Qed.

Lemma span_rows_l1 self ctx_l (ws : list window) :
  span_loss_type self = "l1"%string ->
  span_rows self ctx_l ws
  = Ok (SpansCxw ((fun w : window =>
                     ((inject_Z (fst w) / inject_Z (ctx_l * clip_len self)
                       + inject_Z (snd w) / inject_Z (ctx_l * clip_len self)) / 2,
                      inject_Z (snd w) / inject_Z (ctx_l * clip_len self)
                      - inject_Z (fst w) / inject_Z (ctx_l * clip_len self))%Q)
                    <$> ws),
        (fun w : window => snd w - fst w) <$> ws).
Proof.
  intros Hty. unfold span_rows. rewrite Hty. simpl.
  unfold span_xx_to_cxw. by rewrite <- list_fmap_compose.
Qed.

Lemma span_rows_count self ctx_l (ws : list window) :
  span_loss_type self = "l1"%string \/
  (span_loss_type self = "ce"%string /\ clip_len self <> 0) ->
  exists sp,
    span_rows self ctx_l ws = Ok (sp, (fun w : window => snd w - fst w) <$> ws) /\
    spans_count sp = length ws.
Proof.
  intros [Hty|[Hty Hcl]].
  - rewrite span_rows_l1 by done. eexists. split; [done|].
    simpl. by rewrite length_fmap.
  - rewrite span_rows_ce by done. eexists. split; [done|].
    simpl. by rewrite length_fmap.
Qed.

Lemma slice_to_length {A} (l : list A) (k : Z) :
  0 <= k <= Z.of_nat (length l) -> length (slice_to l k) = Z.to_nat k.
Proof.
  intros Hk. unfold slice_to, slice_bound.
  destruct (Z.ltb_spec k 0); [lia|]. rewrite length_take. lia.
Qed.

Lemma slice_to_submseteq {A} (l : list A) (k : Z) : slice_to l k ⊆+ l.
Proof. unfold slice_to. apply sublist_submseteq, sublist_take. Qed.

(** The windows that [get_span_labels] keeps, and its result on them. *)
Lemma get_span_labels_run self index ctx_l w m :
  data w !! index = Some m ->
  exists kept w',
    get_span_labels self index ctx_l w = (span_rows self ctx_l kept, w') /\
    kept ⊆+ relevant_windows m /\
    (Z.of_nat (length (relevant_windows m)) <= max_windows self ->
     kept = relevant_windows m /\ w' = w) /\
    (max_windows self < Z.of_nat (length (relevant_windows m)) ->
     exists ws w1,
       random_shuffle (relevant_windows m) w = (Ok ws, w1) /\
       ws ≡ₚ relevant_windows m /\
       kept = slice_to ws (max_windows self) /\
       w' = World (rng w1) (<[index := set_windows ws m]> (data w))) /\
    (0 <= max_windows self < Z.of_nat (length (relevant_windows m)) ->
     length kept = Z.to_nat (max_windows self)).
Proof.
  intros Hm.
  destruct (Z.le_gt_cases (Z.of_nat (length (relevant_windows m))) (max_windows self))
    as [Hle|Hgt].
  - exists (relevant_windows m), w. split.
    { unfold get_span_labels, bind.
      by rewrite (select_windows_small _ _ _ _ Hm Hle). }
    split; [done|]. split; [done|]. split; lia.
  - destruct (select_windows_shuffled self index w m Hm Hgt)
      as (ws & w1 & Hsh & Hp & Hsel).
    eexists _, _. split.
    { unfold get_span_labels, bind. rewrite Hsel. reflexivity. }
    split; [rewrite <- Hp; apply slice_to_submseteq|].
    split; [lia|]. split.
    + intros _. by exists ws, w1.
    + intros Hk. apply slice_to_length. rewrite Hp. lia.
Qed.

(** C7.  In either regime, [get_span_labels] returns [max_windows] spans
    when the record has more windows than that and one span per window
    otherwise.  The kept windows are all the windows of the record, or
    the first [max_windows] of the shuffled list.  Span [i] is computed
    from kept window [i] (the row formula of the regime), and raw length
    [i] is [end - start] of kept window [i]: the two outputs are parallel,
    one entry per kept window, in the order of the kept windows. *)
Theorem span_labels_count self index ctx_l w m :
  data w !! index = Some m ->
  0 <= max_windows self ->
  span_loss_type self = "l1"%string \/
  (span_loss_type self = "ce"%string /\ clip_len self <> 0) ->
  exists sp lengths kept w',
    get_span_labels self index ctx_l w = (Ok (sp, lengths), w') /\
    span_rows self ctx_l kept = Ok (sp, lengths) /\
    kept ⊆+ relevant_windows m /\
    spans_count sp
    = (if Z.of_nat (length (relevant_windows m)) >? max_windows self
       then Z.to_nat (max_windows self)
       else length (relevant_windows m)) /\
    length lengths = spans_count sp /\
    lengths = (fun w : window => snd w - fst w) <$> kept /\
    (Z.of_nat (length (relevant_windows m)) <= max_windows self ->
     kept = relevant_windows m) /\
    (max_windows self < Z.of_nat (length (relevant_windows m)) ->
     exists ws w1,
       random_shuffle (relevant_windows m) w = (Ok ws, w1) /\
       ws ≡ₚ relevant_windows m /\
       kept = slice_to ws (max_windows self)) /\
    length kept = spans_count sp /\
    (span_loss_type self = "l1"%string -> ctx_l * clip_len self <> 0 ->
     sp = SpansCxw
            ((fun wd : window =>
                ((inject_Z (fst wd) / inject_Z (ctx_l * clip_len self)
                  + inject_Z (snd wd) / inject_Z (ctx_l * clip_len self)) / 2,
                 inject_Z (snd wd) / inject_Z (ctx_l * clip_len self)
                 - inject_Z (fst wd) / inject_Z (ctx_l * clip_len self))%Q)
               <$> kept)) /\
    (span_loss_type self = "ce"%string ->
     sp = SpansIdx
            ((fun wd : window =>
                (float32_long (fst wd ÷ clip_len self),
                 float32_long (Z.min (snd wd ÷ clip_len self) ctx_l - 1)))
               <$> kept)).
Proof.
  intros Hm Hmax Hty.
  destruct (get_span_labels_run self index ctx_l w m Hm)
    as (kept & w' & Hrun & Hsub & Hsmall & Hshuf & Hbig).
  destruct (span_rows_count self ctx_l kept Hty) as (sp & Hrows & Hcount).
  exists sp, ((fun w : window => snd w - fst w) <$> kept), kept, w'.
  split; [by rewrite Hrun, Hrows|]. split; [done|]. split; [done|].
  split.
  { rewrite Hcount.
    destruct (Z.gtb_spec (Z.of_nat (length (relevant_windows m))) (max_windows self)).
    - apply Hbig. lia.
    - by destruct (Hsmall ltac:(lia)) as [-> _]. }
  split; [by rewrite length_fmap|]. split; [done|].
  split; [by intros Hle; destruct (Hsmall Hle)|].
  split.
  { intros Hgt. destruct (Hshuf Hgt) as (ws & w1 & ? & ? & ? & _). by exists ws, w1. }
  split; [done|]. split.
  - intros Hl1 _. rewrite span_rows_l1 in Hrows by done. congruence.
  - intros Hce. destruct Hty as [Hty|[_ Hcl]]; [congruence|].
    rewrite span_rows_ce in Hrows by done. congruence.
Qed.

Lemma span_labels_count_witness :
  data (World [0%nat] [meta_two]) !! 0%nat = Some meta_two /\
  0 <= max_windows ds_ce /\
  (span_loss_type ds_ce = "ce"%string /\ clip_len ds_ce <> 0) /\
  exists sp lengths kept w',
    get_span_labels ds_ce 0 75 (World [0%nat] [meta_two])
    = (Ok (sp, lengths), w') /\
    span_rows ds_ce 75 kept = Ok (sp, lengths) /\
    kept ⊆+ relevant_windows meta_two /\
    spans_count sp
    = (if Z.of_nat (length (relevant_windows meta_two)) >? max_windows ds_ce
       then Z.to_nat (max_windows ds_ce)
       else length (relevant_windows meta_two)) /\
    length lengths = spans_count sp /\
    lengths = (fun w : window => snd w - fst w) <$> kept /\
    (Z.of_nat (length (relevant_windows meta_two)) <= max_windows ds_ce ->
     kept = relevant_windows meta_two) /\
    (max_windows ds_ce < Z.of_nat (length (relevant_windows meta_two)) ->
     exists ws w1,
       random_shuffle (relevant_windows meta_two) (World [0%nat] [meta_two])
       = (Ok ws, w1) /\
       ws ≡ₚ relevant_windows meta_two /\
       kept = slice_to ws (max_windows ds_ce)) /\
    length kept = spans_count sp /\
    (span_loss_type ds_ce = "l1"%string -> 75 * clip_len ds_ce <> 0 ->
     sp = SpansCxw
            ((fun wd : window =>
                ((inject_Z (fst wd) / inject_Z (75 * clip_len ds_ce)
                  + inject_Z (snd wd) / inject_Z (75 * clip_len ds_ce)) / 2,
                 inject_Z (snd wd) / inject_Z (75 * clip_len ds_ce)
                 - inject_Z (fst wd) / inject_Z (75 * clip_len ds_ce))%Q)
               <$> kept)) /\
    (span_loss_type ds_ce = "ce"%string ->
     sp = SpansIdx
            ((fun wd : window =>
                (float32_long (fst wd ÷ clip_len ds_ce),
                 float32_long (Z.min (snd wd ÷ clip_len ds_ce) 75 - 1)))
               <$> kept)).
Proof.
  split; [reflexivity|]. split; [discriminate|].
  split; [split; [reflexivity|discriminate]|].
  apply (span_labels_count ds_ce 0%nat 75 (World [0%nat] [meta_two]) meta_two).
  - reflexivity.
  - discriminate.
  - right. split; [reflexivity|discriminate].
Defined.

(** C4 (amended).  In the ["ce"] regime every kept window is mapped, row
    by row, to [[int(start / clip_len), min(int(end / clip_len), ctx_l) - 1]]
    as read back from the float32 tensor: exactly these two integers when
    both are below [2^24] in magnitude.  For [ctx_l <= 2^24] the bounds of
    a window are ordered and both lie in [[0, ctx_l)] when the window
    starts at a non-negative time in a clip below [ctx_l] and ends in a
    later clip, whatever the other windows of the record are. *)
Theorem ce_bounds self index ctx_l w m :
  data w !! index = Some m ->
  span_loss_type self = "ce"%string ->
  0 < clip_len self ->
  0 < ctx_l ->
  exists rows lengths kept w',
    get_span_labels self index ctx_l w = (Ok (SpansIdx rows, lengths), w') /\
    kept ⊆+ relevant_windows m /\
    (Z.of_nat (length (relevant_windows m)) <= max_windows self ->
     kept = relevant_windows m) /\
    rows = (fun wd : window =>
              (float32_long (fst wd ÷ clip_len self),
               float32_long (Z.min (snd wd ÷ clip_len self) ctx_l - 1))) <$> kept /\
    Forall2 (fun (wd : window) (r : Z * Z) =>
               (Z.abs (fst wd ÷ clip_len self) < 2 ^ 24 ->
                Z.abs (Z.min (snd wd ÷ clip_len self) ctx_l - 1) < 2 ^ 24 ->
                r = (fst wd ÷ clip_len self,
                     Z.min (snd wd ÷ clip_len self) ctx_l - 1)) /\
               (ctx_l <= 2 ^ 24 ->
                0 <= fst wd ->
                fst wd ÷ clip_len self < snd wd ÷ clip_len self ->
                fst wd ÷ clip_len self < ctx_l ->
                r = (fst wd ÷ clip_len self,
                     Z.min (snd wd ÷ clip_len self) ctx_l - 1) /\
                fst r <= snd r /\ 0 <= fst r < ctx_l /\ 0 <= snd r < ctx_l))
            kept rows.
Proof.
  intros Hm Hty Hcl Hctx.
  destruct (get_span_labels_run self index ctx_l w m Hm)
    as (kept & w' & Hrun & Hsub & Hsmall & _ & _).
  rewrite span_rows_ce in Hrun by (done || lia).
  eexists _, _, kept, w'. split; [exact Hrun|]. split; [done|].
  split; [by intros Hle; destruct (Hsmall Hle)|]. split; [done|].
  apply Forall2_fmap_r, Forall_Forall2_diag, Forall_forall. intros wd _.
  assert (forall a b, Z.abs a < 2 ^ 24 -> Z.abs b < 2 ^ 24 ->
                      (float32_long a, float32_long b) = (a, b)) as Hexact.
  { intros a b Ha Hb. by rewrite !float32_long_small. }
  split; [apply Hexact|].
  intros Hbig H0 Hlt Hin.
  assert (0 <= fst wd ÷ clip_len self) by (apply Z.quot_pos; lia).
  rewrite Hexact by lia. simpl. split; [done|]. lia.
Qed.

Lemma ce_bounds_witness :
  data (World [0%nat] [meta_two]) !! 0%nat = Some meta_two /\
  span_loss_type ds_ce = "ce"%string /\
  0 < clip_len ds_ce /\
  0 < 75 /\
  exists rows lengths kept w',
    get_span_labels ds_ce 0 75 (World [0%nat] [meta_two])
    = (Ok (SpansIdx rows, lengths), w') /\
    kept ⊆+ relevant_windows meta_two /\
    (Z.of_nat (length (relevant_windows meta_two)) <= max_windows ds_ce ->
     kept = relevant_windows meta_two) /\
    rows = (fun wd : window =>
              (float32_long (fst wd ÷ clip_len ds_ce),
               float32_long (Z.min (snd wd ÷ clip_len ds_ce) 75 - 1))) <$> kept /\
    Forall2 (fun (wd : window) (r : Z * Z) =>
               (Z.abs (fst wd ÷ clip_len ds_ce) < 2 ^ 24 ->
                Z.abs (Z.min (snd wd ÷ clip_len ds_ce) 75 - 1) < 2 ^ 24 ->
                r = (fst wd ÷ clip_len ds_ce,
                     Z.min (snd wd ÷ clip_len ds_ce) 75 - 1)) /\
               (75 <= 2 ^ 24 ->
                0 <= fst wd ->
                fst wd ÷ clip_len ds_ce < snd wd ÷ clip_len ds_ce ->
                fst wd ÷ clip_len ds_ce < 75 ->
                r = (fst wd ÷ clip_len ds_ce,
                     Z.min (snd wd ÷ clip_len ds_ce) 75 - 1) /\
                fst r <= snd r /\ 0 <= fst r < 75 /\ 0 <= snd r < 75))
            kept rows.
Proof.
  do 4 (split; [reflexivity|]).
  apply (ce_bounds ds_ce 0%nat 75 (World [0%nat] [meta_two]) meta_two);
    reflexivity.
Defined.

(** C4 (as stated) fails: the window [[0, 0]] satisfies
    [0 <= start <= end], yet with [clip_len = 2] and [ctx_l = 75] its
    bounds are [[0, -1]]. *)
Lemma ce_bounds_counterexample :
  0 <= fst (0, 0) <= snd (0, 0) /\ 0 < 75 /\
  fst (get_span_labels ds_ce 0 75 (World [] [meta_instant]))
  = Ok (SpansIdx [(0, -1)], [0]) /\
  ~ (fst (0, -1) <= snd (0, -1) /\
     0 <= fst (0, -1) < 75 /\ 0 <= snd (0, -1) < 75).
Proof.
  split; [done|]. split; [done|]. split; [reflexivity|]. simpl. lia.
Qed.

(** Beyond [2^24] clips the float32 tensor rounds: for
    [ctx_l = 2^24 + 4] the window [[0, 2 * ctx_l]] ends, with
    [clip_len = 2], at clip [ctx_l - 1 = 2^24 + 3], which is read back as
    [2^24 + 4 = ctx_l]. *)
Lemma ce_bounds_float32_rounds :
  ce_row ds_ce (2 ^ 24 + 4) (0, 2 * (2 ^ 24 + 4)) = Ok (0, 2 ^ 24 + 4).
Proof. reflexivity. Qed.

(** ** Moment-length classes *)

Lemma first_class_Some l c0 vals c :
  first_class l c0 vals = Some c ->
  exists i, c = (c0 + i)%nat /\ is_first_threshold vals l i.
Proof.
  revert c0. induction vals as [|v vals IH]; intros c0 H; simpl in H; [done|].
  destruct (Z.leb_spec l v) as [Hle|Hgt].
  - simplify_eq. exists 0%nat. split; [lia|]. exists v. split; [done|].
    split; [done|]. intros j v' Hj. lia.
  - destruct (IH _ H) as (i & -> & v1 & Hv1 & Hle & Hbefore).
    exists (S i). split; [lia|]. exists v1. split; [done|]. split; [done|].
    intros [|j] v' Hj Hv'; simplify_eq/=; [done|]. eapply Hbefore; [|done]. lia.
Qed.

Lemma first_class_None l c0 vals :
  first_class l c0 vals = None <-> Forall (fun v => v < l) vals.
Proof.
  revert c0. induction vals as [|v vals IH]; intros c0; simpl.
  - split; [constructor|done].
  - rewrite Forall_cons. destruct (Z.leb_spec l v) as [Hle|Hgt].
    + split; [done|]. intros [? _]. lia.
    + rewrite IH. tauto.
Qed.

Lemma moment_class_loop_length vals lengths :
  (length (moment_class_loop vals lengths) <= length lengths)%nat.
Proof.
  induction lengths as [|l ls IH]; simpl; [done|].
  destruct (first_class l 0 vals); simpl; lia.
Qed.

Lemma moment_class_loop_short vals lengths :
  length (moment_class_loop vals lengths) <> length lengths <->
  Exists (fun l => Forall (fun v => v < l) vals) lengths.
Proof.
  induction lengths as [|l ls IH]; simpl.
  - split; [done|]. by intros ?%Exists_nil.
  - rewrite Exists_cons. pose proof (moment_class_loop_length vals ls).
    destruct (first_class l 0 vals) as [c|] eqn:Hc; simpl.
    + assert (~ Forall (fun v => v < l) vals) as Hn.
      { rewrite <- (first_class_None l 0). congruence. }
      rewrite <- IH. split; [intros; right; lia|]. intros [?|?]; [done|lia].
    + apply first_class_None in Hc. split; [by left|]. lia.
Qed.

Lemma moment_class_loop_classes vals lengths :
  length (moment_class_loop vals lengths) = length lengths ->
  Forall2 (is_first_threshold vals) lengths (moment_class_loop vals lengths).
Proof.
  induction lengths as [|l ls IH]; simpl; [constructor|].
  pose proof (moment_class_loop_length vals ls).
  destruct (first_class l 0 vals) as [c|] eqn:Hc; simpl; [|lia].
  intros Hlen. constructor; [|apply IH; lia].
  destruct (first_class_Some _ _ _ _ Hc) as (i & -> & Hi). done.
Qed.

Lemma label_phase_keeps_index self index ctx_l mi w m :
  data w !! index = Some m ->
  is_Some (data (snd (label_phase self index ctx_l mi w)) !! index).
Proof.
  intros Hm. destruct (label_phase_data self index ctx_l mi w) as [->| ->].
  - by exists m.
  - destruct (select_windows_run self index w m Hm) as (ws & w' & _ & Hd & -> & _).
    simpl. rewrite Hd. eexists. apply list_lookup_insert_eq. by eapply lookup_lt_Some.
Qed.

(** C8.  With thresholds configured, once the features are built and the
    label phase has bound the raw lengths, the class of a span is the
    position of the first threshold that its raw length does not exceed;
    [__getitem__] fails its assertion exactly when the class list is
    shorter than the list of raw lengths, that is, exactly when some raw
    length exceeds every threshold. *)
Theorem moment_class_integrity self qf vf index w m fp mi lengths w1 vals :
  data w !! index = Some m ->
  feature_phase self qf vf = Ok fp ->
  label_phase self index (snd fp) (fst fp) w = (Ok (mi, Some lengths), w1) ->
  m_vals self = Some vals ->
  (fst (getitem self qf vf index w) = Raise AssertionError <->
   length (moment_class_loop vals lengths) <> length lengths) /\
  (length (moment_class_loop vals lengths) <> length lengths <->
   Exists (fun l => Forall (fun v => v < l) vals) lengths) /\
  (length (moment_class_loop vals lengths) = length lengths ->
   exists m' moment_class,
     fst (getitem self qf vf index w)
     = Ok (m', dict_set "moment_class" (VClasses moment_class) mi) /\
     Forall2 (is_first_threshold vals) lengths moment_class).
Proof.
  intros Hm Hfp Hlab Hvals.
  pose proof (label_phase_keeps_index self index (snd fp) (fst fp)
                w m Hm) as [m' Hm'].
  rewrite Hlab in Hm'. simpl in Hm'.
  assert (fst (getitem self qf vf index w)
          = if Nat.eqb (length (moment_class_loop vals lengths)) (length lengths)
            then Ok (m', dict_set "moment_class"
                           (VClasses (moment_class_loop vals lengths)) mi)
            else Raise AssertionError) as Hget.
  { rewrite (getitem_unfold _ _ _ _ _ _ _ Hm Hfp). unfold bind at 1. rewrite Hlab.
    unfold moment_class_phase. simpl. rewrite Hvals.
    unfold bind, lift, assert, read_meta, lookup_or_raise, rbind, ret.
    destruct (Nat.eqb _ _); [|done]. by rewrite Hm'. }
  rewrite Hget. split; [|split].
  - destruct (Nat.eqb_spec (length (moment_class_loop vals lengths)) (length lengths));
      split; done.
  - apply moment_class_loop_short.
  - intros Hlen. rewrite Hlen, Nat.eqb_refl. eexists _, _. split; [done|].
    by apply moment_class_loop_classes.
Qed.

Lemma moment_class_integrity_witness :
  data (World [0%nat] [meta_two]) !! 0%nat = Some meta_two /\
  m_vals ds_ce = Some [10; 30; 150] /\
  exists fp mi w1,
    feature_phase ds_ce [] video_75 = Ok fp /\
    label_phase ds_ce 0 (snd fp) (fst fp) (World [0%nat] [meta_two])
    = (Ok (mi, Some [20]), w1) /\
    (fst (getitem ds_ce [] video_75 0 (World [0%nat] [meta_two]))
     = Raise AssertionError <->
     length (moment_class_loop [10; 30; 150] [20]) <> length [20]) /\
    (length (moment_class_loop [10; 30; 150] [20]) <> length [20] <->
     Exists (fun l => Forall (fun v => v < l) [10; 30; 150]) [20]) /\
    (length (moment_class_loop [10; 30; 150] [20]) = length [20] ->
     exists m' moment_class,
       fst (getitem ds_ce [] video_75 0 (World [0%nat] [meta_two]))
       = Ok (m', dict_set "moment_class" (VClasses moment_class) mi) /\
       Forall2 (is_first_threshold [10; 30; 150]) [20] moment_class).
Proof.
  split; [reflexivity|]. split; [reflexivity|].
  eexists _, _, _. split; [vm_compute; reflexivity|].
  split; [vm_compute; reflexivity|].
  eapply (moment_class_integrity ds_ce [] video_75 0%nat
            (World [0%nat] [meta_two]) meta_two);
    [reflexivity | vm_compute; reflexivity | vm_compute; reflexivity | reflexivity].
Defined.

(** ** The split guard of [__init__] *)

Lemma Qeq_bool_pos (q : Q) : (0 < q)%Q -> Qeq_bool q 0 = false.
Proof.
  intros Hq. destruct (Qeq_bool q 0) eqn:E; [|done].
  apply Qeq_bool_iff in E. rewrite E in Hq. by apply Qlt_irrefl in Hq.
Qed.

(** C9.  On a data path that contains ["val"] or ["test"], a positive
    [txt_drop_ratio] makes [__init__] fail its assertion, so that no
    dataset object exists to build an example from; with
    [txt_drop_ratio == 0] the guard passes and [__init__] is the rest of
    the constructor, which returns the dataset for an admissible feature
    type outside tvsum. *)
Theorem split_guard_fails_fast (a : init_args) (datalist : list meta) :
  (contains "val" (a_data_path a) || contains "test" (a_data_path a) = true ->
   (0 < a_txt_drop_ratio a)%Q ->
   split_guard (a_data_path a) (a_txt_drop_ratio a) = Raise AssertionError /\
   init a datalist = Raise AssertionError /\
   forall ds d, init a datalist <> Ok (ds, d)) /\
  ((a_txt_drop_ratio a == 0)%Q ->
   split_guard (a_data_path a) (a_txt_drop_ratio a) = Ok tt /\
   init a datalist = init_rest a datalist /\
   (str_in (a_q_feat_type a) Q_FEAT_TYPES = true ->
    String.eqb (a_dset_name a) "tvsum" = false ->
    exists ds, init a datalist = Ok (ds, load_data (a_data_ratio a) datalist))).
Proof.
  split.
  - intros Hsplit Hpos.
    assert (split_guard (a_data_path a) (a_txt_drop_ratio a) = Raise AssertionError)
      as Hg.
    { unfold split_guard. rewrite Hsplit. by rewrite Qeq_bool_pos. }
    unfold init. rewrite Hg. cbn [rbind]. repeat split; congruence.
  - intros Hzero.
    assert (split_guard (a_data_path a) (a_txt_drop_ratio a) = Ok tt) as Hg.
    { unfold split_guard. apply Qeq_bool_iff in Hzero. rewrite Hzero. simpl.
      by destruct (_ || _). }
    unfold init. rewrite Hg. cbn [rbind]. split; [done|]. split; [done|].
    intros Hty Hname. unfold init_rest. rewrite Hty, Hname. cbn [assert rbind]. eauto.
Qed.

Lemma split_guard_fails_fast_witness :
  (contains "val" (a_data_path (args_val 0.5))
   || contains "test" (a_data_path (args_val 0.5)) = true /\
   (0 < a_txt_drop_ratio (args_val 0.5))%Q /\
   init (args_val 0.5) [meta_two] = Raise AssertionError) /\
  ((a_txt_drop_ratio (args_val 0) == 0)%Q /\
   exists ds, init (args_val 0) [meta_two] = Ok (ds, [meta_two])).
Proof.
  split.
  - split; [reflexivity|]. split; [reflexivity|].
    apply (proj1 (split_guard_fails_fast (args_val 0.5) [meta_two]));
      reflexivity.
  - split; [reflexivity|].
    apply (proj2 (split_guard_fails_fast (args_val 0) [meta_two]));
      reflexivity.
Defined.

(** ** Batching *)

Lemma dict_get_set_eq {V} (k : string) (v : V) (d : dict V) :
  dict_get k (dict_set k v d) = Ok v.
Proof.
  induction d as [|[k' v'] d IH]; simpl.
  - by rewrite String.eqb_refl.
  - destruct (String.eqb k k') eqn:E; simpl; rewrite ?String.eqb_refl, ?E; done.
Qed.

Lemma dict_get_set_ne {V} (k k' : string) (v : V) (d : dict V) :
  String.eqb k k' = false ->
  dict_get k (dict_set k' v d) = dict_get k d.
Proof.
  intros Hne. induction d as [|[k1 v1] d IH]; simpl.
  - by rewrite Hne.
  - destruct (String.eqb k' k1) eqn:E; simpl.
    + apply String.eqb_eq in E. subst k1. by rewrite Hne.
    + by rewrite IH.
Qed.

Lemma dict_get_key {V} (k : string) (v : V) (d : dict V) :
  dict_get k d = Ok v -> k ∈ (fst <$> d).
Proof.
  induction d as [|[k' v'] d IH]; simpl; [done|].
  destruct (String.eqb k k') eqn:E.
  - apply String.eqb_eq in E. subst. intros _. left.
  - intros H. right. by apply IH.
Qed.

Lemma collate_loop_get keys batch acc bd k :
  collate_loop keys batch acc = Ok bd ->
  (k ∈ keys -> exists b, collate_key k batch = Ok b /\ dict_get k bd = Ok b) /\
  (k ∉ keys -> dict_get k bd = dict_get k acc).
Proof.
  revert acc. induction keys as [|k' keys IH]; intros acc Hrun; simpl in Hrun.
  - simplify_eq. split; [by intros ?%elem_of_nil|done].
  - destruct (collate_key k' batch) as [b'|e] eqn:Hk'; simpl in Hrun; [|done].
    destruct (IH _ Hrun) as [IHin IHout]. split.
    + intros Hin. destruct (decide (k ∈ keys)) as [Hlater|Hnot]; [by apply IHin|].
      apply elem_of_cons in Hin as [->|?]; [|done].
      exists b'. split; [done|]. rewrite IHout by done. apply dict_get_set_eq.
    + intros [Hne Hnot]%not_elem_of_cons. rewrite IHout by done.
      apply dict_get_set_ne. by apply String.eqb_neq.
Qed.

Lemma rmap_Ok_inv {A B} (f : A -> res B) (l : list A) (r : list B) :
  rmap f l = Ok r -> Forall2 (fun x y => f x = Ok y) l r.
Proof.
  revert r. induction l as [|x l IH]; intros r H; simpl in H.
  - simplify_eq. constructor.
  - destruct (f x) as [y|?] eqn:Hx; simpl in H; [|done].
    destruct (rmap f l) as [ys|?] eqn:Hl; simpl in H; [|done].
    simplify_eq. constructor; [done|]. by apply IH.
Qed.

Lemma Forall2_chain {A B C} (P : A -> B -> Prop) (Q : B -> C -> Prop)
    (R : A -> C -> Prop) (l : list A) (m : list B) (n : list C) :
  (forall x y z, P x y -> Q y z -> R x z) ->
  Forall2 P l m -> Forall2 Q m n -> Forall2 R l n.
Proof.
  intros HPQ Hlm. revert n. induction Hlm; intros n Hmn; inversion Hmn; subst;
    constructor; eauto.
Qed.

Lemma max_length_ge {A} (seqs : list (list A)) (s : list A) :
  s ∈ seqs -> (length s <= foldr Nat.max 0 (length <$> seqs))%nat.
Proof.
  induction seqs as [|s' seqs IH]; intros Hin; [by apply elem_of_nil in Hin|].
  rewrite fmap_cons. cbn [foldr].
  apply elem_of_cons in Hin as [->|Hin]; [lia|].
  specialize (IH Hin). lia.
Qed.

(** What the padded component of [pad_sequences_1d] looks like. *)
Lemma pad_sequences_1d_rows {A} (zero : A) (seqs : list (list A)) :
  let n := foldr Nat.max 0%nat (length <$> seqs) in
  Forall2 (fun s row => row = s ++ replicate (n - length s) zero /\
                        length row = n)
    seqs (fst (pad_sequences_1d zero seqs)).
Proof.
  intros n. unfold pad_sequences_1d. simpl. apply Forall2_fmap_r, Forall2_same_length_lookup.
  split; [done|]. intros i s s' Hs Hs'. simplify_eq. split; [done|].
  rewrite length_app, length_replicate.
  assert (length s <= n)%nat; [|lia].
  apply max_length_ge. by eapply list_elem_of_lookup_2.
Qed.

(** C6 (amended).  For a batch whose first example carries the key,
    [start_end_collate] stores under ["saliency_all_labels"] the padded
    array alone: one row per example, the example's dense scores followed
    by zeros up to the longest length of the batch.  The mask that
    [pad_sequences_1d] returns is not stored. *)
Theorem collate_saliency_all batch metas bd e0 v0 :
  start_end_collate batch = Ok (metas, bd) ->
  batch !! 0%nat = Some e0 ->
  dict_get "saliency_all_labels" (snd e0) = Ok v0 ->
  exists seqs rows,
    Forall2 (fun e s => dict_get "saliency_all_labels" (snd e) = Ok (VScores s))
      batch seqs /\
    dict_get "saliency_all_labels" bd = Ok (BTensor rows) /\
    rows = fst (pad_sequences_1d 0%Q seqs) /\
    Forall2 (fun s row =>
               row = s ++ replicate (foldr Nat.max 0%nat (length <$> seqs)
                                     - length s) 0%Q /\
               length row = foldr Nat.max 0%nat (length <$> seqs))
      seqs rows.
Proof.
  intros Hrun He0 Hv0. unfold start_end_collate, lookup_or_raise in Hrun.
  rewrite He0 in Hrun. simpl in Hrun.
  destruct (collate_loop (fst <$> snd e0) batch []) as [bd'|?] eqn:Hloop;
    simpl in Hrun; [|done].
  simplify_eq.
  destruct (collate_loop_get _ _ _ _ "saliency_all_labels" Hloop) as [Hin _].
  destruct (Hin (dict_get_key _ _ _ Hv0)) as (b & Hkey & Hget).
  unfold collate_key in Hkey.
  destruct (rmap (fun e => dict_get "saliency_all_labels" (snd e)) batch)
    as [vals|?] eqn:Hvals; simpl in Hkey; [|done].
  destruct (rmap as_scores vals) as [seqs|?] eqn:Hseqs; simpl in Hkey; [|done].
  simplify_eq.
  exists seqs, (fst (pad_sequences_1d 0%Q seqs)).
  split.
  { apply rmap_Ok_inv in Hvals. apply rmap_Ok_inv in Hseqs.
    eapply Forall2_chain; [| exact Hvals | exact Hseqs].
    intros e v s Hv Hs. simpl in *. destruct v; simpl in Hs; simplify_eq. done. }
  split; [done|]. split; [done|]. apply pad_sequences_1d_rows.
Qed.

Lemma collate_saliency_all_witness :
  exists metas bd,
    start_end_collate [example_a; example_b] = Ok (metas, bd) /\
    [example_a; example_b] !! 0%nat = Some example_a /\
    dict_get "saliency_all_labels" (snd example_a) = Ok (VScores [3; 0]%Q) /\
    exists seqs rows,
      Forall2 (fun e s => dict_get "saliency_all_labels" (snd e) = Ok (VScores s))
        [example_a; example_b] seqs /\
      dict_get "saliency_all_labels" bd = Ok (BTensor rows) /\
      rows = fst (pad_sequences_1d 0%Q seqs) /\
      Forall2 (fun s row =>
                 row = s ++ replicate (foldr Nat.max 0%nat (length <$> seqs)
                                       - length s) 0%Q /\
                 length row = foldr Nat.max 0%nat (length <$> seqs))
        seqs rows.
Proof.
  eexists _, _. split; [vm_compute; reflexivity|].
  split; [reflexivity|]. split; [reflexivity|].
  eapply (collate_saliency_all [example_a; example_b]);
    [vm_compute; reflexivity | reflexivity | reflexivity].
Defined.

(** C6 (as stated) fails: on a batch of two examples the field is the
    padded tensor, not a pair; the mask that marks the padded position of
    the shorter example is computed and dropped. *)
Lemma collate_saliency_all_no_mask :
  exists metas bd,
    start_end_collate [example_a; example_b] = Ok (metas, bd) /\
    dict_get "saliency_all_labels" bd = Ok (BTensor [[3; 0; 0]; [0; 4; 5]]%Q) /\
    snd (pad_sequences_1d 0%Q [[3; 0]; [0; 4; 5]]%Q) = [[1; 1; 0]; [1; 1; 1]]%Q /\
    forall padded mask,
      dict_get "saliency_all_labels" bd <> Ok (BPadded padded mask).
Proof.
  eexists _, _. split; [vm_compute; reflexivity|].
  split; [reflexivity|]. split; [reflexivity|]. intros padded mask. discriminate.
Qed.

(** ** The dense score array of [get_saliency_labels_all] *)

Lemma np_argsort_perm (a : list Z) : np_argsort a ≡ₚ seq 0 (length a).
Proof.
  unfold np_argsort. rewrite merge_sort_Permutation.
  rewrite snd_zip; [done|]. by rewrite length_seq.
Qed.

Lemma np_argsort_lt (a : list Z) (idx : nat) :
  idx ∈ np_argsort a -> (idx < length a)%nat.
Proof. rewrite np_argsort_perm, elem_of_seq. lia. Qed.

Lemma np_sum_axis1_ok (rows : list (list Z)) :
  rows <> [] -> rectangular rows = true ->
  np_sum_axis1 rows = Ok ((fun row => int64 (sumZ row)) <$> rows).
Proof.
  intros Hne Hrect. unfold np_sum_axis1. destruct rows; [done|]. by rewrite Hrect.
Qed.

Lemma clamp_ids_ok (rel_clip_ids : list Z) (ctx_l : Z) (idxs : list nat) :
  (forall idx, idx ∈ idxs -> (idx < length rel_clip_ids)%nat) ->
  exists r, clamp_ids rel_clip_ids ctx_l idxs = Ok r /\
            Forall (fun i => exists id, id ∈ rel_clip_ids /\ i = Z.min id (ctx_l - 1)) r.
Proof.
  intros Hin. unfold clamp_ids.
  induction idxs as [|idx idxs IH]; simpl.
  - exists []. split; [done|constructor].
  - destruct (lookup_lt_is_Some_2 rel_clip_ids idx) as [id Hid].
    { apply Hin. left. }
    unfold lookup_or_raise at 1. rewrite Hid. simpl.
    destruct IH as (r & -> & Hr). { intros ? ?. apply Hin. by right. }
    simpl. eexists. split; [done|]. constructor; [|done].
    exists id. split; [|done]. by eapply list_elem_of_lookup_2.
Qed.

Lemma py_setitem_ok {A} (l : list A) (i : Z) (v : A) :
  0 <= i < Z.of_nat (length l) ->
  py_setitem l i v = Ok (<[Z.to_nat i := v]> l).
Proof.
  intros Hi. unfold py_setitem, py_index.
  destruct (Z.leb_spec 0 i); [|lia]. destruct (Z.ltb_spec i (Z.of_nat (length l))); [|lia].
  done.
Qed.

Lemma score_loop_in_range idxs ids agg ctx_l arr :
  (forall idx, idx ∈ idxs ->
     exists id s, ids !! idx = Some id /\ agg !! idx = Some s /\ 0 <= id < ctx_l) ->
  ctx_l <= Z.of_nat (length arr) ->
  exists arr', score_loop idxs ids agg ctx_l arr = Ok arr' /\
               length arr' = length arr.
Proof.
  revert arr. induction idxs as [|idx idxs IH]; intros arr Hin Hlen; simpl.
  - by exists arr.
  - destruct (Hin idx) as (id & s & Hid & Hs & Hrange); [left|].
    unfold lookup_or_raise. rewrite Hid, Hs. simpl.
    destruct (Z.leb_spec ctx_l id); [lia|]. simpl.
    rewrite py_setitem_ok by lia. simpl.
    destruct (IH (<[Z.to_nat id := inject_Z s]> arr)) as (arr' & -> & Hlen').
    { intros ? ?. apply Hin. by right. }
    { by rewrite length_insert. }
    exists arr'. split; [done|]. by rewrite Hlen', length_insert.
Qed.

Lemma score_loop_app idxs1 idxs2 ids agg ctx_l arr :
  score_loop (idxs1 ++ idxs2) ids agg ctx_l arr
  = (arr' <~ score_loop idxs1 ids agg ctx_l arr ;;
     score_loop idxs2 ids agg ctx_l arr').
Proof.
  revert arr. induction idxs1 as [|idx idxs1 IH]; intros arr; simpl; [done|].
  destruct (lookup_or_raise ids idx) as [id|?]; simpl; [|done].
  destruct (if ctx_l <=? id then resize ctx_l arr else Ok arr) as [arr1|?];
    simpl; [|done].
  destruct (lookup_or_raise agg idx) as [s|?]; simpl; [|done].
  destruct (py_setitem arr1 id (inject_Z s)) as [arr2|?]; simpl; [|done].
  apply IH.
Qed.

Lemma resize_ok ctx_l (arr : list Q) :
  0 <= ctx_l -> Z.of_nat (length arr) = ctx_l ->
  resize ctx_l arr = Ok (arr ++ [0%Q]).
Proof.
  intros Hctx Hlen. unfold resize, np_zeros.
  destruct (Z.ltb_spec (ctx_l + 1) 0); [lia|]. simpl.
  rewrite length_replicate.
  assert (slice_bound (Z.to_nat (ctx_l + 1)) ctx_l = length arr) as ->.
  { unfold slice_bound. destruct (Z.ltb_spec ctx_l 0); lia. }
  rewrite Nat.eqb_refl. rewrite drop_replicate.
  replace (Z.to_nat (ctx_l + 1) - length arr)%nat with 1%nat by lia. done.
Qed.

Lemma score_loop_resize idx ids agg ctx_l arr s :
  ids !! idx = Some ctx_l -> agg !! idx = Some s ->
  0 <= ctx_l -> Z.of_nat (length arr) = ctx_l ->
  exists arr', score_loop [idx] ids agg ctx_l arr = Ok arr' /\
               Z.of_nat (length arr') = ctx_l + 1.
Proof.
  intros Hid Hs Hctx Hlen. simpl. unfold lookup_or_raise. rewrite Hid, Hs. simpl.
  destruct (Z.leb_spec ctx_l ctx_l); [|lia].
  rewrite resize_ok by done. simpl.
  rewrite py_setitem_ok by (rewrite length_app; simpl; lia). simpl.
  eexists. split; [done|]. rewrite length_insert, length_app. simpl. lia.
Qed.

(** Once the dense array is built, the rest of the function returns it. *)
Lemma get_saliency_labels_all_returns ids scores ctx_l max_n easy w agg arr :
  np_sum_axis1 scores = Ok agg ->
  length agg = length ids ->
  0 <= ctx_l ->
  score_loop (seq 0 (length ids)) ids agg ctx_l
    (replicate (Z.to_nat ctx_l) 0%Q) = Ok arr ->
  0 <= max_n <= Z.of_nat (length ids) ->
  exists pos neg w',
    get_saliency_labels_all ids scores ctx_l max_n easy w
    = (Ok (pos, neg, arr), w').
Proof.
  intros Hagg Hlen Hctx Hloop Hn. unfold get_saliency_labels_all.
  rewrite Hagg. unfold np_zeros. destruct (Z.ltb_spec ctx_l 0); [lia|].
  cbv beta iota zeta delta [lift bind]. rewrite Hloop.
  destruct (clamp_ids_ok ids ctx_l (slice_from (np_argsort agg) (- max_n)))
    as (hp & -> & _).
  { intros idx Hidx. rewrite <- Hlen. apply np_argsort_lt.
    unfold slice_from in Hidx. by eapply subseteq_drop. }
  destruct (clamp_ids_ok ids ctx_l (slice_to (np_argsort agg) max_n))
    as (hn & -> & _).
  { intros idx Hidx. rewrite <- Hlen. apply np_argsort_lt.
    unfold slice_to in Hidx. by eapply subseteq_take. }
  destruct easy; [|eauto].
  destruct (Z.geb_spec (Z.of_nat (length (easy_neg_pool ids ctx_l))) max_n); [|eauto].
  destruct (random_sample_ok ids max_n w) as (ep & ? & w1 & -> & _); [lia|].
  destruct (random_sample_ok (easy_neg_pool ids ctx_l) max_n w1)
    as (en & ? & w2 & -> & _); [lia|].
  eauto.
Qed.

(** With fewer than [max_n] clips outside the annotated set, the builder
    draws nothing and repeats its hard indices. *)
Lemma get_saliency_labels_all_falls_back ids scores ctx_l max_n w agg arr :
  np_sum_axis1 scores = Ok agg ->
  length agg = length ids ->
  0 <= ctx_l ->
  score_loop (seq 0 (length ids)) ids agg ctx_l
    (replicate (Z.to_nat ctx_l) 0%Q) = Ok arr ->
  Z.of_nat (length (easy_neg_pool ids ctx_l)) < max_n ->
  exists hard_pos hard_neg,
    clamp_ids ids ctx_l (slice_from (np_argsort agg) (- max_n)) = Ok hard_pos /\
    clamp_ids ids ctx_l (slice_to (np_argsort agg) max_n) = Ok hard_neg /\
    get_saliency_labels_all ids scores ctx_l max_n true w
    = (Ok (hard_pos ++ hard_pos, hard_neg ++ hard_neg, arr), w).
Proof.
  intros Hagg Hlen Hctx Hloop Hpool. unfold get_saliency_labels_all.
  rewrite Hagg. unfold np_zeros. destruct (Z.ltb_spec ctx_l 0); [lia|].
  cbv beta iota zeta delta [lift bind]. rewrite Hloop.
  destruct (clamp_ids_ok ids ctx_l (slice_from (np_argsort agg) (- max_n)))
    as (hp & Hhp & _).
  { intros idx Hidx. rewrite <- Hlen. apply np_argsort_lt.
    unfold slice_from in Hidx. by eapply subseteq_drop. }
  destruct (clamp_ids_ok ids ctx_l (slice_to (np_argsort agg) max_n))
    as (hn & Hhn & _).
  { intros idx Hidx. rewrite <- Hlen. apply np_argsort_lt.
    unfold slice_to in Hidx. by eapply subseteq_take. }
  exists hp, hn. split; [done|]. split; [done|]. rewrite Hhp, Hhn.
  destruct (Z.geb_spec (Z.of_nat (length (easy_neg_pool ids ctx_l))) max_n); [lia|].
  done.
Qed.

(** The easy-negative branch of the summarization-curve builder, which
    [__getitem__] never enables, stops at the unbound name. *)
Lemma tvsum_easy_negative_unbound labels ctx_l max_n w agg :
  tvsum_agg labels = Ok agg ->
  max_n <= Z.max 0 ctx_l ->
  fst (get_saliency_labels_all_tvsum labels ctx_l max_n true w) = Raise NameError.
Proof.
  intros Hagg Hn. unfold get_saliency_labels_all_tvsum. rewrite Hagg.
  cbv beta iota zeta delta [lift bind].
  destruct (Z.geb_spec (Z.of_nat (length (py_range 0 ctx_l))) max_n) as [|Hlt]; [done|].
  rewrite py_range_length in Hlt. lia.
Qed.

Lemma in_range_lookups (ids agg : list Z) (ctx_l : Z) (part : list Z)
    (off : nat) (idx : nat) :
  length agg = length ids ->
  (forall i, (i < length part)%nat -> part !! i = ids !! (off + i)%nat) ->
  Forall (fun id => 0 <= id < ctx_l) part ->
  idx ∈ seq off (length part) ->
  exists id s, ids !! idx = Some id /\ agg !! idx = Some s /\ 0 <= id < ctx_l.
Proof.
  intros Hlen Hpart Hall Hidx. apply elem_of_seq in Hidx.
  destruct (lookup_lt_is_Some_2 part (idx - off)) as [id Hid]; [lia|].
  assert (ids !! idx = Some id) as Hid'.
  { rewrite <- Hid, Hpart by lia. f_equal. lia. }
  destruct (lookup_lt_is_Some_2 agg idx) as [s Hs].
  { rewrite Hlen. by eapply lookup_lt_Some. }
  exists id, s. split; [done|]. split; [done|].
  rewrite Forall_forall in Hall. apply Hall. by eapply list_elem_of_lookup_2.
Qed.

(** C2 (amended).  For [ctx_l > 0], one score row per non-negative clip
    id and [0 <= max_n <= len(rel_clip_ids)], [get_saliency_labels_all]
    returns a dense array of length [ctx_l] when every id is below
    [ctx_l], and of length [ctx_l + 1] when exactly one id equals
    [ctx_l] and the others are below it. *)
Theorem dense_score_length ids scores ctx_l max_n easy w :
  0 < ctx_l ->
  ids <> [] ->
  length scores = length ids ->
  rectangular scores = true ->
  0 <= max_n <= Z.of_nat (length ids) ->
  (Forall (fun id => 0 <= id < ctx_l) ids ->
   exists pos neg arr w',
     get_saliency_labels_all ids scores ctx_l max_n easy w
     = (Ok (pos, neg, arr), w') /\
     Z.of_nat (length arr) = ctx_l) /\
  (forall l1 l2,
     ids = l1 ++ ctx_l :: l2 ->
     Forall (fun id => 0 <= id < ctx_l) (l1 ++ l2) ->
     exists pos neg arr w',
       get_saliency_labels_all ids scores ctx_l max_n easy w
       = (Ok (pos, neg, arr), w') /\
       Z.of_nat (length arr) = ctx_l + 1).
Proof.
  intros Hctx Hne Hlen Hrect Hn.
  assert (np_sum_axis1 scores = Ok ((fun row => int64 (sumZ row)) <$> scores)) as Hagg.
  { apply np_sum_axis1_ok; [|done]. intros ->. by destruct ids. }
  assert (length ((fun row => int64 (sumZ row)) <$> scores) = length ids) as Hlen'
    by (by rewrite length_fmap).
  split.
  - intros Hall.
    destruct (score_loop_in_range (seq 0 (length ids)) ids
                ((fun row => int64 (sumZ row)) <$> scores) ctx_l
                (replicate (Z.to_nat ctx_l) 0%Q)) as (arr & Hloop & Harr).
    { intros idx Hidx. by apply (in_range_lookups ids _ ctx_l ids 0 idx). }
    { rewrite length_replicate. lia. }
    destruct (get_saliency_labels_all_returns ids scores ctx_l max_n easy w _ arr
                Hagg Hlen' ltac:(lia) Hloop Hn) as (pos & neg & w' & Hrun).
    exists pos, neg, arr, w'. split; [done|].
    rewrite Harr, length_replicate. lia.
  - intros l1 l2 -> Hall. apply Forall_app in Hall as [Hall1 Hall2].
    set (ids := l1 ++ ctx_l :: l2) in *.
    assert (seq 0 (length ids)
            = seq 0 (length l1) ++ [length l1] ++ seq (S (length l1)) (length l2))
      as Hseq.
    { unfold ids. rewrite length_app. simpl.
      rewrite seq_app. simpl. done. }
    assert (forall i, (i < length l1)%nat -> l1 !! i = ids !! (0 + i)%nat) as Hl1.
    { intros i Hi. unfold ids. by rewrite lookup_app_l. }
    assert (forall i, (i < length l2)%nat -> l2 !! i = ids !! (S (length l1) + i)%nat)
      as Hl2.
    { intros i Hi. unfold ids. rewrite lookup_app_r by lia.
      replace (S (length l1) + i - length l1)%nat with (S i) by lia. done. }
    assert (ids !! length l1 = Some ctx_l) as Hmid.
    { unfold ids. by rewrite list_lookup_middle. }
    destruct (lookup_lt_is_Some_2 ((fun row => int64 (sumZ row)) <$> scores)
                (length l1)) as [s Hs].
    { rewrite Hlen'. by eapply lookup_lt_Some. }
    destruct (score_loop_in_range (seq 0 (length l1)) ids
                ((fun row => int64 (sumZ row)) <$> scores) ctx_l
                (replicate (Z.to_nat ctx_l) 0%Q)) as (arr1 & Hloop1 & Harr1).
    { intros idx Hidx. by apply (in_range_lookups ids _ ctx_l l1 0 idx). }
    { rewrite length_replicate. lia. }
    rewrite length_replicate in Harr1.
    destruct (score_loop_resize (length l1) ids
                ((fun row => int64 (sumZ row)) <$> scores) ctx_l arr1 s)
      as (arr2 & Hloop2 & Harr2); [done|done|lia|lia|].
    destruct (score_loop_in_range (seq (S (length l1)) (length l2)) ids
                ((fun row => int64 (sumZ row)) <$> scores) ctx_l arr2)
      as (arr3 & Hloop3 & Harr3).
    { intros idx Hidx. by apply (in_range_lookups ids _ ctx_l l2 (S (length l1)) idx). }
    { lia. }
    assert (score_loop (seq 0 (length ids)) ids
                ((fun row => int64 (sumZ row)) <$> scores) ctx_l
              (replicate (Z.to_nat ctx_l) 0%Q) = Ok arr3) as Hloop.
    { rewrite Hseq, score_loop_app, Hloop1. cbn [rbind].
      rewrite score_loop_app, Hloop2. cbn [rbind]. done. }
    destruct (get_saliency_labels_all_returns ids scores ctx_l max_n easy w _ arr3
                Hagg Hlen' ltac:(lia) Hloop Hn) as (pos & neg & w' & Hrun).
    exists pos, neg, arr3, w'. split; [done|]. lia.
Qed.

Lemma dense_score_length_witness :
  (0 < 75 /\
   Forall (fun id => 0 <= id < 75) [13; 14; 15; 16; 17] /\
   exists pos neg arr w',
     get_saliency_labels_all [13; 14; 15; 16; 17]
       [[4; 2; 3]; [4; 3; 3]; [4; 4; 3]; [4; 4; 4]; [3; 2; 2]] 75 1 true
       (World [] [])
     = (Ok (pos, neg, arr), w') /\
     Z.of_nat (length arr) = 75) /\
  (0 < 2 /\
   [0; 2] = [0] ++ 2 :: [] /\
   exists pos neg arr w',
     get_saliency_labels_all [0; 2] [[1; 1; 1]; [2; 2; 2]] 2 1 true (World [] [])
     = (Ok (pos, neg, arr), w') /\
     Z.of_nat (length arr) = 2 + 1).
Proof.
  split.
  - split; [reflexivity|].
    split; [repeat constructor; vm_compute; congruence|].
    apply (proj1 (dense_score_length [13; 14; 15; 16; 17]
                    [[4; 2; 3]; [4; 3; 3]; [4; 4; 3]; [4; 4; 4]; [3; 2; 2]]
                    75 1 true (World [] [])
                    ltac:(reflexivity) ltac:(discriminate) ltac:(reflexivity)
                    ltac:(reflexivity) ltac:(simpl; lia))).
    repeat constructor; vm_compute; congruence.
  - split; [reflexivity|]. split; [reflexivity|].
    apply (proj2 (dense_score_length [0; 2] [[1; 1; 1]; [2; 2; 2]]
                    2 1 true (World [] [])
                    ltac:(reflexivity) ltac:(discriminate) ltac:(reflexivity)
                    ltac:(reflexivity) ltac:(simpl; lia)) [0] []).
    + reflexivity.
    + repeat constructor; vm_compute; congruence.
Defined.

(** C2 (as stated) fails: with [ctx_l = 2] and the single annotated clip
    id [2], the dense array has three entries. *)
Lemma dense_score_length_counterexample :
  0 < 2 /\
  fst (get_saliency_labels_all [2] [[1; 1; 1]] 2 1 true (World [] []))
  = Ok ([1; 2], [1; 0], [0; 0; 3]%Q) /\
  Z.of_nat (length [0; 0; 3]%Q) <> 2.
Proof. split; [done|]. split; [reflexivity|]. discriminate. Qed.

(** ** Range of the sampled clip indices *)

Lemma random_sample_elem {A} (population : list A) (k : Z) w r w' :
  random_sample population k w = (Ok r, w') ->
  forall x, x ∈ r -> x ∈ population.
Proof.
  intros Hrun x Hx.
  destruct (decide (0 <= k <= Z.of_nat (length population))) as [H|H].
  - destruct (random_sample_ok population k w H) as (r' & rest & w1 & Hr & _ & Hp & _).
    rewrite Hr in Hrun. simplify_eq. rewrite Hp. apply elem_of_app. by left.
  - rewrite random_sample_raise in Hrun by lia. done.
Qed.

(** The subset-query builder only returns indices of [[0, ctx_l)]. *)
Lemma sub_as_query_in_range self gt_window ctx_l max_n w pos neg arr w' :
  0 <= fst gt_window -> 0 < clip_len self -> 0 < ctx_l ->
  get_saliency_labels_sub_as_query self gt_window ctx_l max_n w
  = (Ok (pos, neg, arr), w') ->
  Forall (fun i => 0 <= i < ctx_l) (pos ++ neg).
Proof.
  intros Hst Hcl Hctx. unfold get_saliency_labels_sub_as_query, py_int_truediv.
  destruct (Z.eqb_spec (clip_len self) 0) as [|_]; [lia|].
  cbv beta iota zeta delta [lift bind].
  assert (0 <= fst gt_window ÷ clip_len self) as Hq by (apply Z.quot_pos; lia).
  set (q_st := fst gt_window ÷ clip_len self) in *.
  set (gt_ed := Z.max 0 (Z.min (snd gt_window ÷ clip_len self) ctx_l - 1)).
  set (gt_st := if q_st >? gt_ed then gt_ed else q_st).
  assert (0 <= gt_st <= gt_ed /\ gt_ed < ctx_l) as Hb.
  { unfold gt_st. destruct (Z.gtb_spec q_st gt_ed); unfold gt_ed in *; lia. }
  intros Hrun.
  assert (exists w1, (forall x, x ∈ pos -> gt_st <= x <= gt_ed) /\
            random_sample (py_range 0 gt_st ++ py_range (gt_ed + 1) ctx_l) max_n w1
            = (Ok neg, w')) as (w1 & Hpos & Hneg).
  { destruct (negb (gt_st =? gt_ed)).
    - destruct (random_sample (py_range gt_st (gt_ed + 1)) max_n w)
        as [[r|?] w1] eqn:Hs; [|done].
      cbv beta iota in Hrun.
      destruct (random_sample (py_range 0 gt_st ++ py_range (gt_ed + 1) ctx_l) max_n w1)
        as [[r'|?] w2] eqn:Hs'; [|done].
      cbv beta iota in Hrun. destruct (np_zeros ctx_l); [|done].
      unfold ret in Hrun. simplify_eq. exists w1. split; [|done].
      intros x Hx. apply (random_sample_elem _ _ _ _ _ Hs), py_range_elem in Hx. lia.
    - unfold ret at 1 in Hrun.
      destruct (random_sample (py_range 0 gt_st ++ py_range (gt_ed + 1) ctx_l) max_n w)
        as [[r'|?] w2] eqn:Hs'; [|done].
      cbv beta iota in Hrun. destruct (np_zeros ctx_l); [|done].
      unfold ret in Hrun. simplify_eq. exists w. split; [|done].
      intros x Hx. repeat (apply elem_of_cons in Hx as [->|Hx]; [lia|]).
      by apply elem_of_nil in Hx. }
  apply Forall_app. split; apply Forall_forall; intros x Hx.
  - specialize (Hpos x Hx). lia.
  - apply (random_sample_elem _ _ _ _ _ Hneg) in Hx.
    apply elem_of_app in Hx as [Hx|Hx]; apply py_range_elem in Hx; lia.
Qed.

(** So does the summarization-curve builder. *)
Lemma tvsum_in_range labels ctx_l max_n easy w pos neg arr w' :
  0 < ctx_l ->
  get_saliency_labels_all_tvsum labels ctx_l max_n easy w
  = (Ok (pos, neg, arr), w') ->
  Forall (fun i => 0 <= i < ctx_l) (pos ++ neg).
Proof.
  intros Hctx. unfold get_saliency_labels_all_tvsum.
  destruct (tvsum_agg labels) as [agg|?]; [|done].
  cbv beta iota zeta delta [lift bind].
  assert (forall l : list nat,
            Forall (fun i => 0 <= i < ctx_l)
              ((fun idx : nat => Z.min (Z.of_nat idx) (ctx_l - 1)) <$> l)) as Hclamp.
  { intros l. apply Forall_fmap, Forall_forall. intros idx _. simpl. lia. }
  destruct easy.
  - destruct (Z.of_nat (length (py_range 0 ctx_l)) >=? max_n); [done|].
    unfold ret. intros ?. simplify_eq. simpl. rewrite !Forall_app. auto.
  - unfold ret. intros ?. simplify_eq. simpl. rewrite !Forall_app.
    repeat split; auto.
Qed.

Lemma clamp_ids_range ids ctx_l idxs r :
  0 < ctx_l ->
  Forall (fun id => 0 <= id) ids ->
  clamp_ids ids ctx_l idxs = Ok r ->
  Forall (fun i => 0 <= i < ctx_l) r.
Proof.
  intros Hctx Hids Hr. apply rmap_Ok_inv in Hr.
  rewrite Forall_forall in Hids.
  induction Hr as [|idx y idxs r Hy _ IH]; constructor; [|done].
  unfold lookup_or_raise in Hy. destruct (ids !! idx) as [id|] eqn:Hid; [|done].
  simpl in Hy. simplify_eq.
  assert (0 <= id) by (apply Hids; by eapply list_elem_of_lookup_2). lia.
Qed.

(** The full-annotation builder does when every annotated id lies in
    [[0, ctx_l)]; its hard indices and easy negatives do for any
    non-negative ids. *)
Lemma all_in_range ids scores ctx_l max_n easy w pos neg arr w' :
  0 < ctx_l ->
  Forall (fun id => 0 <= id < ctx_l) ids ->
  get_saliency_labels_all ids scores ctx_l max_n easy w
  = (Ok (pos, neg, arr), w') ->
  Forall (fun i => 0 <= i < ctx_l) (pos ++ neg).
Proof.
  intros Hctx Hids. unfold get_saliency_labels_all.
  destruct (np_sum_axis1 scores) as [agg|?]; [|done].
  cbv beta iota zeta delta [lift bind].
  destruct (np_zeros ctx_l) as [z|?]; [|done].
  destruct (score_loop _ _ _ _ _) as [sa|?]; [|done].
  destruct (clamp_ids ids ctx_l (slice_from _ _)) as [hp|?] eqn:Hhp; [|done].
  destruct (clamp_ids ids ctx_l (slice_to _ _)) as [hn|?] eqn:Hhn; [|done].
  assert (Forall (fun id => 0 <= id) ids) as Hnn.
  { eapply Forall_impl; [exact Hids|]. simpl. intros. lia. }
  apply clamp_ids_range in Hhp; [|done..].
  apply clamp_ids_range in Hhn; [|done..].
  destruct easy.
  - destruct (Z.of_nat (length (easy_neg_pool ids ctx_l)) >=? max_n).
    + destruct (random_sample ids max_n w) as [[ep|?] w1] eqn:Hep; [|done].
      cbv beta iota.
      destruct (random_sample (easy_neg_pool ids ctx_l) max_n w1)
        as [[en|?] w2] eqn:Hen; [|done].
      unfold ret. intros ?. simplify_eq. simpl. rewrite !Forall_app.
      repeat split; try done; apply Forall_forall; intros x Hx.
      * apply (random_sample_elem _ _ _ _ _ Hep) in Hx.
        rewrite Forall_forall in Hids. by apply Hids.
      * apply (random_sample_elem _ _ _ _ _ Hen) in Hx.
        unfold easy_neg_pool in Hx. apply list_elem_of_filter in Hx as [_ Hx].
        apply py_range_elem in Hx. lia.
    + unfold ret. intros ?. simplify_eq. simpl. rewrite !Forall_app. done.
  - unfold ret. intros ?. simplify_eq. simpl. rewrite !Forall_app.
    repeat split; auto.
Qed.

(** C1 (the code departs from it).  The easy positives of the
    full-annotation builder are sampled from [rel_clip_ids] as they are:
    with [ctx_l = 2] and the single annotated clip id [2], the positive
    list is [[1, 2]] whatever the generator draws, and [2] is not an
    index of [[0, 2)]. *)
Theorem easy_positive_escapes_ctx_l (w : world) :
  exists neg w',
    get_saliency_labels_all [2] [[1; 1; 1]] 2 1 true w
    = (Ok ([1; 2], neg, [0; 0; 3]%Q), w') /\
    ~ Forall (fun i => 0 <= i < 2) [1; 2].
Proof.
  unfold get_saliency_labels_all.
  change (np_sum_axis1 [[1; 1; 1]]) with (Ok [3] : res (list Z)).
  cbv beta iota delta [lift bind].
  change (np_zeros 2) with (Ok [0; 0]%Q : res (list Q)). cbv iota.
  change (score_loop (seq 0 (length [2])) [2] [3] 2 [0%Q; 0%Q])
    with (Ok [0; 0; 3]%Q : res (list Q)). cbv iota.
  change (clamp_ids [2] 2 (slice_from (np_argsort [3]) (- (1))))
    with (Ok [1] : res (list Z)). cbv iota.
  change (clamp_ids [2] 2 (slice_to (np_argsort [3]) 1))
    with (Ok [1] : res (list Z)). cbv iota.
  change (Z.of_nat (length (easy_neg_pool [2] 2)) >=? 1) with true. cbv iota.
  destruct (random_sample_ok [2] 1 w) as (r & rest & w1 & -> & Hlen & Hp & _);
    [simpl; lia|].
  destruct (random_sample_ok (easy_neg_pool [2] 2) 1 w1)
    as (neg & rest' & w2 & -> & _ & _ & _); [done|].
  destruct r as [|a [|b r]]; simpl in Hlen; try lia.
  assert (a = 2) as ->.
  { assert (a ∈ [2]) as Ha by (rewrite Hp; left). by apply list_elem_of_singleton in Ha. }
  exists ([1] ++ neg), w2. split; [reflexivity|].
  intros H. apply Forall_cons in H as [_ H]. apply Forall_cons in H as [H _]. lia.
Qed.

(** * Further properties *)

(** ** Sums of [int64] arrays *)

Lemma int64_id (z : Z) : in_int64 z -> int64 z = z.
Proof.
  unfold in_int64, int64. intros Hz.
  change (2 ^ 63) with 9223372036854775808 in *.
  change (2 ^ 64) with 18446744073709551616.
  rewrite Z.mod_small by lia. lia.
Qed.

Lemma int64_range (z : Z) : in_int64 (int64 z).
Proof.
  unfold in_int64, int64.
  change (2 ^ 63) with 9223372036854775808.
  change (2 ^ 64) with 18446744073709551616.
  pose proof (Z.mod_pos_bound (z + 9223372036854775808) 18446744073709551616
                ltac:(done)). lia.
Qed.

Lemma wrap_add (h n a b : Z) :
  (a + b + h) mod n
  = ((a + h) mod n - h + ((b + h) mod n - h) + h) mod n.
Proof.
  symmetry.
  replace ((a + h) mod n - h + ((b + h) mod n - h) + h)
    with ((a + h) mod n + ((b + h) mod n - h)) by ring.
  rewrite Zplus_mod_idemp_l.
  replace (a + h + ((b + h) mod n - h)) with ((b + h) mod n + a) by ring.
  rewrite Zplus_mod_idemp_l. f_equal. ring.
Qed.

Lemma int64_add (a b : Z) : int64 (a + b) = int64 (int64 a + int64 b).
Proof. unfold int64. f_equal. apply wrap_add. Qed.

Lemma int64_idemp (z : Z) : int64 (int64 z) = int64 z.
Proof. apply int64_id, int64_range. Qed.

(** Wrapping every summand before the sum changes nothing once the sum
    itself is wrapped. *)
Lemma int64_sum_wrap (f : Z -> Z) (l : list Z) :
  int64 (sumZ ((fun x => int64 (f x)) <$> l)) = int64 (sumZ (f <$> l)).
Proof.
  induction l as [|x l IH]; [done|].
  change (int64 (int64 (f x) + sumZ ((fun x => int64 (f x)) <$> l))
          = int64 (f x + sumZ (f <$> l))).
  rewrite int64_add, IH, int64_idemp, <- int64_add. done.
Qed.

Lemma int64_small (z : Z) : Z.abs z <= 2 ^ 53 -> int64 z = z.
Proof.
  intros Hz. apply int64_id. unfold in_int64.
  change (2 ^ 53) with 9007199254740992 in Hz.
  change (2 ^ 63) with 9223372036854775808. lia.
Qed.

(** ** The order computed by [np_argsort] *)

Lemma zip_seq_lookup (a : list Z) (x : Z) (i : nat) :
  (x, i) ∈ zip a (seq 0 (length a)) <-> a !! i = Some x.
Proof.
  rewrite list_elem_of_lookup. split.
  - intros [k Hk]. apply lookup_zip_with_Some in Hk as (x' & i' & ? & Hx & Hi).
    simplify_eq. apply lookup_seq in Hi as [-> _]. done.
  - intros Hx. exists i. apply lookup_zip_with_Some. exists x, i.
    split; [done|]. split; [done|]. apply lookup_seq. split; [done|].
    by eapply lookup_lt_Some.
Qed.

Lemma np_argsort_length (a : list Z) : length (np_argsort a) = length a.
Proof. by rewrite np_argsort_perm, length_seq. Qed.

(** The last position of the order holds a maximum, the first a minimum. *)
Lemma np_argsort_last (a : list Z) (i : nat) :
  last (np_argsort a) = Some i ->
  exists x, a !! i = Some x /\ forall y, y ∈ a -> y <= x.
Proof.
  unfold np_argsort. intros Hlast.
  rewrite fmap_last in Hlast.
  destruct (last (merge_sort le_fst (zip a (seq 0 (length a))))) as [[x i']|] eqn:Hl;
    simplify_eq/=.
  apply last_Some in Hl as [l Hl].
  assert ((x, i) ∈ zip a (seq 0 (length a))) as Hin.
  { rewrite <- (merge_sort_Permutation le_fst), Hl. apply elem_of_app. right. left. }
  exists x. split; [by apply zip_seq_lookup|].
  intros y Hy. apply list_elem_of_lookup in Hy as [j Hj].
  apply zip_seq_lookup in Hj.
  rewrite <- (merge_sort_Permutation le_fst), Hl in Hj.
  pose proof (StronglySorted_merge_sort le_fst (zip a (seq 0 (length a)))) as Hs.
  rewrite Hl in Hs.
  apply elem_of_app in Hj as [Hj|Hj].
  - apply (StronglySorted_app_1_elem_of le_fst l [(x, i)] (y, j) (x, i) Hs Hj). left.
  - apply list_elem_of_singleton in Hj. simplify_eq. done.
Qed.

Lemma np_argsort_head (a : list Z) (i : nat) :
  head (np_argsort a) = Some i ->
  exists x, a !! i = Some x /\ forall y, y ∈ a -> x <= y.
Proof.
  unfold np_argsort. intros Hhead.
  destruct (merge_sort le_fst (zip a (seq 0 (length a)))) as [|[x i'] l] eqn:Hl;
    simplify_eq/=.
  assert ((x, i) ∈ zip a (seq 0 (length a))) as Hin.
  { rewrite <- (merge_sort_Permutation le_fst), Hl. left. }
  exists x. split; [by apply zip_seq_lookup|].
  intros y Hy. apply list_elem_of_lookup in Hy as [j Hj].
  apply zip_seq_lookup in Hj.
  rewrite <- (merge_sort_Permutation le_fst), Hl in Hj.
  pose proof (StronglySorted_merge_sort le_fst (zip a (seq 0 (length a)))) as Hs.
  rewrite Hl in Hs. apply StronglySorted_cons in Hs as [Hall _].
  apply elem_of_cons in Hj as [?|Hj]; [by simplify_eq|].
  rewrite Forall_forall in Hall. apply (Hall _ Hj).
Qed.

(** ** What [random_sample] returns *)

Lemma random_sample_inv {A} (population : list A) (k : Z) w r w' :
  random_sample population k w = (Ok r, w') ->
  Z.of_nat (length r) = k /\ r ⊆+ population /\ data w' = data w.
Proof.
  intros Hrun.
  destruct (decide (0 <= k <= Z.of_nat (length population))) as [H|H].
  - destruct (random_sample_ok population k w H) as (r' & rest & w1 & Hr & Hlen & Hp & Hd).
    rewrite Hr in Hrun. simplify_eq. split; [done|]. split; [|done].
    rewrite Hp. apply submseteq_inserts_r. done.
  - rewrite random_sample_raise in Hrun by lia. done.
Qed.

Lemma random_sample_NoDup {A} (population : list A) (k : Z) w r w' :
  NoDup population ->
  random_sample population k w = (Ok r, w') -> NoDup r.
Proof.
  intros Hnd Hrun. apply random_sample_inv in Hrun as (_ & Hsub & _).
  apply submseteq_Permutation in Hsub as [rest Hp]. rewrite Hp in Hnd.
  by apply NoDup_app in Hnd as [? _].
Qed.

Lemma rmap_length {A B} (f : A -> res B) (l : list A) (r : list B) :
  rmap f l = Ok r -> length r = length l.
Proof. intros H. apply rmap_Ok_inv in H. symmetry. by eapply Forall2_length. Qed.

Lemma np_sum_axis1_inv (rows : list (list Z)) (agg : list Z) :
  np_sum_axis1 rows = Ok agg ->
  agg = ((fun row => int64 (sumZ row)) <$> rows) /\ rows <> [].
Proof.
  unfold np_sum_axis1. destruct rows as [|r rows]; [done|].
  destruct (rectangular (r :: rows)); [|done]. intros ?. by simplify_eq.
Qed.

Lemma easy_neg_pool_NoDup ids ctx_l : NoDup (easy_neg_pool ids ctx_l).
Proof. unfold easy_neg_pool. apply NoDup_filter, py_range_NoDup. Qed.

Lemma easy_neg_pool_elem ids ctx_l x :
  x ∈ easy_neg_pool ids ctx_l <-> (x ∉ ids) /\ 0 <= x < ctx_l.
Proof.
  unfold easy_neg_pool. rewrite list_elem_of_filter, py_range_elem. tauto.
Qed.

(** ** The parts of a result of [get_saliency_labels_all] *)

Lemma get_saliency_labels_all_inv ids scores ctx_l max_n easy w pos neg arr w' :
  get_saliency_labels_all ids scores ctx_l max_n easy w
  = (Ok (pos, neg, arr), w') ->
  exists agg hp hn ep en,
    np_sum_axis1 scores = Ok agg /\
    (z <~ np_zeros ctx_l ;;
     score_loop (seq 0 (length ids)) ids agg ctx_l z) = Ok arr /\
    clamp_ids ids ctx_l (slice_from (np_argsort agg) (- max_n)) = Ok hp /\
    clamp_ids ids ctx_l (slice_to (np_argsort agg) max_n) = Ok hn /\
    pos = hp ++ ep /\ neg = hn ++ en /\
    (if easy then
       if Z.of_nat (length (easy_neg_pool ids ctx_l)) >=? max_n then
         exists w1, random_sample ids max_n w = (Ok ep, w1) /\
                    random_sample (easy_neg_pool ids ctx_l) max_n w1 = (Ok en, w')
       else ep = hp /\ en = hn /\ w' = w
     else ep = [] /\ en = [] /\ w' = w).
Proof.
  unfold get_saliency_labels_all.
  destruct (np_sum_axis1 scores) as [agg|?]; [|done].
  cbv beta iota zeta delta [lift bind].
  destruct (np_zeros ctx_l) as [z|?] eqn:Hz; [|done].
  destruct (score_loop _ _ _ _ _) as [sa|?] eqn:Hloop; [|done].
  destruct (clamp_ids ids ctx_l (slice_from _ _)) as [hp|?] eqn:Hhp; [|done].
  destruct (clamp_ids ids ctx_l (slice_to _ _)) as [hn|?] eqn:Hhn; [|done].
  destruct easy.
  - destruct (Z.of_nat (length (easy_neg_pool ids ctx_l)) >=? max_n).
    + destruct (random_sample ids max_n w) as [[ep|?] w1] eqn:Hep; [|done].
      cbv beta iota.
      destruct (random_sample (easy_neg_pool ids ctx_l) max_n w1)
        as [[en|?] w2] eqn:Hen; [|done].
      unfold ret. intros ?. simplify_eq. simpl.
      exists agg, hp, hn, ep, en. rewrite Hloop. repeat split; eauto.
    + unfold ret. intros ?. simplify_eq. simpl.
      exists agg, hp, hn, hp, hn. rewrite Hloop. repeat split; eauto.
  - unfold ret. intros ?. simplify_eq. simpl.
    exists agg, hp, hn, [], []. rewrite Hloop. repeat split; eauto.
Qed.

(** X1.  [get_saliency_labels_all] differs from [get_saliency_labels] by
    its dense array only: whenever it returns, [get_saliency_labels]
    returns the same two index lists from the same state of the generator
    and leaves the generator in the same state. *)
Theorem get_saliency_labels_same_indices
    ids scores ctx_l max_n easy w pos neg arr w' :
  get_saliency_labels_all ids scores ctx_l max_n easy w
  = (Ok (pos, neg, arr), w') ->
  get_saliency_labels ids scores ctx_l max_n easy w = (Ok (pos, neg), w').
Proof.
  intros Hall.
  destruct (get_saliency_labels_all_inv _ _ _ _ _ _ _ _ _ _ Hall)
    as (agg & hp & hn & ep & en & Hagg & _ & Hhp & Hhn & -> & -> & Heasy).
  unfold get_saliency_labels. rewrite Hagg.
  cbv beta iota zeta delta [lift bind]. rewrite Hhp, Hhn.
  destruct easy.
  - destruct (Z.of_nat (length (easy_neg_pool ids ctx_l)) >=? max_n).
    + destruct Heasy as (w1 & -> & Hen). cbv beta iota. rewrite Hen. done.
    + by destruct Heasy as (-> & -> & ->).
  - by destruct Heasy as (-> & -> & ->).
Qed.

Lemma get_saliency_labels_same_indices_witness :
  get_saliency_labels_all [13; 14; 15; 16; 17]
    [[4; 2; 3]; [4; 3; 3]; [4; 4; 3]; [4; 4; 4]; [3; 2; 2]] 75 1 true
    (World [7; 9]%nat [])
  = (Ok ([16; 15], [17; 9],
         replicate 13 0%Q ++ [9; 10; 11; 12; 7]%Q ++ replicate 57 0%Q),
     World [] []) /\
  get_saliency_labels [13; 14; 15; 16; 17]
    [[4; 2; 3]; [4; 3; 3]; [4; 4; 3]; [4; 4; 4]; [3; 2; 2]] 75 1 true
    (World [7; 9]%nat [])
  = (Ok ([16; 15], [17; 9]), World [] []).
Proof.
  split; [vm_compute; reflexivity|].
  apply (get_saliency_labels_same_indices _ _ _ _ _ _ _ _
           (replicate 13 0%Q ++ [9; 10; 11; 12; 7]%Q ++ replicate 57 0%Q)).
  vm_compute. reflexivity.
Defined.

Lemma slice_from_length {A} (l : list A) (k : Z) :
  1 <= k <= Z.of_nat (length l) -> Z.of_nat (length (slice_from l (- k))) = k.
Proof.
  intros Hk. unfold slice_from, slice_bound.
  destruct (Z.ltb_spec (- k) 0); [|lia]. rewrite length_drop. lia.
Qed.

Lemma saliency_all_lengths ids scores ctx_l max_n easy w pos neg arr w' :
  get_saliency_labels_all ids scores ctx_l max_n easy w
  = (Ok (pos, neg, arr), w') ->
  1 <= max_n <= Z.of_nat (length scores) ->
  Z.of_nat (length pos) = (if easy then 2 * max_n else max_n) /\
  Z.of_nat (length neg) = (if easy then 2 * max_n else max_n).
Proof.
  intros Hall Hn.
  destruct (get_saliency_labels_all_inv _ _ _ _ _ _ _ _ _ _ Hall)
    as (agg & hp & hn & ep & en & Hagg & _ & Hhp & Hhn & -> & -> & Heasy).
  apply np_sum_axis1_inv in Hagg as [-> _].
  apply rmap_length in Hhp, Hhn.
  assert (length (np_argsort ((fun row => int64 (sumZ row)) <$> scores))
          = length scores) as Hlen
    by (by rewrite np_argsort_length, length_fmap).
  assert (Z.of_nat (length hp) = max_n) as Hhp'.
  { rewrite Hhp. apply slice_from_length. lia. }
  assert (Z.of_nat (length hn) = max_n) as Hhn'.
  { rewrite Hhn, slice_to_length by lia. lia. }
  rewrite !length_app, !Nat2Z.inj_add.
  destruct easy.
  - destruct (Z.of_nat (length (easy_neg_pool ids ctx_l)) >=? max_n).
    + destruct Heasy as (w1 & Hep & Hen).
      apply random_sample_inv in Hep as (? & _). apply random_sample_inv in Hen as (? & _).
      lia.
    + destruct Heasy as (-> & -> & _). lia.
  - destruct Heasy as (-> & -> & _). simpl. lia.
Qed.

(** X2.  Whenever [get_saliency_labels_all] returns, for
    [1 <= max_n <= len(scores)], the positive and the negative list have
    [2 * max_n] entries each with easy samples and [max_n] each without. *)
Theorem saliency_all_widths ids scores ctx_l max_n easy w pos neg arr w' :
  get_saliency_labels_all ids scores ctx_l max_n easy w
  = (Ok (pos, neg, arr), w') ->
  1 <= max_n <= Z.of_nat (length scores) ->
  Z.of_nat (length pos) = (if easy then 2 * max_n else max_n) /\
  Z.of_nat (length neg) = (if easy then 2 * max_n else max_n).
Proof. apply saliency_all_lengths. Qed.

Lemma saliency_all_widths_witness :
  get_saliency_labels_all [13; 14; 15; 16; 17]
    [[4; 2; 3]; [4; 3; 3]; [4; 4; 3]; [4; 4; 4]; [3; 2; 2]] 75 2 true
    (World [7; 9; 1; 1]%nat [])
  = (Ok ([15; 16; 15; 14], [17; 13; 1; 74],
         replicate 13 0%Q ++ [9; 10; 11; 12; 7]%Q ++ replicate 57 0%Q),
     World [] []) /\
  1 <= 2 <= Z.of_nat (length [[4; 2; 3]; [4; 3; 3]; [4; 4; 3]; [4; 4; 4]; [3; 2; 2]]) /\
  Z.of_nat (length [15; 16; 15; 14]) = 2 * 2 /\
  Z.of_nat (length [17; 13; 1; 74]) = 2 * 2.
Proof.
  split; [vm_compute; reflexivity|]. split; [vm_compute; split; congruence|].
  apply (saliency_all_widths [13; 14; 15; 16; 17]
           [[4; 2; 3]; [4; 3; 3]; [4; 4; 3]; [4; 4; 4]; [3; 2; 2]] 75 2 true
           (World [7; 9; 1; 1]%nat []) _ _
           (replicate 13 0%Q ++ [9; 10; 11; 12; 7]%Q ++ replicate 57 0%Q)
           (World [] [])).
  - vm_compute. reflexivity.
  - vm_compute. split; congruence.
Defined.

Lemma slice_from_last {A} (l : list A) (x : A) :
  last l = Some x -> slice_from l (- (1)) = [x].
Proof.
  intros [l' ->]%last_Some. unfold slice_from.
  assert (slice_bound (length (l' ++ [x])) (- (1)) = length l') as ->.
  { unfold slice_bound. rewrite length_app. simpl. lia. }
  by rewrite drop_app_length.
Qed.

Lemma slice_to_head {A} (l : list A) (x : A) :
  head l = Some x -> slice_to l 1 = [x].
Proof.
  destruct l as [|y l]; intros ?; simplify_eq/=.
  unfold slice_to.
  assert (slice_bound (length (x :: l)) 1 = 1%nat) as ->.
  { unfold slice_bound. simpl. lia. }
  done.
Qed.

Lemma clamp_ids_singleton ids ctx_l idx r :
  clamp_ids ids ctx_l [idx] = Ok r ->
  exists id, ids !! idx = Some id /\ r = [Z.min id (ctx_l - 1)].
Proof.
  unfold clamp_ids, lookup_or_raise. simpl.
  destruct (ids !! idx) as [id|]; [|done]. simpl. intros ?. simplify_eq. eauto.
Qed.

(** X3.  With [max_n = 1] (as [__getitem__] calls it) and scores of
    dtype [int64], the first positive index is the clamped id of a clip
    whose summed score, as [np.sum] computes it (modulo [2^64]), is
    maximal, and the first negative index the clamped id of a clip where
    it is minimal; these are the extrema of the exact sums when no sum
    leaves the [int64] range. *)
Theorem hard_indices_are_extremal ids scores ctx_l easy w pos neg arr w' :
  Forall (Forall in_int64) scores ->
  get_saliency_labels_all ids scores ctx_l 1 easy w
  = (Ok (pos, neg, arr), w') ->
  exists i j id_max id_min row_max row_min,
    ids !! i = Some id_max /\ scores !! i = Some row_max /\
    ids !! j = Some id_min /\ scores !! j = Some row_min /\
    head pos = Some (Z.min id_max (ctx_l - 1)) /\
    head neg = Some (Z.min id_min (ctx_l - 1)) /\
    (forall row, row ∈ scores ->
       int64 (sumZ row_min) <= int64 (sumZ row) <= int64 (sumZ row_max)) /\
    (Forall (fun row => in_int64 (sumZ row)) scores ->
     forall row, row ∈ scores -> sumZ row_min <= sumZ row <= sumZ row_max).
Proof.
  intros _ Hall.
  destruct (get_saliency_labels_all_inv _ _ _ _ _ _ _ _ _ _ Hall)
    as (agg & hp & hn & ep & en & Hagg & _ & Hhp & Hhn & -> & -> & _).
  apply np_sum_axis1_inv in Hagg as [-> Hne].
  set (agg := (fun row => int64 (sumZ row)) <$> scores) in *.
  assert (length (np_argsort agg) = length scores) as Hlen
    by (unfold agg; by rewrite np_argsort_length, length_fmap).
  assert (length scores <> 0%nat) as Hpos by (by destruct scores).
  destruct (last (np_argsort agg)) as [i|] eqn:Hlast.
  2:{ apply last_None in Hlast. rewrite Hlast in Hlen. simpl in Hlen. lia. }
  destruct (head (np_argsort agg)) as [j|] eqn:Hhead.
  2:{ apply head_None in Hhead. rewrite Hhead in Hlen. simpl in Hlen. lia. }
  pose proof (slice_from_last _ _ Hlast) as Hfrom.
  pose proof (slice_to_head _ _ Hhead) as Hto.
  rewrite Hfrom in Hhp. rewrite Hto in Hhn.
  apply clamp_ids_singleton in Hhp as (id_max & Hi & ->).
  apply clamp_ids_singleton in Hhn as (id_min & Hj & ->).
  apply np_argsort_last in Hlast as (x & Hx & Hmax).
  apply np_argsort_head in Hhead as (y & Hy & Hmin).
  unfold agg in Hx, Hy. rewrite list_lookup_fmap in Hx, Hy.
  destruct (scores !! i) as [row_max|] eqn:Hri; [|done].
  destruct (scores !! j) as [row_min|] eqn:Hrj; [|done].
  simplify_eq/=.
  assert (forall row, row ∈ scores ->
            int64 (sumZ row_min) <= int64 (sumZ row) <= int64 (sumZ row_max))
    as Hext.
  { intros row Hrow.
    assert (int64 (sumZ row) ∈ agg) as Hin
      by (unfold agg; by apply (list_elem_of_fmap_2 (fun row => int64 (sumZ row)))).
    split; [by apply Hmin|by apply Hmax]. }
  exists i, j, id_max, id_min, row_max, row_min.
  do 6 (split; [done|]). split; [done|].
  intros Hsmall row Hrow. rewrite Forall_forall in Hsmall.
  specialize (Hext row Hrow).
  rewrite !int64_id in Hext; [done| | |]; apply Hsmall;
    [by eapply list_elem_of_lookup_2|done|by eapply list_elem_of_lookup_2].
Qed.

Lemma hard_indices_are_extremal_witness :
  Forall (Forall in_int64)
    [[4; 2; 3]; [4; 3; 3]; [4; 4; 3]; [4; 4; 4]; [3; 2; 2]] /\
  get_saliency_labels_all [13; 14; 15; 16; 17]
    [[4; 2; 3]; [4; 3; 3]; [4; 4; 3]; [4; 4; 4]; [3; 2; 2]] 75 1 true
    (World [7; 9]%nat [])
  = (Ok ([16; 15], [17; 9],
         replicate 13 0%Q ++ [9; 10; 11; 12; 7]%Q ++ replicate 57 0%Q),
     World [] []) /\
  exists i j id_max id_min row_max row_min,
    [13; 14; 15; 16; 17] !! i = Some id_max /\
    [[4; 2; 3]; [4; 3; 3]; [4; 4; 3]; [4; 4; 4]; [3; 2; 2]] !! i = Some row_max /\
    [13; 14; 15; 16; 17] !! j = Some id_min /\
    [[4; 2; 3]; [4; 3; 3]; [4; 4; 3]; [4; 4; 4]; [3; 2; 2]] !! j = Some row_min /\
    head [16; 15] = Some (Z.min id_max (75 - 1)) /\
    head [17; 9] = Some (Z.min id_min (75 - 1)) /\
    (forall row, row ∈ [[4; 2; 3]; [4; 3; 3]; [4; 4; 3]; [4; 4; 4]; [3; 2; 2]] ->
       int64 (sumZ row_min) <= int64 (sumZ row) <= int64 (sumZ row_max)) /\
    (Forall (fun row => in_int64 (sumZ row))
       [[4; 2; 3]; [4; 3; 3]; [4; 4; 3]; [4; 4; 4]; [3; 2; 2]] ->
     forall row, row ∈ [[4; 2; 3]; [4; 3; 3]; [4; 4; 3]; [4; 4; 4]; [3; 2; 2]] ->
                 sumZ row_min <= sumZ row <= sumZ row_max).
Proof.
  assert (Forall (Forall in_int64)
            [[4; 2; 3]; [4; 3; 3]; [4; 4; 3]; [4; 4; 4]; [3; 2; 2]]) as Hdt.
  { repeat constructor; vm_compute; congruence. }
  split; [exact Hdt|]. split; [vm_compute; reflexivity|].
  apply (hard_indices_are_extremal [13; 14; 15; 16; 17]
           [[4; 2; 3]; [4; 3; 3]; [4; 4; 3]; [4; 4; 4]; [3; 2; 2]] 75 true
           (World [7; 9]%nat []) [16; 15] [17; 9]
           (replicate 13 0%Q ++ [9; 10; 11; 12; 7]%Q ++ replicate 57 0%Q)
           (World [] []) Hdt).
  vm_compute. reflexivity.
Defined.

(** ** The content of the dense array *)

Lemma score_loop_content idxs ids agg ctx_l arr arr' :
  NoDup ids -> NoDup idxs ->
  (forall idx, idx ∈ idxs ->
     exists id s, ids !! idx = Some id /\ agg !! idx = Some s /\ 0 <= id < ctx_l) ->
  ctx_l <= Z.of_nat (length arr) ->
  score_loop idxs ids agg ctx_l arr = Ok arr' ->
  (forall idx id s, idx ∈ idxs -> ids !! idx = Some id -> agg !! idx = Some s ->
     arr' !! Z.to_nat id = Some (inject_Z s)) /\
  (forall p, (forall idx id, idx ∈ idxs -> ids !! idx = Some id -> Z.to_nat id <> p) ->
     arr' !! p = arr !! p).
Proof.
  intros Hnd. revert arr.
  induction idxs as [|idx idxs IH]; intros arr Hndi Hin Hlen Hrun; simpl in Hrun.
  - simplify_eq. split; [|done]. intros ? ? ? Hx. by apply elem_of_nil in Hx.
  - apply NoDup_cons in Hndi as [Hfresh Hndi].
    destruct (Hin idx) as (id & s & Hid & Hs & Hrange); [left|].
    unfold lookup_or_raise in Hrun. rewrite Hid, Hs in Hrun. simpl in Hrun.
    destruct (Z.leb_spec ctx_l id); [lia|]. simpl in Hrun.
    rewrite py_setitem_ok in Hrun by lia. simpl in Hrun.
    destruct (IH (<[Z.to_nat id := inject_Z s]> arr) Hndi) as [IH1 IH2]; [| |done|].
    { intros ? ?. apply Hin. by right. }
    { by rewrite length_insert. }
    split.
    + intros idx' id' s' Hidx' Hid' Hs'.
      apply elem_of_cons in Hidx' as [Heq|Hidx']; [|by eapply IH1].
      subst idx'. rewrite Hid in Hid'. rewrite Hs in Hs'.
      injection Hid' as <-. injection Hs' as <-. rewrite IH2.
      * apply list_lookup_insert_eq. lia.
      * intros idx'' id'' Hidx'' Hid'' Heq.
        destruct (Hin idx'') as (x & y & Hx & _ & Hxr); [by right|].
        rewrite Hid'' in Hx. injection Hx as <-.
        assert (id'' = id) by lia. subst id''.
        assert (idx'' = idx) by (exact (NoDup_lookup ids _ _ _ Hnd Hid'' Hid)).
        by subst.
    + intros p Hp. rewrite IH2.
      * apply list_lookup_insert_ne. eapply Hp; [left|done].
      * intros idx' id' Hidx' Hid'. eapply Hp; [by right|done].
Qed.

(** X4.  For distinct annotated clip ids in [[0, ctx_l)] with one score
    row each, scores of dtype [int64] and row sums of magnitude at most
    [2^53] (which neither wrap in [np.sum] nor round in the float array),
    the dense array that [get_saliency_labels_all] returns has [ctx_l]
    entries: the summed score of a clip at the position of its id and 0
    at every position that is not annotated. *)
Theorem dense_score_content ids scores ctx_l max_n easy w :
  0 < ctx_l ->
  ids <> [] ->
  NoDup ids ->
  Forall (fun id => 0 <= id < ctx_l) ids ->
  length scores = length ids ->
  rectangular scores = true ->
  Forall (Forall in_int64) scores ->
  Forall (fun row => Z.abs (sumZ row) <= 2 ^ 53) scores ->
  0 <= max_n <= Z.of_nat (length ids) ->
  exists pos neg arr w',
    get_saliency_labels_all ids scores ctx_l max_n easy w
    = (Ok (pos, neg, arr), w') /\
    Z.of_nat (length arr) = ctx_l /\
    (forall k id row, ids !! k = Some id -> scores !! k = Some row ->
       arr !! Z.to_nat id = Some (inject_Z (sumZ row))) /\
    (forall p, (p < length arr)%nat -> Z.of_nat p ∉ ids -> arr !! p = Some 0%Q).
Proof.
  intros Hctx Hne Hnd Hall Hlen Hrect _ Hsmall Hn.
  assert (np_sum_axis1 scores = Ok (sumZ <$> scores)) as Hagg.
  { rewrite np_sum_axis1_ok; [|intros ->; by destruct ids|done].
    f_equal. apply Forall_fmap_ext_1.
    eapply Forall_impl; [exact Hsmall|]. intros row Hrow. by apply int64_small. }
  assert (length (sumZ <$> scores) = length ids) as Hlen'
    by (by rewrite length_fmap).
  assert (forall idx, idx ∈ seq 0 (length ids) ->
            exists id s, ids !! idx = Some id /\ (sumZ <$> scores) !! idx = Some s /\
                         0 <= id < ctx_l) as Hin.
  { intros idx Hidx. by apply (in_range_lookups ids _ ctx_l ids 0 idx). }
  destruct (score_loop_in_range (seq 0 (length ids)) ids (sumZ <$> scores) ctx_l
              (replicate (Z.to_nat ctx_l) 0%Q)) as (arr & Hloop & Harr); [done| |].
  { rewrite length_replicate. lia. }
  rewrite length_replicate in Harr.
  destruct (get_saliency_labels_all_returns ids scores ctx_l max_n easy w _ arr
              Hagg Hlen' ltac:(lia) Hloop Hn) as (pos & neg & w' & Hrun).
  assert (ctx_l <= Z.of_nat (length (replicate (Z.to_nat ctx_l) 0%Q))) as Hzl.
  { rewrite length_replicate. lia. }
  destruct (score_loop_content _ _ _ _ _ _ Hnd (NoDup_seq 0 (length ids)) Hin
              Hzl Hloop) as [Hhit Hmiss].
  exists pos, neg, arr, w'. split; [done|]. split; [lia|]. split.
  - intros k id row Hk Hrow. eapply Hhit; [|done|].
    + apply elem_of_seq. apply lookup_lt_Some in Hk. lia.
    + by rewrite list_lookup_fmap, Hrow.
  - intros p Hp Hnot. rewrite Hmiss.
    + apply lookup_replicate. split; [done|lia].
    + intros idx id _ Hid <-. apply Hnot.
      rewrite Forall_forall in Hall.
      assert (0 <= id < ctx_l) by (apply Hall; by eapply list_elem_of_lookup_2).
      rewrite Z2Nat.id by lia. by eapply list_elem_of_lookup_2.
Qed.

Lemma dense_score_content_witness :
  0 < 75 /\
  NoDup [13; 14; 15; 16; 17] /\
  Forall (fun id => 0 <= id < 75) [13; 14; 15; 16; 17] /\
  Forall (Forall in_int64)
    [[4; 2; 3]; [4; 3; 3]; [4; 4; 3]; [4; 4; 4]; [3; 2; 2]] /\
  Forall (fun row => Z.abs (sumZ row) <= 2 ^ 53)
    [[4; 2; 3]; [4; 3; 3]; [4; 4; 3]; [4; 4; 4]; [3; 2; 2]] /\
  exists pos neg arr w',
    get_saliency_labels_all [13; 14; 15; 16; 17]
      [[4; 2; 3]; [4; 3; 3]; [4; 4; 3]; [4; 4; 4]; [3; 2; 2]] 75 1 true
      (World [] [])
    = (Ok (pos, neg, arr), w') /\
    Z.of_nat (length arr) = 75 /\
    (forall k id row,
       [13; 14; 15; 16; 17] !! k = Some id ->
       [[4; 2; 3]; [4; 3; 3]; [4; 4; 3]; [4; 4; 4]; [3; 2; 2]] !! k = Some row ->
       arr !! Z.to_nat id = Some (inject_Z (sumZ row))) /\
    (forall p, (p < length arr)%nat -> Z.of_nat p ∉ [13; 14; 15; 16; 17] ->
               arr !! p = Some 0%Q).
Proof.
  assert (NoDup [13; 14; 15; 16; 17]) as Hnd.
  { apply (bool_decide_unpack (NoDup [13; 14; 15; 16; 17])). vm_compute. exact I. }
  assert (Forall (fun id => 0 <= id < 75) [13; 14; 15; 16; 17]) as Hall.
  { repeat constructor; vm_compute; congruence. }
  assert (Forall (Forall in_int64)
            [[4; 2; 3]; [4; 3; 3]; [4; 4; 3]; [4; 4; 4]; [3; 2; 2]]) as Hdt.
  { repeat constructor; vm_compute; congruence. }
  assert (Forall (fun row => Z.abs (sumZ row) <= 2 ^ 53)
            [[4; 2; 3]; [4; 3; 3]; [4; 4; 3]; [4; 4; 4]; [3; 2; 2]]) as Hsm.
  { repeat constructor; vm_compute; congruence. }
  split; [reflexivity|]. split; [exact Hnd|]. split; [exact Hall|].
  split; [exact Hdt|]. split; [exact Hsm|].
  apply (dense_score_content [13; 14; 15; 16; 17]
           [[4; 2; 3]; [4; 3; 3]; [4; 4; 3]; [4; 4; 4]; [3; 2; 2]]
           75 1 true (World [] [])
           ltac:(reflexivity) ltac:(discriminate) Hnd Hall ltac:(reflexivity)
           ltac:(reflexivity) Hdt Hsm ltac:(simpl; lia)).
Defined.

(** X5.  When [get_saliency_labels_all] samples its easy indices, the
    [max_n] easy negatives are pairwise distinct clips of [[0, ctx_l)]
    that are not annotated, and the [max_n] easy positives are taken from
    distinct positions of [rel_clip_ids]. *)
Theorem easy_samples ids scores ctx_l max_n w pos neg arr w' :
  get_saliency_labels_all ids scores ctx_l max_n true w
  = (Ok (pos, neg, arr), w') ->
  max_n <= Z.of_nat (length (easy_neg_pool ids ctx_l)) ->
  exists hard_pos hard_neg easy_pos easy_neg,
    pos = hard_pos ++ easy_pos /\ neg = hard_neg ++ easy_neg /\
    Z.of_nat (length easy_pos) = max_n /\ easy_pos ⊆+ ids /\
    Z.of_nat (length easy_neg) = max_n /\ NoDup easy_neg /\
    Forall (fun x => (x ∉ ids) /\ 0 <= x < ctx_l) easy_neg.
Proof.
  intros Hall Hpool.
  destruct (get_saliency_labels_all_inv _ _ _ _ _ _ _ _ _ _ Hall)
    as (agg & hp & hn & ep & en & _ & _ & _ & _ & -> & -> & Heasy).
  destruct (Z.geb_spec (Z.of_nat (length (easy_neg_pool ids ctx_l))) max_n); [|lia].
  destruct Heasy as (w1 & Hep & Hen).
  exists hp, hn, ep, en. split; [done|]. split; [done|].
  pose proof (random_sample_NoDup _ _ _ _ _ (easy_neg_pool_NoDup ids ctx_l) Hen).
  apply random_sample_inv in Hep as (? & ? & _).
  apply random_sample_inv in Hen as (? & Hsub & _).
  repeat split; try done.
  apply Forall_forall. intros x Hx. apply easy_neg_pool_elem.
  by eapply elem_of_submseteq.
Qed.

Lemma easy_samples_witness :
  get_saliency_labels_all [13; 14; 15; 16; 17]
    [[4; 2; 3]; [4; 3; 3]; [4; 4; 3]; [4; 4; 4]; [3; 2; 2]] 75 2 true
    (World [7; 9; 1; 1]%nat [])
  = (Ok ([15; 16; 15; 14], [17; 13; 1; 74],
         replicate 13 0%Q ++ [9; 10; 11; 12; 7]%Q ++ replicate 57 0%Q),
     World [] []) /\
  2 <= Z.of_nat (length (easy_neg_pool [13; 14; 15; 16; 17] 75)) /\
  exists hard_pos hard_neg easy_pos easy_neg,
    [15; 16; 15; 14] = hard_pos ++ easy_pos /\
    [17; 13; 1; 74] = hard_neg ++ easy_neg /\
    Z.of_nat (length easy_pos) = 2 /\ easy_pos ⊆+ [13; 14; 15; 16; 17] /\
    Z.of_nat (length easy_neg) = 2 /\ NoDup easy_neg /\
    Forall (fun x => (x ∉ [13; 14; 15; 16; 17]) /\ 0 <= x < 75) easy_neg.
Proof.
  split; [vm_compute; reflexivity|]. split; [vm_compute; congruence|].
  apply (easy_samples [13; 14; 15; 16; 17]
           [[4; 2; 3]; [4; 3; 3]; [4; 4; 3]; [4; 4; 4]; [3; 2; 2]] 75 2
           (World [7; 9; 1; 1]%nat []) _ _
           (replicate 13 0%Q ++ [9; 10; 11; 12; 7]%Q ++ replicate 57 0%Q)
           (World [] [])).
  - vm_compute. reflexivity.
  - vm_compute. congruence.
Defined.

(** ** The subset-query builder in general *)

Lemma sub_as_query_inv self gt_window ctx_l max_n w pos neg arr w' :
  clip_len self <> 0 ->
  get_saliency_labels_sub_as_query self gt_window ctx_l max_n w
  = (Ok (pos, neg, arr), w') ->
  let st := gt_st self gt_window ctx_l in
  let ed := gt_ed self gt_window ctx_l in
  exists w1 z,
    (if negb (st =? ed)
     then random_sample (py_range st (ed + 1)) max_n w = (Ok pos, w1)
     else pos = [st; st] /\ w1 = w) /\
    random_sample (py_range 0 st ++ py_range (ed + 1) ctx_l) max_n w1
    = (Ok neg, w') /\
    np_zeros ctx_l = Ok z /\
    arr = slice_fill z st (ed + 1) 1%Q.
Proof.
  intros Hcl. unfold get_saliency_labels_sub_as_query, py_int_truediv.
  destruct (Z.eqb_spec (clip_len self) 0) as [|_]; [done|].
  cbv beta iota zeta delta [lift bind].
  fold (gt_ed self gt_window ctx_l).
  set (ed := gt_ed self gt_window ctx_l).
  assert ((if fst gt_window ÷ clip_len self >? ed then ed
           else fst gt_window ÷ clip_len self) = gt_st self gt_window ctx_l) as ->.
  { unfold gt_st. fold ed.
    destruct (Z.gtb_spec (fst gt_window ÷ clip_len self) ed); lia. }
  set (st := gt_st self gt_window ctx_l).
  intros Hrun.
  destruct (negb (st =? ed)).
  - destruct (random_sample (py_range st (ed + 1)) max_n w)
      as [[r|?] w1] eqn:Hs; [|done].
    cbv beta iota in Hrun.
    destruct (random_sample (py_range 0 st ++ py_range (ed + 1) ctx_l) max_n w1)
      as [[r'|?] w2] eqn:Hs'; [|done].
    cbv beta iota in Hrun. destruct (np_zeros ctx_l) as [z|?]; [|done].
    unfold ret in Hrun. simplify_eq. exists w1, z. done.
  - unfold ret at 1 in Hrun.
    destruct (random_sample (py_range 0 st ++ py_range (ed + 1) ctx_l) max_n w)
      as [[r'|?] w2] eqn:Hs'; [|done].
    cbv beta iota in Hrun. destruct (np_zeros ctx_l) as [z|?]; [|done].
    unfold ret in Hrun. simplify_eq. exists w, z. done.
Qed.

Lemma gt_bounds self gt_window ctx_l :
  0 <= fst gt_window -> 0 < clip_len self -> 0 < ctx_l ->
  0 <= gt_st self gt_window ctx_l <= gt_ed self gt_window ctx_l /\
  gt_ed self gt_window ctx_l < ctx_l.
Proof.
  intros Hst Hcl Hctx. unfold gt_st, gt_ed.
  assert (0 <= fst gt_window ÷ clip_len self) by (apply Z.quot_pos; lia). lia.
Qed.

(** X6.  Whenever the subset-query builder returns, its dense array has
    [ctx_l] entries: 1 at the clips [gt_st, ..., gt_ed] of the pseudo
    ground truth and 0 at every other clip. *)
Theorem sub_as_query_dense self gt_window ctx_l max_n w pos neg arr w' :
  0 <= fst gt_window -> 0 < clip_len self -> 0 < ctx_l ->
  get_saliency_labels_sub_as_query self gt_window ctx_l max_n w
  = (Ok (pos, neg, arr), w') ->
  arr = replicate (Z.to_nat (gt_st self gt_window ctx_l)) 0%Q
        ++ replicate (Z.to_nat (gt_ed self gt_window ctx_l
                                - gt_st self gt_window ctx_l + 1)) 1%Q
        ++ replicate (Z.to_nat (ctx_l - gt_ed self gt_window ctx_l - 1)) 0%Q /\
  Z.of_nat (length arr) = ctx_l.
Proof.
  intros Hst Hcl Hctx Hrun.
  destruct (gt_bounds self gt_window ctx_l Hst Hcl Hctx) as [Hb1 Hb2].
  destruct (sub_as_query_inv self gt_window ctx_l max_n w pos neg arr w'
              ltac:(lia) Hrun) as (w1 & z & _ & _ & Hz & ->).
  unfold np_zeros in Hz. destruct (Z.ltb_spec ctx_l 0); [lia|]. simplify_eq.
  set (st := gt_st self gt_window ctx_l) in *.
  set (ed := gt_ed self gt_window ctx_l) in *.
  assert (slice_fill (replicate (Z.to_nat ctx_l) 0%Q) st (ed + 1) 1%Q
          = replicate (Z.to_nat st) 0%Q ++ replicate (Z.to_nat (ed - st + 1)) 1%Q
            ++ replicate (Z.to_nat (ctx_l - ed - 1)) 0%Q) as ->.
  { unfold slice_fill. rewrite length_replicate.
    assert (slice_bound (Z.to_nat ctx_l) st = Z.to_nat st) as ->.
    { unfold slice_bound. destruct (Z.ltb_spec st 0); lia. }
    assert (slice_bound (Z.to_nat ctx_l) (ed + 1) = Z.to_nat (ed + 1)) as ->.
    { unfold slice_bound. destruct (Z.ltb_spec (ed + 1) 0); lia. }
    rewrite take_replicate, drop_replicate. f_equal; [f_equal; lia|].
    f_equal; f_equal; lia. }
  split; [done|]. rewrite !length_app, !length_replicate. lia.
Qed.

Lemma sub_as_query_dense_witness :
  0 <= fst (26, 36) /\ 0 < clip_len ds_hl /\ 0 < 75 /\
  get_saliency_labels_sub_as_query ds_hl (26, 36) 75 2 (World [] [])
  = (Ok ([13; 17], [0; 74],
         replicate 13 0%Q ++ replicate 5 1%Q ++ replicate 57 0%Q), World [] []) /\
  replicate 13 0%Q ++ replicate 5 1%Q ++ replicate 57 0%Q
  = replicate (Z.to_nat (gt_st ds_hl (26, 36) 75)) 0%Q
    ++ replicate (Z.to_nat (gt_ed ds_hl (26, 36) 75 - gt_st ds_hl (26, 36) 75 + 1)) 1%Q
    ++ replicate (Z.to_nat (75 - gt_ed ds_hl (26, 36) 75 - 1)) 0%Q /\
  Z.of_nat (length (replicate 13 0%Q ++ replicate 5 1%Q ++ replicate 57 0%Q)) = 75.
Proof.
  split; [discriminate|]. split; [reflexivity|]. split; [reflexivity|].
  split; [vm_compute; reflexivity|].
  apply (sub_as_query_dense ds_hl (26, 36) 75 2 (World [] []) [13; 17] [0; 74] _
           (World [] [])).
  - discriminate.
  - reflexivity.
  - reflexivity.
  - vm_compute. reflexivity.
Defined.

(** X7.  Whenever the subset-query builder returns, its positives lie in
    the pseudo ground-truth range and its negatives are [max_n] pairwise
    distinct clips of [[0, ctx_l)] outside that range, so that no clip is
    both positive and negative; the positives are [max_n] distinct clips
    when the range has several clips and the single clip twice when it has
    one. *)
Theorem sub_as_query_indices self gt_window ctx_l max_n w pos neg arr w' :
  0 <= fst gt_window -> 0 < clip_len self -> 0 < ctx_l ->
  get_saliency_labels_sub_as_query self gt_window ctx_l max_n w
  = (Ok (pos, neg, arr), w') ->
  Forall (fun x => gt_st self gt_window ctx_l <= x <= gt_ed self gt_window ctx_l) pos /\
  Forall (fun x => 0 <= x < ctx_l /\
                   ~ gt_st self gt_window ctx_l <= x <= gt_ed self gt_window ctx_l) neg /\
  NoDup neg /\ Z.of_nat (length neg) = max_n /\
  (forall x, x ∈ pos -> x ∉ neg) /\
  (if gt_st self gt_window ctx_l =? gt_ed self gt_window ctx_l
   then pos = [gt_st self gt_window ctx_l; gt_st self gt_window ctx_l]
   else NoDup pos /\ Z.of_nat (length pos) = max_n).
Proof.
  intros Hst Hcl Hctx Hrun.
  destruct (gt_bounds self gt_window ctx_l Hst Hcl Hctx) as [Hb1 Hb2].
  destruct (sub_as_query_inv self gt_window ctx_l max_n w pos neg arr w'
              ltac:(lia) Hrun) as (w1 & z & Hpos & Hneg & _ & _).
  set (st := gt_st self gt_window ctx_l) in *.
  set (ed := gt_ed self gt_window ctx_l) in *.
  assert (NoDup (py_range 0 st ++ py_range (ed + 1) ctx_l)) as Hnd.
  { apply NoDup_app. split; [apply py_range_NoDup|].
    split; [|apply py_range_NoDup].
    intros x Hx Hx'. apply py_range_elem in Hx, Hx'. lia. }
  pose proof (random_sample_NoDup _ _ _ _ _ Hnd Hneg) as Hnd'.
  apply random_sample_inv in Hneg as (Hlen & Hsub & _).
  assert (Forall (fun x => 0 <= x < ctx_l /\ ~ st <= x <= ed) neg) as Hnegs.
  { apply Forall_forall. intros x Hx.
    assert (x ∈ py_range 0 st ++ py_range (ed + 1) ctx_l) as Hx'
      by (by eapply elem_of_submseteq).
    apply elem_of_app in Hx' as [Hx'|Hx']; apply py_range_elem in Hx'; lia. }
  assert (Forall (fun x => st <= x <= ed) pos) as Hposs.
  { destruct (Z.eqb_spec st ed); simpl in Hpos.
    - destruct Hpos as [-> _]. repeat constructor; lia.
    - apply random_sample_inv in Hpos as (_ & Hsub' & _).
      apply Forall_forall. intros x Hx.
      assert (x ∈ py_range st (ed + 1)) as Hx' by (by eapply elem_of_submseteq).
      apply py_range_elem in Hx'. lia. }
  split; [done|]. split; [done|]. split; [done|]. split; [done|]. split.
  - intros x Hx Hx'. rewrite Forall_forall in Hposs, Hnegs.
    specialize (Hposs x Hx). destruct (Hnegs x Hx'). lia.
  - destruct (Z.eqb_spec st ed); simpl in Hpos.
    + by destruct Hpos.
    + pose proof (random_sample_NoDup _ _ _ _ _ (py_range_NoDup st (ed + 1)) Hpos).
      apply random_sample_inv in Hpos as (? & _). done.
Qed.

Lemma sub_as_query_indices_witness :
  0 <= fst (26, 36) /\ 0 < clip_len ds_hl /\ 0 < 75 /\
  get_saliency_labels_sub_as_query ds_hl (26, 36) 75 2 (World [] [])
  = (Ok ([13; 17], [0; 74],
         replicate 13 0%Q ++ replicate 5 1%Q ++ replicate 57 0%Q), World [] []) /\
  Forall (fun x => gt_st ds_hl (26, 36) 75 <= x <= gt_ed ds_hl (26, 36) 75) [13; 17] /\
  Forall (fun x => 0 <= x < 75 /\
                   ~ gt_st ds_hl (26, 36) 75 <= x <= gt_ed ds_hl (26, 36) 75) [0; 74] /\
  NoDup [0; 74] /\ Z.of_nat (length [0; 74]) = 2 /\
  (forall x, x ∈ [13; 17] -> x ∉ [0; 74]) /\
  (if gt_st ds_hl (26, 36) 75 =? gt_ed ds_hl (26, 36) 75
   then [13; 17] = [gt_st ds_hl (26, 36) 75; gt_st ds_hl (26, 36) 75]
   else NoDup [13; 17] /\ Z.of_nat (length [13; 17]) = 2).
Proof.
  split; [discriminate|]. split; [reflexivity|]. split; [reflexivity|].
  split; [vm_compute; reflexivity|].
  apply (sub_as_query_indices ds_hl (26, 36) 75 2 (World [] []) [13; 17] [0; 74]
           (replicate 13 0%Q ++ replicate 5 1%Q ++ replicate 57 0%Q) (World [] [])).
  - discriminate.
  - reflexivity.
  - reflexivity.
  - vm_compute. reflexivity.
Defined.

(** X8.  The subset-query builder returns whenever its pools are large
    enough: [clip_len != 0], [ctx_l >= 0], [max_n >= 0], at least [max_n]
    clips outside [[gt_st, gt_ed]], and either a single-clip range or at
    least [max_n] clips in it. *)
Theorem sub_as_query_returns self gt_window ctx_l max_n w :
  clip_len self <> 0 ->
  0 <= ctx_l ->
  0 <= max_n ->
  max_n <= Z.max 0 (gt_st self gt_window ctx_l)
           + Z.max 0 (ctx_l - (gt_ed self gt_window ctx_l + 1)) ->
  gt_st self gt_window ctx_l = gt_ed self gt_window ctx_l \/
  max_n <= gt_ed self gt_window ctx_l - gt_st self gt_window ctx_l + 1 ->
  exists pos neg arr w',
    get_saliency_labels_sub_as_query self gt_window ctx_l max_n w
    = (Ok (pos, neg, arr), w').
Proof.
  intros Hcl Hctx Hn Hpool Hrange.
  unfold get_saliency_labels_sub_as_query, py_int_truediv.
  destruct (Z.eqb_spec (clip_len self) 0) as [|_]; [done|].
  cbv beta iota zeta delta [lift bind].
  fold (gt_ed self gt_window ctx_l).
  set (ed := gt_ed self gt_window ctx_l) in *.
  assert ((if fst gt_window ÷ clip_len self >? ed then ed
           else fst gt_window ÷ clip_len self) = gt_st self gt_window ctx_l) as ->.
  { unfold gt_st. fold ed.
    destruct (Z.gtb_spec (fst gt_window ÷ clip_len self) ed); lia. }
  set (st := gt_st self gt_window ctx_l) in *.
  assert (exists pos w1,
            (if negb (st =? ed) then random_sample (py_range st (ed + 1)) max_n
             else ret [st; st]) w = (Ok pos, w1)) as (pos & w1 & ->).
  { destruct (Z.eqb_spec st ed); simpl; [by eexists _, _|].
    destruct (random_sample_ok (py_range st (ed + 1)) max_n w)
      as (r & ? & w1 & -> & _); [|by eexists _, _].
    rewrite py_range_length. lia. }
  destruct (random_sample_ok (py_range 0 st ++ py_range (ed + 1) ctx_l) max_n w1)
    as (r & ? & w2 & -> & _).
  { rewrite length_app, Nat2Z.inj_add, !py_range_length. lia. }
  unfold np_zeros. destruct (Z.ltb_spec ctx_l 0); [lia|].
  by eexists _, _, _, _.
Qed.

Lemma sub_as_query_returns_witness :
  clip_len ds_hl <> 0 /\ 0 <= 75 /\ 0 <= 2 /\
  2 <= Z.max 0 (gt_st ds_hl (26, 36) 75) + Z.max 0 (75 - (gt_ed ds_hl (26, 36) 75 + 1)) /\
  2 <= gt_ed ds_hl (26, 36) 75 - gt_st ds_hl (26, 36) 75 + 1 /\
  exists pos neg arr w',
    get_saliency_labels_sub_as_query ds_hl (26, 36) 75 2 (World [5; 8]%nat [])
    = (Ok (pos, neg, arr), w').
Proof.
  split; [discriminate|]. split; [discriminate|]. split; [discriminate|].
  split; [discriminate|]. split; [discriminate|].
  apply (sub_as_query_returns ds_hl (26, 36) 75 2 (World [5; 8]%nat [])).
  - discriminate.
  - discriminate.
  - discriminate.
  - discriminate.
  - right. discriminate.
Defined.

(** ** The summarization-curve builder *)

Lemma tvsum_agg_ok (labels : list (list Z)) :
  labels <> [] -> rectangular labels = true ->
  tvsum_agg labels
  = Ok ((fun row => int64 (sumZ ((fun x => x - 1) <$> row))) <$> labels).
Proof.
  intros Hne Hrect. unfold tvsum_agg. destruct labels as [|r0 labels]; [done|].
  rewrite Hrect. f_equal. apply list_fmap_ext. intros _ row _.
  apply (int64_sum_wrap (fun x => x - 1)).
Qed.

Lemma tvsum_agg_exact (labels : list (list Z)) :
  labels <> [] -> rectangular labels = true ->
  Forall (fun row => Z.abs (sumZ ((fun x => x - 1) <$> row)) <= 2 ^ 53) labels ->
  tvsum_agg labels
  = Ok ((fun row => sumZ ((fun x => x - 1) <$> row)) <$> labels).
Proof.
  intros Hne Hrect Hsmall. rewrite tvsum_agg_ok by done. f_equal.
  apply Forall_fmap_ext_1. eapply Forall_impl; [exact Hsmall|].
  intros row Hrow. by apply int64_small.
Qed.

Lemma slice_to_take {A} (l : list A) (k : Z) :
  0 <= k -> slice_to l k = take (Z.to_nat k) l.
Proof.
  intros Hk. unfold slice_to, slice_bound. destruct (Z.ltb_spec k 0); [lia|].
  destruct (decide (k <= Z.of_nat (length l))).
  - f_equal. lia.
  - rewrite !take_ge by lia. done.
Qed.

(** X9.  Called without easy samples (as [__getitem__] does), on a
    non-empty rectangular label array of dtype [int64] whose row sums of
    [label - 1] have magnitude at most [2^53] (so that nothing wraps), and
    for [1 <= max_n <= min(len(labels), ctx_l)], the summarization-curve
    builder returns without drawing from the generator: [max_n] positive
    and [max_n] negative indices, all positions of the truncated curve,
    and a dense array with one entry [sum(row - 1) / 80 * 12] for each of
    the first [ctx_l] rows, hence of length [min(len(labels), ctx_l)]. *)
Theorem tvsum_result labels ctx_l max_n w :
  labels <> [] ->
  rectangular labels = true ->
  Forall (Forall in_int64) labels ->
  Forall (fun row => Z.abs (sumZ ((fun x => x - 1) <$> row)) <= 2 ^ 53) labels ->
  1 <= max_n <= Z.min (Z.of_nat (length labels)) ctx_l ->
  exists pos neg,
    get_saliency_labels_all_tvsum labels ctx_l max_n false w
    = (Ok (pos, neg,
           tvsum_score <$> take (Z.to_nat ctx_l) labels), w) /\
    Z.of_nat (length pos) = max_n /\ Z.of_nat (length neg) = max_n /\
    Forall (fun i => 0 <= i < Z.min (Z.of_nat (length labels)) ctx_l) (pos ++ neg) /\
    Z.of_nat (length (take (Z.to_nat ctx_l) labels))
    = Z.min (Z.of_nat (length labels)) ctx_l.
Proof.
  intros Hne Hrect _ Hsmall Hn. unfold get_saliency_labels_all_tvsum.
  rewrite tvsum_agg_exact by done.
  cbv beta iota zeta delta [lift bind]. unfold ret.
  rewrite slice_to_take by lia. rewrite <- fmap_take.
  set (agg := (fun row => sumZ ((fun x => x - 1) <$> row)) <$> take (Z.to_nat ctx_l) labels).
  assert (Z.of_nat (length agg) = Z.min (Z.of_nat (length labels)) ctx_l) as Hlen.
  { unfold agg. rewrite length_fmap, length_take. lia. }
  eexists _, _. split.
  { simpl. rewrite !app_nil_r. unfold agg. rewrite <- list_fmap_compose.
    reflexivity. }
  rewrite !length_fmap. fold agg.
  split. { apply slice_from_length. rewrite np_argsort_length. lia. }
  split. { rewrite slice_to_length by (rewrite np_argsort_length; lia). lia. }
  split.
  - apply Forall_app. split; apply Forall_fmap, Forall_forall; intros idx Hidx; simpl.
    + apply subseteq_drop, np_argsort_lt in Hidx. lia.
    + apply subseteq_take, np_argsort_lt in Hidx. lia.
  - rewrite length_take. lia.
Qed.

Lemma tvsum_result_witness :
  [[1; 2]; [3; 5]; [1; 1]] <> [] /\
  rectangular [[1; 2]; [3; 5]; [1; 1]] = true /\
  Forall (Forall in_int64) [[1; 2]; [3; 5]; [1; 1]] /\
  Forall (fun row => Z.abs (sumZ ((fun x => x - 1) <$> row)) <= 2 ^ 53)
    [[1; 2]; [3; 5]; [1; 1]] /\
  1 <= 1 <= Z.min (Z.of_nat (length [[1; 2]; [3; 5]; [1; 1]])) 2 /\
  exists pos neg,
    get_saliency_labels_all_tvsum [[1; 2]; [3; 5]; [1; 1]] 2 1 false (World [] [])
    = (Ok (pos, neg,
           tvsum_score <$> take (Z.to_nat 2) [[1; 2]; [3; 5]; [1; 1]]), World [] []) /\
    Z.of_nat (length pos) = 1 /\ Z.of_nat (length neg) = 1 /\
    Forall (fun i => 0 <= i < Z.min (Z.of_nat (length [[1; 2]; [3; 5]; [1; 1]])) 2)
      (pos ++ neg) /\
    Z.of_nat (length (take (Z.to_nat 2) [[1; 2]; [3; 5]; [1; 1]]))
    = Z.min (Z.of_nat (length [[1; 2]; [3; 5]; [1; 1]])) 2.
Proof.
  assert (Forall (Forall in_int64) [[1; 2]; [3; 5]; [1; 1]]) as Hdt.
  { repeat constructor; vm_compute; congruence. }
  assert (Forall (fun row => Z.abs (sumZ ((fun x => x - 1) <$> row)) <= 2 ^ 53)
            [[1; 2]; [3; 5]; [1; 1]]) as Hsm.
  { repeat constructor; vm_compute; congruence. }
  split; [discriminate|]. split; [reflexivity|]. split; [exact Hdt|].
  split; [exact Hsm|]. split; [split; discriminate|].
  apply (tvsum_result [[1; 2]; [3; 5]; [1; 1]] 2 1 (World [] [])).
  - discriminate.
  - reflexivity.
  - exact Hdt.
  - exact Hsm.
  - split; discriminate.
Defined.

Lemma sumZ_shift (row : list Z) :
  sumZ ((fun x => x - 1) <$> row) = sumZ row - Z.of_nat (length row).
Proof.
  induction row as [|x row IH]; [done|].
  change (x - 1 + sumZ ((fun x => x - 1) <$> row)
          = x + sumZ row - Z.of_nat (S (length row))).
  rewrite IH. lia.
Qed.

Lemma tvsum_agg_inv (labels : list (list Z)) (agg : list Z) :
  tvsum_agg labels = Ok agg ->
  agg = ((fun row => int64 (sumZ ((fun x => x - 1) <$> row))) <$> labels) /\
  rectangular labels = true /\ labels <> [].
Proof.
  intros Hagg.
  assert (rectangular labels = true /\ labels <> []) as [Hrect Hne].
  { unfold tvsum_agg in Hagg. destruct labels as [|r0 labels]; [done|].
    by destruct (rectangular (r0 :: labels)). }
  rewrite tvsum_agg_ok in Hagg by done. by simplify_eq.
Qed.

(** X10.  With [max_n = 1], on labels of dtype [int64], the positive
    index of the summarization-curve builder is a position, among the
    first [ctx_l] rows, where the summed importance [sum(row - 1)], as
    [np.sum] computes it (modulo [2^64]), is maximal, and the negative
    index one where it is minimal; these are the extrema of the exact row
    sums when no sum of [row - 1] leaves the [int64] range. *)
Theorem tvsum_extremal labels ctx_l easy w pos neg arr w' :
  0 < ctx_l ->
  Forall (Forall in_int64) labels ->
  get_saliency_labels_all_tvsum labels ctx_l 1 easy w = (Ok (pos, neg, arr), w') ->
  exists i j row_max row_min,
    head pos = Some (Z.of_nat i) /\ head neg = Some (Z.of_nat j) /\
    Z.of_nat i < ctx_l /\ Z.of_nat j < ctx_l /\
    labels !! i = Some row_max /\ labels !! j = Some row_min /\
    (forall k row, Z.of_nat k < ctx_l -> labels !! k = Some row ->
       int64 (sumZ ((fun x => x - 1) <$> row_min))
       <= int64 (sumZ ((fun x => x - 1) <$> row))
       <= int64 (sumZ ((fun x => x - 1) <$> row_max))) /\
    (Forall (fun row => in_int64 (sumZ ((fun x => x - 1) <$> row))) labels ->
     forall k row, Z.of_nat k < ctx_l -> labels !! k = Some row ->
                   sumZ row_min <= sumZ row <= sumZ row_max).
Proof.
  intros Hctx _. unfold get_saliency_labels_all_tvsum.
  destruct (tvsum_agg labels) as [agg|?] eqn:Hagg; [|done].
  cbv beta iota zeta delta [lift bind].
  rewrite slice_to_take by lia.
  apply tvsum_agg_inv in Hagg as (-> & Hrect & Hne).
  set (total := fun row : list Z => int64 (sumZ ((fun x => x - 1) <$> row))).
  set (agg := take (Z.to_nat ctx_l) (total <$> labels)).
  intros Hrun.
  assert (exists ep en, pos = ((fun idx : nat => Z.min (Z.of_nat idx) (ctx_l - 1))
                                 <$> slice_from (np_argsort agg) (- (1))) ++ ep /\
                        neg = ((fun idx : nat => Z.min (Z.of_nat idx) (ctx_l - 1))
                                 <$> slice_to (np_argsort agg) 1) ++ en)
    as (ep & en & -> & ->).
  { destruct easy.
    - destruct (Z.of_nat (length (py_range 0 ctx_l)) >=? 1); [done|].
      unfold ret in Hrun. simplify_eq. by eexists _, _.
    - unfold ret in Hrun. simplify_eq. by eexists _, _. }
  clear Hrun.
  assert (length agg <> 0%nat) as Hlen.
  { unfold agg. rewrite length_take, length_fmap. destruct labels; [done|]. simpl. lia. }
  destruct (last (np_argsort agg)) as [i|] eqn:Hlast.
  2:{ apply last_None in Hlast. apply (f_equal length) in Hlast.
      rewrite np_argsort_length in Hlast. done. }
  destruct (head (np_argsort agg)) as [j|] eqn:Hhead.
  2:{ apply head_None in Hhead. apply (f_equal length) in Hhead.
      rewrite np_argsort_length in Hhead. done. }
  rewrite (slice_from_last _ _ Hlast), (slice_to_head _ _ Hhead). simpl.
  apply np_argsort_last in Hlast as (x & Hx & Hmax).
  apply np_argsort_head in Hhead as (y & Hy & Hmin).
  unfold agg in Hx, Hy.
  apply lookup_take_Some in Hx as [Hx Hi]. apply lookup_take_Some in Hy as [Hy Hj].
  rewrite list_lookup_fmap in Hx, Hy.
  destruct (labels !! i) as [row_max|] eqn:Hri; [|done].
  destruct (labels !! j) as [row_min|] eqn:Hrj; [|done].
  simplify_eq/=.
  assert (forall k row, Z.of_nat k < ctx_l -> labels !! k = Some row ->
            total row_min <= total row <= total row_max) as Hext.
  { intros k row Hk Hrow.
    assert (total row ∈ agg) as Hin.
    { unfold agg. apply list_elem_of_lookup. exists k. apply lookup_take_Some.
      split; [|lia]. by rewrite list_lookup_fmap, Hrow. }
    split; [by apply Hmin|by apply Hmax]. }
  exists i, j, row_max, row_min.
  split; [f_equal; lia|]. split; [f_equal; lia|].
  split; [lia|]. split; [lia|]. split; [done|]. split; [done|].
  split; [exact Hext|].
  intros Hsmall k row Hk Hrow.
  assert (length row = length row_max /\ length row = length row_min) as [Hl1 Hl2].
  { clear -Hrect Hri Hrj Hrow. destruct labels as [|r0 labels]; [done|].
    simpl in Hrect. rewrite forallb_forall in Hrect.
    assert (forall n r, (r0 :: labels) !! n = Some r -> length r = length r0) as Hall.
    { intros [|n] r Hr; simplify_eq/=; [done|].
      apply Nat.eqb_eq, Hrect, list_elem_of_In. by eapply list_elem_of_lookup_2. }
    rewrite (Hall _ _ Hrow), (Hall _ _ Hri), (Hall _ _ Hrj). done. }
  specialize (Hext k row Hk Hrow). unfold total in Hext.
  rewrite Forall_forall in Hsmall.
  rewrite !int64_id in Hext by (apply Hsmall; by eapply list_elem_of_lookup_2).
  rewrite !sumZ_shift in Hext. lia.
Qed.

Lemma tvsum_extremal_witness :
  0 < 2 /\
  Forall (Forall in_int64) [[1; 2]; [3; 5]; [1; 1]] /\
  get_saliency_labels_all_tvsum [[1; 2]; [3; 5]; [1; 1]] 2 1 false (World [] [])
  = (Ok ([1], [0], [12 # 80; 72 # 80]), World [] []) /\
  exists i j row_max row_min,
    head [1] = Some (Z.of_nat i) /\ head [0] = Some (Z.of_nat j) /\
    Z.of_nat i < 2 /\ Z.of_nat j < 2 /\
    [[1; 2]; [3; 5]; [1; 1]] !! i = Some row_max /\
    [[1; 2]; [3; 5]; [1; 1]] !! j = Some row_min /\
    (forall k row, Z.of_nat k < 2 -> [[1; 2]; [3; 5]; [1; 1]] !! k = Some row ->
       int64 (sumZ ((fun x => x - 1) <$> row_min))
       <= int64 (sumZ ((fun x => x - 1) <$> row))
       <= int64 (sumZ ((fun x => x - 1) <$> row_max))) /\
    (Forall (fun row => in_int64 (sumZ ((fun x => x - 1) <$> row)))
       [[1; 2]; [3; 5]; [1; 1]] ->
     forall k row, Z.of_nat k < 2 -> [[1; 2]; [3; 5]; [1; 1]] !! k = Some row ->
                   sumZ row_min <= sumZ row <= sumZ row_max).
Proof.
  assert (Forall (Forall in_int64) [[1; 2]; [3; 5]; [1; 1]]) as Hdt.
  { repeat constructor; vm_compute; congruence. }
  split; [reflexivity|]. split; [exact Hdt|]. split; [vm_compute; reflexivity|].
  apply (tvsum_extremal [[1; 2]; [3; 5]; [1; 1]] 2 false (World [] [])
           [1] [0] [12 # 80; 72 # 80] (World [] [])).
  - reflexivity.
  - exact Hdt.
  - vm_compute. reflexivity.
Defined.

(** ** More on the moment-length classes *)

Lemma first_class_bounds l c0 vals c :
  first_class l c0 vals = Some c -> (c0 <= c < c0 + length vals)%nat.
Proof.
  revert c0. induction vals as [|v vals IH]; intros c0 H; simpl in H; [done|].
  destruct (l <=? v).
  - simplify_eq. simpl. lia.
  - apply IH in H. simpl. lia.
Qed.

(** X11.  The class of a raw length is a position of the threshold list,
    and a shorter raw length never gets a later class: if [l2] has class
    [c2], every [l1 <= l2] has a class [c1 <= c2]. *)
Theorem moment_class_monotone vals l1 l2 c2 :
  l1 <= l2 ->
  first_class l2 0 vals = Some c2 ->
  exists c1, first_class l1 0 vals = Some c1 /\
             (c1 <= c2)%nat /\ (c2 < length vals)%nat.
Proof.
  intros Hle H2.
  assert (forall c0, first_class l2 c0 vals = Some c2 ->
            exists c1, first_class l1 c0 vals = Some c1 /\ (c1 <= c2)%nat) as Hgen.
  { clear H2. induction vals as [|v vals IH]; intros c0 H; simpl in *; [done|].
    destruct (Z.leb_spec l2 v).
    - simplify_eq. destruct (Z.leb_spec l1 v); [|lia]. eauto.
    - destruct (Z.leb_spec l1 v).
      + apply first_class_bounds in H. exists c0. split; [done|lia].
      + by apply IH. }
  destruct (Hgen _ H2) as (c1 & ? & ?). exists c1. split; [done|]. split; [done|].
  apply first_class_bounds in H2. lia.
Qed.

Lemma moment_class_monotone_witness :
  10 <= 25 /\
  first_class 25 0 [10; 30; 150] = Some 1%nat /\
  exists c1, first_class 10 0 [10; 30; 150] = Some c1 /\
             (c1 <= 1)%nat /\ (1 < length [10; 30; 150])%nat.
Proof.
  split; [discriminate|]. split; [reflexivity|].
  apply (moment_class_monotone [10; 30; 150] 10 25 1); [discriminate|reflexivity].
Defined.

(** ** [__getitem__] outside the labelled path *)

Lemma label_phase_tvsum self index ctx_l mi w :
  load_labels self = true ->
  String.eqb (dset_name self) "tvsum" = true ->
  (exists e, fst (label_phase self index ctx_l mi w) = Raise e) \/
  (exists mi', label_phase self index ctx_l mi w = (Ok (mi', None), w)).
Proof.
  intros Hl Ht. unfold label_phase. rewrite Hl, Ht.
  unfold bind, read_meta, lift.
  destruct (lookup_or_raise (data w) index) as [m|?]; [|left; eauto].
  destruct (key (label m)) as [lab|?]; [|left; eauto].
  destruct (get_saliency_labels_all_tvsum lab ctx_l 1 false w) as [[t|?] w1] eqn:Ht';
    [|left; eauto].
  right. unfold get_saliency_labels_all_tvsum in Ht'.
  destruct (tvsum_agg lab); [|done].
  cbv beta iota zeta delta [lift bind ret] in Ht'. simplify_eq. eauto.
Qed.

(** X12.  With moment-length thresholds configured, [__getitem__] needs
    the raw lengths of [get_span_labels].  An error of the feature phase
    (line 151 for a context of length 0) comes first and changes nothing;
    once the features are built, [__getitem__] raises [UnboundLocalError]
    and changes nothing when labels are not loaded; and on tvsum, where
    the span branch is not taken, it never returns an example. *)
Theorem thresholds_need_lengths self qf vf index w m vals :
  m_vals self = Some vals ->
  data w !! index = Some m ->
  (forall e, feature_phase self qf vf = Raise e ->
             getitem self qf vf index w = (Raise e, w)) /\
  (forall fp, feature_phase self qf vf = Ok fp ->
              load_labels self = false ->
              getitem self qf vf index w = (Raise UnboundLocalError, w)) /\
  (load_labels self = true -> String.eqb (dset_name self) "tvsum" = true ->
   forall r, fst (getitem self qf vf index w) <> Ok r).
Proof.
  intros Hv Hm. split; [|split].
  - intros e He. by apply (getitem_feature_error _ _ _ _ _ m).
  - intros fp Hfp Hl. rewrite (getitem_unfold _ _ _ _ _ _ _ Hm Hfp).
    unfold bind, label_phase, moment_class_phase, lift, ret.
    by rewrite Hl, Hv.
  - intros Hl Ht r.
    destruct (feature_phase self qf vf) as [fp|e] eqn:Hfp.
    2:{ by rewrite (getitem_feature_error _ _ _ _ _ _ _ Hm Hfp). }
    rewrite (getitem_unfold _ _ _ _ _ _ _ Hm Hfp).
    destruct (label_phase_tvsum self index (snd fp) (fst fp) w Hl Ht)
      as [[e He]|[mi' Hmi]].
    + unfold bind at 1.
      destruct (label_phase _ _ _ _ w) as [[?|?] ?]; simpl in *; done.
    + unfold bind at 1. rewrite Hmi. unfold bind, lift, moment_class_phase.
      simpl. rewrite Hv. done.
Qed.

Lemma thresholds_need_lengths_witness :
  m_vals ds_ce_eval = Some [10; 30; 150] /\
  data (World [] [meta_two]) !! 0%nat = Some meta_two /\
  (forall e, feature_phase ds_ce_eval [] video_75 = Raise e ->
             getitem ds_ce_eval [] video_75 0 (World [] [meta_two])
             = (Raise e, World [] [meta_two])) /\
  (forall fp, feature_phase ds_ce_eval [] video_75 = Ok fp ->
              load_labels ds_ce_eval = false ->
              getitem ds_ce_eval [] video_75 0 (World [] [meta_two])
              = (Raise UnboundLocalError, World [] [meta_two])) /\
  (load_labels ds_ce_eval = true ->
   String.eqb (dset_name ds_ce_eval) "tvsum" = true ->
   forall r, fst (getitem ds_ce_eval [] video_75 0 (World [] [meta_two])) <> Ok r).
Proof.
  split; [reflexivity|]. split; [reflexivity|].
  apply (thresholds_need_lengths ds_ce_eval [] video_75 0%nat
           (World [] [meta_two]) meta_two [10; 30; 150]); reflexivity.
Defined.

(** X13.  Without labels and without thresholds, and with a positive
    context length when the temporal channels are in use, [__getitem__]
    returns the record with the feature entries alone: the key
    ["query_feat"], holding the query feature, followed by ["video_feat"]
    when video features or temporal channels are in use (the video
    feature itself when only video is).  It draws nothing from the
    generator and leaves [self.data] as it is. *)
Theorem getitem_features_only self qf vf index w m :
  load_labels self = false ->
  m_vals self = None ->
  data w !! index = Some m ->
  (use_tef self = true ->
   0 < (if use_video self then Z.of_nat (length vf) else max_v_l self)) ->
  exists mi,
    getitem self qf vf index w = (Ok (m, mi), w) /\
    (fst <$> mi)
    = "query_feat"%string
        :: (if use_video self || use_tef self then ["video_feat"%string] else []) /\
    dict_get "query_feat" mi = Ok (VFeat qf) /\
    (use_video self = true -> use_tef self = false ->
     dict_get "video_feat" mi = Ok (VFeat vf)).
Proof.
  intros Hl Hv Hm Hctx.
  assert (exists mi ctx_l,
    feature_phase self qf vf = Ok (mi, ctx_l) /\
    (fst <$> mi)
    = "query_feat"%string
        :: (if use_video self || use_tef self then ["video_feat"%string] else []) /\
    dict_get "query_feat" mi = Ok (VFeat qf) /\
    (use_video self = true -> use_tef self = false ->
     dict_get "video_feat" mi = Ok (VFeat vf))) as (mi & ctx_l & Hfp & Hkeys).
  { unfold feature_phase. destruct (use_tef self).
    - specialize (Hctx eq_refl).
      destruct (Z.ltb_spec (if use_video self then Z.of_nat (length vf)
                            else max_v_l self) 0); [lia|].
      destruct (Z.eqb_spec (if use_video self then Z.of_nat (length vf)
                            else max_v_l self) 0); [lia|].
      cbn [rbind]. destruct (use_video self); eexists _, _; (split; [reflexivity|]);
        (split; [reflexivity|]); (split; [reflexivity|]); done.
    - destruct (use_video self); eexists _, _; (split; [reflexivity|]);
        (split; [reflexivity|]); (split; [reflexivity|]); done. }
  exists mi. split; [|exact Hkeys].
  rewrite (getitem_unfold _ _ _ _ _ _ _ Hm Hfp).
  unfold bind, label_phase, moment_class_phase, lift, ret, read_meta, lookup_or_raise.
  by rewrite Hl, Hv, Hm.
Qed.

Lemma getitem_features_only_witness :
  load_labels ds_hl_eval = false /\
  m_vals ds_hl_eval = None /\
  data (World [4; 2]%nat [meta_two]) !! 0%nat = Some meta_two /\
  (use_tef ds_hl_eval = true ->
   0 < (if use_video ds_hl_eval then Z.of_nat (length video_75)
        else max_v_l ds_hl_eval)) /\
  exists mi,
    getitem ds_hl_eval [] video_75 0 (World [4; 2]%nat [meta_two])
    = (Ok (meta_two, mi), World [4; 2]%nat [meta_two]) /\
    (fst <$> mi)
    = "query_feat"%string
        :: (if use_video ds_hl_eval || use_tef ds_hl_eval
            then ["video_feat"%string] else []) /\
    dict_get "query_feat" mi = Ok (VFeat []) /\
    (use_video ds_hl_eval = true -> use_tef ds_hl_eval = false ->
     dict_get "video_feat" mi = Ok (VFeat video_75)).
Proof.
  split; [reflexivity|]. split; [reflexivity|]. split; [reflexivity|].
  split; [intros _; reflexivity|].
  apply (getitem_features_only ds_hl_eval [] video_75 0%nat
           (World [4; 2]%nat [meta_two]) meta_two);
    [reflexivity | reflexivity | reflexivity | intros _; reflexivity].
Defined.

Lemma init_Ok_dataset (a : init_args) (datalist : list meta) self d :
  init a datalist = Ok (self, d) ->
  self = Dataset (a_dset_name a) (a_data_path a) (a_q_feat_type a)
           (a_max_q_l a) (a_max_v_l a) (a_ctx_mode a)
           (contains "tef" (a_ctx_mode a)) (contains "video" (a_ctx_mode a))
           (a_load_labels a) (a_clip_len a) (a_max_windows a)
           (a_span_loss_type a) (a_txt_drop_ratio a) (a_m_classes a).
Proof.
  unfold init, init_rest.
  destruct (split_guard _ _); cbn [rbind]; [|done].
  destruct (assert _); cbn [rbind]; [|done].
  match goal with
  | |- context [rbind ?x _] => destruct x; cbn [rbind]; [|done]
  end.
  by intros [= <- _].
Qed.

Lemma init_any_regime (s : string) (a : init_args) (datalist : list meta) self d :
  init a datalist = Ok (self, d) ->
  exists self', init (with_span_loss_type s a) datalist = Ok (self', d) /\
                span_loss_type self' = s.
Proof.
  unfold init, init_rest, with_span_loss_type. cbn [a_dset_name a_data_path
    a_q_feat_type a_max_q_l a_max_v_l a_data_ratio a_ctx_mode a_load_labels
    a_clip_len a_max_windows a_span_loss_type a_txt_drop_ratio a_dset_domain
    a_m_classes].
  destruct (split_guard _ _); cbn [rbind]; [|done].
  destruct (assert _); cbn [rbind]; [|done].
  match goal with
  | |- context [rbind ?x _] => destruct x; cbn [rbind]; [|done]
  end.
  intros [= _ <-]. eexists. split; [reflexivity|]. reflexivity.
Qed.

(** X14.  A span regime other than ["l1"] and ["ce"] is not rejected by
    [__init__] (which returns the same data for any regime) and is only
    met when an example is built: for a dataset that [__init__] returned
    with labels outside tvsum, once the features are built,
    [__getitem__] raises [NotImplementedError] for every record. *)
Theorem unknown_regime_fails_late a datalist self d qf vf fp index w m :
  init a datalist = Ok (self, d) ->
  a_span_loss_type a <> "l1"%string ->
  a_span_loss_type a <> "ce"%string ->
  a_load_labels a = true ->
  String.eqb (a_dset_name a) "tvsum" = false ->
  data w !! index = Some m ->
  feature_phase self qf vf = Ok fp ->
  (forall s, exists self',
     init (with_span_loss_type s a) datalist = Ok (self', d) /\
     span_loss_type self' = s) /\
  span_loss_type self = a_span_loss_type a /\
  fst (getitem self qf vf index w) = Raise NotImplementedError.
Proof.
  intros Hinit H1 H2 Hl Ht Hm Hfp.
  split; [intros s; by eapply init_any_regime|].
  apply init_Ok_dataset in Hinit as ->. split; [done|].
  rewrite (getitem_unfold _ _ _ _ _ _ _ Hm Hfp).
  unfold bind at 1. unfold label_phase. cbn [load_labels dset_name].
  rewrite Hl, Ht.
  unfold bind at 1. unfold get_span_labels. unfold bind at 1.
  match goal with
  | |- context [select_windows ?ds index w] =>
      destruct (select_windows_run ds index w m Hm) as (ws & w1 & _ & _ & -> & _)
  end.
  unfold lift, span_rows. cbn [span_loss_type].
  apply String.eqb_neq in H1, H2. rewrite H1, H2. done.
Qed.

Lemma unknown_regime_fails_late_witness :
  exists self d fp,
    init args_iou [meta_two] = Ok (self, d) /\
    a_span_loss_type args_iou <> "l1"%string /\
    a_span_loss_type args_iou <> "ce"%string /\
    a_load_labels args_iou = true /\
    String.eqb (a_dset_name args_iou) "tvsum" = false /\
    data (World [] [meta_two]) !! 0%nat = Some meta_two /\
    feature_phase self [] video_75 = Ok fp /\
    (forall s, exists self',
       init (with_span_loss_type s args_iou) [meta_two] = Ok (self', d) /\
       span_loss_type self' = s) /\
    span_loss_type self = a_span_loss_type args_iou /\
    fst (getitem self [] video_75 0 (World [] [meta_two]))
    = Raise NotImplementedError.
Proof.
  eexists _, _, _. split; [vm_compute; reflexivity|].
  split; [discriminate|]. split; [discriminate|]. split; [reflexivity|].
  split; [reflexivity|]. split; [reflexivity|].
  split; [vm_compute; reflexivity|].
  eapply (unknown_regime_fails_late args_iou [meta_two] _ _ [] video_75 _ 0%nat
            (World [] [meta_two]) meta_two);
    [vm_compute; reflexivity | discriminate | discriminate | reflexivity
    | reflexivity | reflexivity | vm_compute; reflexivity].
Defined.

(** ** The widths of the index lists that [__getitem__] stores *)

Lemma getitem_Ok_inv self qf vf index w m' mi w' :
  getitem self qf vf index w = (Ok (m', mi), w') ->
  exists fp mi0 lengths,
    feature_phase self qf vf = Ok fp /\
    label_phase self index (snd fp) (fst fp) w = (Ok (mi0, lengths), w') /\
    moment_class_phase self lengths mi0 = Ok mi.
Proof.
  unfold getitem. unfold bind at 1. unfold read_meta at 1.
  destruct (lookup_or_raise (data w) index) as [m|?]; [|done].
  unfold bind at 1, lift at 1.
  destruct (feature_phase self qf vf) as [fp|?]; [|done].
  unfold bind at 1.
  destruct (label_phase _ _ _ _ w) as [[[mi0 lengths]|?] w1] eqn:Hlab; [|done].
  unfold bind, lift, read_meta, ret. simpl.
  destruct (moment_class_phase self lengths mi0) as [mi1|?] eqn:Hmc; [|done].
  destruct (lookup_or_raise (data w1) index); [|done].
  intros Heq. injection Heq as <- <- <-. exists fp, mi0, lengths. done.
Qed.

Lemma label_phase_labelled_inv self index ctx_l mi w mi' lengths w' :
  load_labels self = true ->
  String.eqb (dset_name self) "tvsum" = false ->
  label_phase self index ctx_l mi w = (Ok (mi', lengths), w') ->
  exists sp t w1,
    mi' = set_saliency (dict_set "span_labels" (VSpans sp) mi) t /\
    ((exists ids sc, get_saliency_labels_all ids sc ctx_l 1 true w1 = (Ok t, w')) \/
     (exists gt, get_saliency_labels_sub_as_query self gt ctx_l 2 w1 = (Ok t, w'))).
Proof.
  intros Hl Ht. unfold label_phase. rewrite Hl, Ht.
  unfold bind at 1.
  destruct (get_span_labels self index ctx_l w) as [[[sp ls]|?] w1]; [|done].
  unfold bind at 1. unfold read_meta at 1.
  destruct (lookup_or_raise (data w1) index) as [m|?]; [|done]. simpl.
  destruct (negb (contains "subs_train" (data_path self))).
  - unfold bind at 1, lift at 1. destruct (key (relevant_clip_ids m)) as [ids|?]; [|done].
    unfold bind at 1, lift at 1. destruct (key (saliency_scores m)) as [sc|?]; [|done].
    unfold bind at 1.
    destruct (get_saliency_labels_all ids sc ctx_l 1 true w1) as [[t|?] w2] eqn:Hall;
      [|done].
    unfold ret. intros ?. simplify_eq. exists sp, t, w1. split; [done|]. left. eauto.
  - unfold bind at 1, lift at 1.
    destruct (lookup_or_raise (relevant_windows m) 0) as [gt|?]; [|done].
    unfold bind at 1.
    destruct (get_saliency_labels_sub_as_query self gt ctx_l 2 w1) as [[t|?] w2] eqn:Hsub;
      [|done].
    unfold ret. intros ?. simplify_eq. exists sp, t, w1. split; [done|]. right. eauto.
Qed.

Lemma sub_as_query_widths self gt_window ctx_l w pos neg arr w' :
  get_saliency_labels_sub_as_query self gt_window ctx_l 2 w
  = (Ok (pos, neg, arr), w') ->
  length pos = 2%nat /\ length neg = 2%nat.
Proof.
  intros Hrun. destruct (decide (clip_len self = 0)) as [Hz|Hnz].
  - unfold get_saliency_labels_sub_as_query, py_int_truediv in Hrun.
    rewrite Hz in Hrun. done.
  - destruct (sub_as_query_inv self gt_window ctx_l 2 w pos neg arr w' Hnz Hrun)
      as (w1 & z & Hpos & Hneg & _ & _).
    apply random_sample_inv in Hneg as (? & _). split; [|lia].
    destruct (negb _).
    + apply random_sample_inv in Hpos as (? & _). lia.
    + by destruct Hpos as [-> _].
Qed.

Lemma moment_class_phase_keeps self lengths mi0 mi k :
  moment_class_phase self lengths mi0 = Ok mi ->
  String.eqb k "moment_class" = false ->
  dict_get k mi = dict_get k mi0.
Proof.
  unfold moment_class_phase. intros Hrun Hk.
  destruct (m_vals self) as [vals|]; [|by simplify_eq].
  destruct lengths as [ls|]; [|done].
  destruct (assert _); [|done]. simpl in Hrun. simplify_eq.
  by apply dict_get_set_ne.
Qed.

(** X15.  On the labelled path outside tvsum, every example that
    [__getitem__] returns carries exactly two positive and two negative
    saliency indices, whichever of the two builders produced them. *)
Theorem getitem_saliency_widths self qf vf index w m mi w' :
  load_labels self = true ->
  String.eqb (dset_name self) "tvsum" = false ->
  getitem self qf vf index w = (Ok (m, mi), w') ->
  exists pos neg,
    dict_get "saliency_pos_labels" mi = Ok (VIndices pos) /\
    dict_get "saliency_neg_labels" mi = Ok (VIndices neg) /\
    length pos = 2%nat /\ length neg = 2%nat.
Proof.
  intros Hl Ht Hrun.
  destruct (getitem_Ok_inv _ _ _ _ _ _ _ _ Hrun)
    as (fp & mi0 & lengths & _ & Hlab & Hmc).
  destruct (label_phase_labelled_inv _ _ _ _ _ _ _ _ Hl Ht Hlab)
    as (sp & [[pos neg] arr] & w1 & -> & Hsal).
  exists pos, neg.
  rewrite !(moment_class_phase_keeps _ _ _ _ _ Hmc) by reflexivity.
  unfold set_saliency. simpl fst. simpl snd.
  split.
  { rewrite dict_get_set_ne by reflexivity. rewrite dict_get_set_ne by reflexivity.
    apply dict_get_set_eq. }
  split.
  { rewrite dict_get_set_ne by reflexivity. apply dict_get_set_eq. }
  destruct Hsal as [(ids & sc & Hall)|(gt & Hsub)].
  - assert (1 <= 1 <= Z.of_nat (length sc)) as Hn.
    { destruct (get_saliency_labels_all_inv _ _ _ _ _ _ _ _ _ _ Hall)
        as (agg & _ & _ & _ & _ & Hagg & _).
      apply np_sum_axis1_inv in Hagg as [_ Hne]. destruct sc; [done|]. simpl. lia. }
    destruct (saliency_all_lengths _ _ _ _ _ _ _ _ _ _ Hall Hn). lia.
  - by eapply sub_as_query_widths.
Qed.

Lemma getitem_saliency_widths_witness :
  load_labels ds_ce = true /\
  String.eqb (dset_name ds_ce) "tvsum" = false /\
  exists m mi w',
    getitem ds_ce [] video_75 0 (World [0; 0; 0]%nat [meta_two]) = (Ok (m, mi), w') /\
    exists pos neg,
      dict_get "saliency_pos_labels" mi = Ok (VIndices pos) /\
      dict_get "saliency_neg_labels" mi = Ok (VIndices neg) /\
      length pos = 2%nat /\ length neg = 2%nat.
Proof.
  split; [reflexivity|]. split; [reflexivity|].
  eexists _, _, _. split; [vm_compute; reflexivity|].
  eapply (getitem_saliency_widths ds_ce [] video_75 0%nat
            (World [0; 0; 0]%nat [meta_two]));
    [reflexivity | reflexivity | vm_compute; reflexivity].
Defined.

(** ** The structure of a batch *)

Lemma dict_set_keys {V} (k k' : string) (v : V) (d : dict V) :
  k ∈ (fst <$> dict_set k' v d) <-> k = k' \/ k ∈ (fst <$> d).
Proof.
  induction d as [|[k1 v1] d IH]; simpl.
  - rewrite elem_of_cons. rewrite elem_of_nil. tauto.
  - destruct (String.eqb k' k1) eqn:E; simpl.
    + apply String.eqb_eq in E. subst. rewrite !elem_of_cons. tauto.
    + rewrite !elem_of_cons, IH. tauto.
Qed.

Lemma collate_loop_keys keys batch acc bd k :
  collate_loop keys batch acc = Ok bd ->
  k ∈ (fst <$> bd) <-> k ∈ keys \/ k ∈ (fst <$> acc).
Proof.
  revert acc. induction keys as [|k' keys IH]; intros acc Hrun; simpl in Hrun.
  - simplify_eq. rewrite elem_of_nil. tauto.
  - destruct (collate_key k' batch) as [b'|?]; simpl in Hrun; [|done].
    rewrite (IH _ Hrun), dict_set_keys, elem_of_cons. tauto.
Qed.

Lemma collate_key_values k batch b :
  collate_key k batch = Ok b ->
  exists vals, Forall2 (fun e v => dict_get k (snd e) = Ok v) batch vals /\
               (String.eqb k "span_labels" = true -> b = BList vals) /\
               (k = "moment_class"%string -> b = BList vals) /\
               (str_in k ["saliency_pos_labels"; "saliency_neg_labels"]%string = true ->
                exists rows, b = BLong rows /\ rectangular rows = true /\
                             vals = VIndices <$> rows).
Proof.
  unfold collate_key.
  destruct (rmap _ batch) as [vals|?] eqn:Hvals; cbn [rbind]; [|done].
  intros Hb. exists vals. split; [by apply rmap_Ok_inv in Hvals|].
  destruct (String.eqb k "span_labels") eqn:E1.
  { simplify_eq. split; [done|]. apply String.eqb_eq in E1. subst. split; done. }
  split; [done|].
  destruct (str_in k ["saliency_pos_labels"; "saliency_neg_labels"]%string) eqn:E2.
  { split; [intros ->; done|]. intros _.
    destruct (rmap as_indices vals) as [rows|?] eqn:Hrows; cbn [rbind] in Hb; [|done].
    unfold long_tensor in Hb. destruct (rectangular rows) eqn:Hrect; [|done].
    cbn [rbind] in Hb. simplify_eq. exists rows. split; [done|]. split; [done|].
    apply rmap_Ok_inv in Hrows. clear -Hrows.
    induction Hrows as [|v row vals rows Hv _ IH]; [done|].
    rewrite fmap_cons. f_equal; [|done]. destruct v; simpl in Hv; by simplify_eq. }
  split; [|done]. intros ->. cbn in Hb. by simplify_eq.
Qed.

(** X16.  Whenever [start_end_collate] returns, the metas are those of the
    examples in order, the batch has exactly the keys of its first
    example, and every example carries each of these keys (keys that only
    later examples carry are ignored).  Span labels and moment classes
    are kept as one entry per example, in order; the positive and the
    negative saliency indices are stacked, one row per example, all rows
    of one width. *)
Theorem collate_structure batch metas bd :
  start_end_collate batch = Ok (metas, bd) ->
  exists e0,
    batch !! 0%nat = Some e0 /\
    metas = (fst <$> batch) /\
    (forall k, k ∈ (fst <$> bd) <-> k ∈ (fst <$> snd e0)) /\
    (forall k, k ∈ (fst <$> snd e0) ->
       exists b vals,
         dict_get k bd = Ok b /\
         Forall2 (fun e v => dict_get k (snd e) = Ok v) batch vals /\
         (k = "span_labels"%string \/ k = "moment_class"%string -> b = BList vals) /\
         (k = "saliency_pos_labels"%string \/ k = "saliency_neg_labels"%string ->
          exists rows, b = BLong rows /\ vals = (VIndices <$> rows) /\
                       forall r1 r2, r1 ∈ rows -> r2 ∈ rows -> length r1 = length r2)).
Proof.
  unfold start_end_collate, lookup_or_raise.
  destruct (batch !! 0%nat) as [e0|] eqn:He0; simpl; [|done].
  destruct (collate_loop (fst <$> snd e0) batch []) as [bd'|?] eqn:Hloop;
    simpl; [|done].
  intros ?. simplify_eq. exists e0. split; [done|]. split; [done|]. split.
  { intros k. rewrite (collate_loop_keys _ _ _ _ k Hloop). simpl.
    rewrite elem_of_nil. tauto. }
  intros k Hk.
  destruct (collate_loop_get _ _ _ _ k Hloop) as [Hin _].
  destruct (Hin Hk) as (b & Hkey & Hget).
  destruct (collate_key_values _ _ _ Hkey) as (vals & Hvals & Hspan & Hmc & Hidx).
  exists b, vals. split; [done|]. split; [done|]. split.
  - intros [->| ->]; [by apply Hspan|by apply Hmc].
  - intros Hk'. destruct Hidx as (rows & -> & Hrect & ->).
    { destruct Hk' as [->| ->]; reflexivity. }
    exists rows. split; [done|]. split; [done|].
    intros r1 r2 H1 H2. destruct rows as [|r0 rows]; [by apply elem_of_nil in H1|].
    simpl in Hrect. rewrite forallb_forall in Hrect.
    assert (forall r, r ∈ r0 :: rows -> length r = length r0) as Hall.
    { intros r [->|Hr]%elem_of_cons; [done|].
      by apply Nat.eqb_eq, Hrect, list_elem_of_In. }
    by rewrite (Hall _ H1), (Hall _ H2).
Qed.

Lemma collate_structure_witness :
  exists metas bd,
    start_end_collate [example_a; example_b] = Ok (metas, bd) /\
    exists e0,
      [example_a; example_b] !! 0%nat = Some e0 /\
      metas = (fst <$> [example_a; example_b]) /\
      (forall k, k ∈ (fst <$> bd) <-> k ∈ (fst <$> snd e0)) /\
      (forall k, k ∈ (fst <$> snd e0) ->
         exists b vals,
           dict_get k bd = Ok b /\
           Forall2 (fun e v => dict_get k (snd e) = Ok v) [example_a; example_b] vals /\
           (k = "span_labels"%string \/ k = "moment_class"%string -> b = BList vals) /\
           (k = "saliency_pos_labels"%string \/ k = "saliency_neg_labels"%string ->
            exists rows, b = BLong rows /\ vals = (VIndices <$> rows) /\
                         forall r1 r2, r1 ∈ rows -> r2 ∈ rows -> length r1 = length r2)).
Proof.
  eexists _, _. split; [vm_compute; reflexivity|].
  apply (collate_structure [example_a; example_b]). vm_compute. reflexivity.
Defined.

Lemma collate_values batch metas bd e0 k :
  start_end_collate batch = Ok (metas, bd) ->
  batch !! 0%nat = Some e0 ->
  k ∈ (fst <$> snd e0) ->
  exists vals, Forall2 (fun e v => dict_get k (snd e) = Ok v) batch vals.
Proof.
  unfold start_end_collate, lookup_or_raise.
  destruct (batch !! 0%nat) as [e0'|] eqn:He0; simpl; [|done].
  destruct (collate_loop (fst <$> snd e0') batch []) as [bd'|?] eqn:Hloop;
    simpl; [|done].
  intros _ [= <-] Hk. destruct (collate_loop_get _ _ _ _ k Hloop) as [Hin _].
  destruct (Hin Hk) as (b & Hkey & _).
  destruct (collate_key_values _ _ _ Hkey) as (vals & Hvals & _).
  by exists vals.
Qed.

(** X17.  [start_end_collate] never returns a batch when some example
    lacks a key of the first example. *)
Theorem collate_missing_key batch e0 e k :
  batch !! 0%nat = Some e0 ->
  k ∈ (fst <$> snd e0) ->
  e ∈ batch ->
  dict_get k (snd e) = Raise KeyError ->
  forall r, start_end_collate batch <> Ok r.
Proof.
  intros He0 Hk He Hmiss. intros [metas bd] Hrun.
  destruct (collate_values _ _ _ _ _ Hrun He0 Hk) as [vals Hvals].
  apply list_elem_of_lookup in He as [i Hi].
  destruct (Forall2_lookup_l _ _ _ _ _ Hvals Hi) as (v & _ & Hv). congruence.
Qed.

Lemma collate_missing_key_witness :
  [example_a; (meta_two, [])] !! 0%nat = Some example_a /\
  "saliency_pos_labels"%string ∈ (fst <$> snd example_a) /\
  (meta_two, []) ∈ [example_a; (meta_two, [])] /\
  dict_get "saliency_pos_labels" (snd (meta_two, @nil (string * value))) = Raise KeyError /\
  forall r, start_end_collate [example_a; (meta_two, [])] <> Ok r.
Proof.
  assert ("saliency_pos_labels"%string ∈ (fst <$> snd example_a)) as Hk by (simpl; left).
  assert ((meta_two, @nil (string * value)) ∈ [example_a; (meta_two, [])]) as He
    by (right; left).
  split; [reflexivity|]. split; [exact Hk|]. split; [exact He|]. split; [reflexivity|].
  apply (collate_missing_key [example_a; (meta_two, [])] example_a (meta_two, [])
           "saliency_pos_labels" ltac:(reflexivity) Hk He ltac:(reflexivity)).
Defined.

(** ** The video entry of an example *)

Lemma tef_rows_lookup (ctx_l : Z) (i : nat) :
  Z.of_nat i < ctx_l ->
  tef_rows ctx_l !! i
  = Some [(inject_Z (Z.of_nat i) / inject_Z ctx_l)%Q;
          (inject_Z (Z.of_nat i) / inject_Z ctx_l + 1 / inject_Z ctx_l)%Q].
Proof.
  intros Hi. unfold tef_rows, py_range. rewrite list_lookup_fmap.
  rewrite lookup_seqZ_lt by lia. simpl. by rewrite Z.add_0_l.
Qed.

Lemma tef_rows_length (ctx_l : Z) : length (tef_rows ctx_l) = Z.to_nat ctx_l.
Proof.
  unfold tef_rows, py_range. rewrite length_fmap, length_seqZ. f_equal. lia.
Qed.

(** X18.  With video features in use, the context length of an example is
    the number of loaded feature rows.  With temporal channels and no
    feature row, line 151 divides by zero and no video entry is built.
    Otherwise the stored video feature has exactly that many rows: row
    [i] is the loaded row, followed under ["tef"] by the two channels
    [i / ctx_l] and [i / ctx_l + 1 / ctx_l]. *)
Theorem video_feat_rows self qf vf :
  use_video self = true ->
  (use_tef self = true -> vf = [] ->
   feature_phase self qf vf = Raise ZeroDivisionError) /\
  (use_tef self = false \/ vf <> [] ->
   exists mi rows,
     feature_phase self qf vf = Ok (mi, Z.of_nat (length vf)) /\
     dict_get "video_feat" mi = Ok (VFeat rows) /\
     length rows = length vf /\
     forall i row, vf !! i = Some row ->
       rows !! i
       = Some (if use_tef self
               then row ++ [(inject_Z (Z.of_nat i) / inject_Z (Z.of_nat (length vf)))%Q;
                            (inject_Z (Z.of_nat i) / inject_Z (Z.of_nat (length vf))
                             + 1 / inject_Z (Z.of_nat (length vf)))%Q]
               else row)).
Proof.
  intros Huv. unfold feature_phase. rewrite Huv. split.
  - intros -> ->. reflexivity.
  - intros Hok. destruct (use_tef self).
    + destruct Hok as [?|Hne]; [done|].
      assert (0 < Z.of_nat (length vf)) by (destruct vf; [done|simpl; lia]).
      destruct (Z.ltb_spec (Z.of_nat (length vf)) 0); [lia|].
      destruct (Z.eqb_spec (Z.of_nat (length vf)) 0); [lia|]. cbn [rbind].
      eexists _, _. split; [reflexivity|]. split; [reflexivity|]. split.
      * rewrite length_zip_with, tef_rows_length. lia.
      * intros i row Hi. rewrite lookup_zip_with, Hi. simpl.
        rewrite tef_rows_lookup; [done|]. apply lookup_lt_Some in Hi. lia.
    + eexists _, _. split; [reflexivity|]. split; [reflexivity|]. done.
Qed.

Lemma video_feat_rows_witness :
  use_video ds_hl = true /\
  (use_tef ds_hl = true -> [[1]; [2]]%Q = [] ->
   feature_phase ds_hl [] [[1]; [2]]%Q = Raise ZeroDivisionError) /\
  (use_tef ds_hl = false \/ [[1]; [2]]%Q <> [] ->
   exists mi rows,
     feature_phase ds_hl [] [[1]; [2]]%Q
     = Ok (mi, Z.of_nat (length [[1]; [2]]%Q)) /\
     dict_get "video_feat" mi = Ok (VFeat rows) /\
     length rows = length [[1]; [2]]%Q /\
     forall i row, [[1]; [2]]%Q !! i = Some row ->
       rows !! i
       = Some (if use_tef ds_hl
               then row ++ [(inject_Z (Z.of_nat i)
                             / inject_Z (Z.of_nat (length [[1]; [2]]%Q)))%Q;
                            (inject_Z (Z.of_nat i)
                             / inject_Z (Z.of_nat (length [[1]; [2]]%Q))
                             + 1 / inject_Z (Z.of_nat (length [[1]; [2]]%Q)))%Q]
               else row)).
Proof.
  split; [reflexivity|].
  apply (video_feat_rows ds_hl [] [[1]; [2]]%Q). reflexivity.
Defined.

(** ** What [__init__] checks and keeps *)

Lemma filter_domain_rmap target (l : list meta) :
  let f := fun d : meta =>
             match domain d with
             | Some dom => Ok (if String.eqb target dom then [d] else [])
             | None => Raise KeyError
             end in
  (Forall (fun m => is_Some (domain m)) l ->
   exists ks, rmap f l = Ok ks /\
              concat ks = filter (fun m => domain m = Some target) l) /\
  (forall ks, rmap f l = Ok ks -> Forall (fun m => is_Some (domain m)) l).
Proof.
  intros f. induction l as [|m l [IH1 IH2]].
  - split; [|by constructor]. intros _. by exists [].
  - split.
    + intros [[dom Hdom] Hall]%Forall_cons.
      destruct (IH1 Hall) as (ks & Hks & Hc).
      exists ((if String.eqb target dom then [m] else []) :: ks). split.
      { simpl. unfold f at 1. rewrite Hdom. cbn [rbind]. by rewrite Hks. }
      simpl. rewrite Hc, filter_cons, Hdom.
      destruct (String.eqb_spec target dom) as [->|Hne].
      * by rewrite decide_True.
      * rewrite decide_False by congruence. done.
    + intros ks Hk. simpl in Hk. unfold f at 1 in Hk.
      destruct (domain m) as [dom|] eqn:Hdom; [|done]. cbn [rbind] in Hk.
      destruct (rmap f l) as [ks'|?] eqn:Hl; cbn [rbind] in Hk; [|done].
      constructor; [by eexists|]. by eapply IH2.
Qed.

Lemma filter_domain_spec target l :
  (Forall (fun m => is_Some (domain m)) l ->
   filter_domain target l = Ok (filter (fun m => domain m = Some target) l)) /\
  (forall kept, filter_domain target l = Ok kept ->
                Forall (fun m => is_Some (domain m)) l).
Proof.
  destruct (filter_domain_rmap target l) as [H1 H2]. unfold filter_domain. split.
  - intros Hall. destruct (H1 Hall) as (ks & -> & <-). done.
  - intros kept Hk.
    destruct (rmap _ l) as [ks|?] eqn:Hl; cbn [rbind] in Hk; [|done].
    by eapply H2.
Qed.

Lemma load_data_prefix ratio (datalist : list meta) :
  load_data ratio datalist `prefix_of` datalist.
Proof.
  unfold load_data. destruct (Qeq_bool ratio 1); [done|].
  unfold slice_to. apply prefix_take.
Qed.

(** X19.  [__init__] returns a dataset exactly when its three checks
    pass: no text row-dropout on a path containing ["val"] or ["test"], a
    known query feature type, and, on tvsum, a known domain tag with every
    kept record carrying a domain.  Nothing else is checked: neither the
    span regime nor the clip length can make it fail.  (The CLIP text
    encoder is not loaded, and [m_classes] is given already parsed.) *)
Theorem init_succeeds_iff (a : init_args) (datalist : list meta) :
  (exists ds d, init a datalist = Ok (ds, d)) <->
  (contains "val" (a_data_path a) || contains "test" (a_data_path a) = true ->
   (a_txt_drop_ratio a == 0)%Q) /\
  str_in (a_q_feat_type a) Q_FEAT_TYPES = true /\
  (a_dset_name a = "tvsum"%string ->
   exists target,
     a_dset_domain a = Some target /\
     str_in target TVSUM_DOMAINS = true /\
     Forall (fun m => is_Some (domain m)) (load_data (a_data_ratio a) datalist)).
Proof.
  unfold init, split_guard, init_rest, assert.
  destruct (contains "val" (a_data_path a) || contains "test" (a_data_path a)).
  - destruct (Qeq_bool (a_txt_drop_ratio a) 0) eqn:Hz; cbn [rbind].
    + apply Qeq_bool_iff in Hz.
      destruct (str_in (a_q_feat_type a) Q_FEAT_TYPES); cbn [rbind].
      2:{ split; [intros (? & ? & ?); done|]. intros (_ & ? & _). done. }
      destruct (String.eqb_spec (a_dset_name a) "tvsum") as [Ht|Ht].
      * destruct (a_dset_domain a) as [target|]; cbn [rbind].
        2:{ split; [intros (? & ? & ?); done|].
            intros (_ & _ & H). destruct (H Ht) as (? & ? & _). done. }
        destruct (str_in target TVSUM_DOMAINS) eqn:Hdom; cbn [rbind].
        2:{ split; [intros (? & ? & ?); done|].
            intros (_ & _ & H). destruct (H Ht) as (? & ? & ? & _). congruence. }
        destruct (filter_domain_spec target (load_data (a_data_ratio a) datalist))
          as [Hf1 Hf2].
        destruct (filter_domain target _) as [kept|?] eqn:Hf; cbn [rbind].
        -- split; [|by eauto]. intros _. split; [done|]. split; [done|].
           intros _. exists target. split; [done|]. split; [done|]. by eapply Hf2.
        -- split; [intros (? & ? & ?); done|].
           intros (_ & _ & H). destruct (H Ht) as (t & ? & _ & Hall). simplify_eq.
           by specialize (Hf1 Hall).
      * split; [|by eauto]. intros _. split; [done|]. split; [done|]. done.
    + split; [intros (? & ? & ?); done|]. intros (H & _).
      specialize (H eq_refl). apply Qeq_bool_iff in H. congruence.
  - cbn [rbind].
    destruct (str_in (a_q_feat_type a) Q_FEAT_TYPES); cbn [rbind].
    2:{ split; [intros (? & ? & ?); done|]. intros (_ & ? & _). done. }
    destruct (String.eqb_spec (a_dset_name a) "tvsum") as [Ht|Ht].
    * destruct (a_dset_domain a) as [target|]; cbn [rbind].
      2:{ split; [intros (? & ? & ?); done|].
          intros (_ & _ & H). destruct (H Ht) as (? & ? & _). done. }
      destruct (str_in target TVSUM_DOMAINS) eqn:Hdom; cbn [rbind].
      2:{ split; [intros (? & ? & ?); done|].
          intros (_ & _ & H). destruct (H Ht) as (? & ? & ? & _). congruence. }
      destruct (filter_domain_spec target (load_data (a_data_ratio a) datalist))
        as [Hf1 Hf2].
      destruct (filter_domain target _) as [kept|?] eqn:Hf; cbn [rbind].
      -- split; [|by eauto]. intros _. split; [done|]. split; [done|].
         intros _. exists target. split; [done|]. split; [done|]. by eapply Hf2.
      -- split; [intros (? & ? & ?); done|].
         intros (_ & _ & H). destruct (H Ht) as (t & ? & _ & Hall). simplify_eq.
         by specialize (Hf1 Hall).
    * split; [|by eauto]. intros _. split; [done|]. split; [done|]. done.
Qed.

(** X20.  The data that [__init__] keeps is a prefix of the loaded list
    (the whole list for [data_ratio == 1]); on tvsum it is that prefix
    restricted, in order, to the records of the requested domain, and
    the requested domain is one of the ten known tags. *)
Theorem init_data (a : init_args) (datalist : list meta) ds d :
  init a datalist = Ok (ds, d) ->
  load_data (a_data_ratio a) datalist `prefix_of` datalist /\
  ((a_data_ratio a == 1)%Q -> load_data (a_data_ratio a) datalist = datalist) /\
  (a_dset_name a <> "tvsum"%string -> d = load_data (a_data_ratio a) datalist) /\
  (a_dset_name a = "tvsum"%string ->
   exists target,
     a_dset_domain a = Some target /\ target ∈ TVSUM_DOMAINS /\
     d = filter (fun m => domain m = Some target)
           (load_data (a_data_ratio a) datalist)).
Proof.
  intros Hinit. split; [apply load_data_prefix|]. split.
  { intros H1. unfold load_data. apply Qeq_bool_iff in H1. by rewrite H1. }
  unfold init in Hinit.
  destruct (split_guard _ _); cbn [rbind] in Hinit; [|done].
  unfold init_rest, assert in Hinit.
  destruct (str_in (a_q_feat_type a) Q_FEAT_TYPES); cbn [rbind] in Hinit; [|done].
  destruct (String.eqb_spec (a_dset_name a) "tvsum") as [Ht|Ht].
  - split; [done|]. intros _.
    destruct (a_dset_domain a) as [target|]; cbn [rbind] in Hinit; [|done].
    destruct (str_in target TVSUM_DOMAINS) eqn:Hdom; cbn [rbind] in Hinit; [|done].
    destruct (filter_domain_spec target (load_data (a_data_ratio a) datalist))
      as [Hf1 Hf2].
    destruct (filter_domain target _) as [kept|?] eqn:Hf; cbn [rbind] in Hinit; [|done].
    simplify_eq. exists target. split; [done|]. split.
    + unfold str_in in Hdom. apply existsb_exists in Hdom as (x & Hx & Heq).
      apply String.eqb_eq in Heq. subst. by apply list_elem_of_In.
    + specialize (Hf1 (Hf2 _ eq_refl)). by simplify_eq.
  - cbn [rbind] in Hinit. simplify_eq. split; [done|]. done.
Qed.

Lemma init_data_witness :
  exists ds d,
    init args_tvsum [meta_bk; meta_vt; meta_bk] = Ok (ds, d) /\
    (load_data (a_data_ratio args_tvsum) [meta_bk; meta_vt; meta_bk]
       `prefix_of` [meta_bk; meta_vt; meta_bk] /\
     ((a_data_ratio args_tvsum == 1)%Q ->
      load_data (a_data_ratio args_tvsum) [meta_bk; meta_vt; meta_bk]
      = [meta_bk; meta_vt; meta_bk]) /\
     (a_dset_name args_tvsum <> "tvsum"%string ->
      d = load_data (a_data_ratio args_tvsum) [meta_bk; meta_vt; meta_bk]) /\
     (a_dset_name args_tvsum = "tvsum"%string ->
      exists target,
        a_dset_domain args_tvsum = Some target /\ target ∈ TVSUM_DOMAINS /\
        d = filter (fun m => domain m = Some target)
              (load_data (a_data_ratio args_tvsum) [meta_bk; meta_vt; meta_bk]))).
Proof.
  eexists _, _. split; [vm_compute; reflexivity|].
  eapply (init_data args_tvsum [meta_bk; meta_vt; meta_bk]).
  vm_compute. reflexivity.
Defined.

(** ** Loading the video feature streams *)

Lemma foldl_min_le (l : list nat) (x : nat) :
  (foldl Nat.min x l <= x)%nat /\ Forall (fun y => foldl Nat.min x l <= y)%nat l.
Proof.
  revert x. induction l as [|y l IH]; intros x; simpl; [by split|].
  destruct (IH (x `min` y)%nat) as [H1 H2]. split; [lia|].
  constructor; [lia|done].
Qed.

Lemma foldl_min_elem (l : list nat) (x : nat) : foldl Nat.min x l ∈ x :: l.
Proof.
  revert x. induction l as [|y l IH]; intros x; simpl; [left|].
  specialize (IH (x `min` y)%nat).
  apply elem_of_cons in IH as [->|IH].
  - destruct (Nat.min_spec x y) as [[_ ->]|[_ ->]]; [left|right; left].
  - by do 2 right.
Qed.

Lemma py_min_spec (l : list nat) :
  l <> [] ->
  exists m, py_min l = Ok m /\ m ∈ l /\ Forall (fun y => m <= y)%nat l.
Proof.
  destruct l as [|x l]; [done|]. intros _. eexists. split; [reflexivity|].
  split; [apply foldl_min_elem|].
  destruct (foldl_min_le l x). by constructor.
Qed.

Lemma foldl_zip_app_length {A} (rest : list (list (list A))) (a : list (list A)) :
  Forall (fun b => length b = length a) rest ->
  length (foldl (zip_with app) a rest) = length a.
Proof.
  revert a. induction rest as [|b rest IH]; intros a Hall; simpl; [done|].
  apply Forall_cons in Hall as [Hb Hall].
  rewrite IH; rewrite length_zip_with; [lia|].
  eapply Forall_impl; [done|]. simpl. intros c Hc. lia.
Qed.

Lemma foldl_zip_app_lookup {A} (rest : list (list (list A))) (a : list (list A))
    (i : nat) :
  Forall (fun b => length b = length a) rest ->
  (i < length a)%nat ->
  exists parts,
    Forall2 (fun f p => f !! i = Some p) (a :: rest) parts /\
    foldl (zip_with app) a rest !! i = Some (concat parts).
Proof.
  revert a. induction rest as [|b rest IH]; intros a Hall Hi; simpl.
  - destruct (lookup_lt_is_Some_2 a i Hi) as [p Hp].
    exists [p]. split; [by repeat constructor|]. simpl. by rewrite app_nil_r.
  - apply Forall_cons in Hall as [Hb Hall].
    destruct (lookup_lt_is_Some_2 a i Hi) as [p Hp].
    destruct (lookup_lt_is_Some_2 b i ltac:(lia)) as [q Hq].
    destruct (IH (zip_with app a b)) as (parts & Hparts & Hl).
    { eapply Forall_impl; [done|]. simpl. intros c Hc.
      rewrite length_zip_with. lia. }
    { rewrite length_zip_with. lia. }
    apply Forall2_cons_inv_l in Hparts as (pq & parts' & Hpq & Hparts & ->).
    rewrite lookup_zip_with, Hp in Hpq. simpl in Hpq. rewrite Hq in Hpq.
    simpl in Hpq. simplify_eq.
    exists (p :: q :: parts'). split; [by repeat constructor|].
    rewrite Hl. simpl. by rewrite app_assoc.
Qed.

Lemma np_concatenate_axis1_same (arrays : list (list (list Q))) (n : nat) :
  arrays <> [] -> Forall (fun a => length a = n) arrays ->
  exists rows,
    np_concatenate_axis1 arrays = Ok rows /\ length rows = n /\
    forall i, (i < n)%nat ->
      exists parts, Forall2 (fun f p => f !! i = Some p) arrays parts /\
                    rows !! i = Some (concat parts).
Proof.
  destruct arrays as [|a rest]; [done|]. intros _ [Ha Hall]%Forall_cons.
  assert (Forall (fun b => length b = length a) rest) as Hall'.
  { eapply Forall_impl; [done|]. simpl. intros. lia. }
  unfold np_concatenate_axis1.
  assert (forallb (fun b => Nat.eqb (length b) (length a)) rest = true) as ->.
  { apply forallb_forall. intros b Hb. apply Nat.eqb_eq.
    rewrite Forall_forall in Hall'. apply Hall'. by apply list_elem_of_In. }
  eexists. split; [reflexivity|]. split.
  - by rewrite foldl_zip_app_length.
  - intros i Hi. apply foldl_zip_app_lookup; [done|lia].
Qed.

Section VideoLoader.

Variable l2_normalize_np_array : list (list Q) -> list (list Q).
Hypothesis l2_normalize_rows :
  forall x, length (l2_normalize_np_array x) = length x.

Lemma stream_length (self : StartEndDataset) (normalize_v : bool) (f : list (list Q)) :
  0 <= max_v_l self ->
  length (if normalize_v then l2_normalize_np_array (slice_to f (max_v_l self))
          else slice_to f (max_v_l self))
  = (length f `min` Z.to_nat (max_v_l self))%nat.
Proof.
  intros Hm. destruct normalize_v; rewrite ?l2_normalize_rows;
    rewrite slice_to_take by done; rewrite length_take; lia.
Qed.

Lemma video_feat_shortest_stream_aux (self : StartEndDataset) (normalize_v : bool)
    (rgb_opt : list (list (list Q) * list (list Q)))
    (features : list (list (list Q))) :
  dset_name self <> "tvsum"%string ->
  features <> [] ->
  0 <= max_v_l self ->
  exists rows,
    get_video_feat_by_vid l2_normalize_np_array self normalize_v rgb_opt features
    = Ok rows /\
    Z.of_nat (length rows) <= max_v_l self /\
    Forall (fun f => length rows <= length f)%nat features /\
    Exists (fun f => length rows
                     = (length f `min` Z.to_nat (max_v_l self))%nat) features /\
    (normalize_v = false ->
     forall i, (i < length rows)%nat ->
       exists parts, Forall2 (fun f p => f !! i = Some p) features parts /\
                     rows !! i = Some (concat parts)).
Proof.
  intros Hname Hne Hm. unfold get_video_feat_by_vid.
  destruct (String.eqb_spec (dset_name self) "tvsum") as [?|_]; [done|].
  cbn [rbind].
  set (stream := fun file : list (list Q) =>
         if normalize_v then l2_normalize_np_array (slice_to file (max_v_l self))
         else slice_to file (max_v_l self)).
  destruct (py_min_spec (length <$> (stream <$> features))) as (m & -> & Hin & Hle).
  { by destruct features. }
  cbn [rbind].
  destruct (np_concatenate_axis1_same (take m <$> (stream <$> features)) m)
    as (rows & -> & Hlen & Hrows).
  { by destruct features. }
  { rewrite Forall_fmap. rewrite Forall_fmap in Hle.
    eapply Forall_impl; [exact Hle|]. simpl. intros g Hg. rewrite length_take. lia. }
  exists rows. split; [done|].
  rewrite <- list_fmap_compose in Hin, Hle.
  apply list_elem_of_fmap in Hin as (f0 & Hm0 & Hf0).
  simpl in Hm0. unfold stream in Hm0. rewrite stream_length in Hm0 by done.
  rewrite Forall_fmap in Hle.
  split; [lia|]. split; [|split].
  - eapply Forall_impl; [exact Hle|]. simpl. intros f Hf.
    unfold stream in Hf. rewrite stream_length in Hf by done. lia.
  - apply Exists_exists. exists f0. split; [done|]. lia.
  - intros -> i Hi. destruct (Hrows i ltac:(lia)) as (parts & Hparts & Hl).
    exists parts. split; [|done].
    rewrite <- list_fmap_compose in Hparts. apply Forall2_fmap_l in Hparts.
    apply Forall2_same_length_lookup. split; [by eapply Forall2_length|].
    intros k f p Hf Hp.
    pose proof (Forall2_lookup_lr _ _ _ _ _ _ Hparts Hf Hp) as Hk. simpl in Hk.
    unfold stream in Hk. rewrite lookup_take_lt in Hk by lia.
    rewrite slice_to_take in Hk by done.
    rewrite lookup_take_lt in Hk; [done|].
    assert (m <= length (stream f))%nat as Hmf.
    { rewrite Forall_forall in Hle. apply Hle. by eapply list_elem_of_lookup_2. }
    unfold stream in Hmf. rewrite slice_to_take, length_take in Hmf by done. lia.
Qed.

End VideoLoader.

(** X21.  Outside tvsum, with at least one feature directory and a
    normaliser that keeps the number of rows, [_get_video_feat_by_vid]
    always returns: cutting every stream to the shortest one makes the
    final concatenation succeed.  The result has at most [max_v_l] rows, no
    more rows than any stream, and exactly as many as the shortest stream
    cut at [max_v_l]. *)
Theorem video_feat_shortest_stream
    (l2_normalize_np_array : list (list Q) -> list (list Q))
    (self : StartEndDataset) (normalize_v : bool)
    (rgb_opt : list (list (list Q) * list (list Q)))
    (features : list (list (list Q))) :
  (forall x, length (l2_normalize_np_array x) = length x) ->
  dset_name self <> "tvsum"%string ->
  features <> [] ->
  0 <= max_v_l self ->
  exists rows,
    get_video_feat_by_vid l2_normalize_np_array self normalize_v rgb_opt features
    = Ok rows /\
    Z.of_nat (length rows) <= max_v_l self /\
    Forall (fun f => length rows <= length f)%nat features /\
    Exists (fun f => length rows
                     = (length f `min` Z.to_nat (max_v_l self))%nat) features.
Proof.
  intros Hnorm Hname Hne Hm.
  destruct (video_feat_shortest_stream_aux _ Hnorm self normalize_v rgb_opt
              features Hname Hne Hm) as (rows & H1 & H2 & H3 & H4 & _).
  by exists rows.
Qed.

Lemma video_feat_shortest_stream_witness :
  (forall x : list (list Q), length (id x) = length x) /\
  dset_name ds_hl <> "tvsum"%string /\
  [[[1]; [2]; [3]]; [[4]; [5]]]%Q <> [] /\
  0 <= max_v_l ds_hl /\
  exists rows,
    get_video_feat_by_vid id ds_hl true [] [[[1]; [2]; [3]]; [[4]; [5]]]%Q
    = Ok rows /\
    Z.of_nat (length rows) <= max_v_l ds_hl /\
    Forall (fun f => length rows <= length f)%nat [[[1]; [2]; [3]]; [[4]; [5]]]%Q /\
    Exists (fun f => length rows
                     = (length f `min` Z.to_nat (max_v_l ds_hl))%nat)
           [[[1]; [2]; [3]]; [[4]; [5]]]%Q.
Proof.
  split; [reflexivity|]. split; [discriminate|]. split; [discriminate|].
  split; [vm_compute; discriminate|].
  apply (video_feat_shortest_stream id ds_hl true [] [[[1]; [2]; [3]]; [[4]; [5]]]%Q);
    [reflexivity|discriminate|discriminate|vm_compute; discriminate].
Defined.

(** X22.  Outside tvsum and without normalisation, row [i] of the loaded
    video feature is the concatenation, in directory order, of row [i] of
    every stream. *)
Theorem video_feat_row_content
    (l2_normalize_np_array : list (list Q) -> list (list Q))
    (self : StartEndDataset)
    (rgb_opt : list (list (list Q) * list (list Q)))
    (features : list (list (list Q))) (rows : list (list Q)) (i : nat) :
  dset_name self <> "tvsum"%string ->
  0 <= max_v_l self ->
  get_video_feat_by_vid l2_normalize_np_array self false rgb_opt features
  = Ok rows ->
  (i < length rows)%nat ->
  exists parts,
    Forall2 (fun f p => f !! i = Some p) features parts /\
    rows !! i = Some (concat parts).
Proof.
  intros Hname Hm Hrun Hi.
  destruct features as [|f features].
  { unfold get_video_feat_by_vid in Hrun.
    destruct (String.eqb_spec (dset_name self) "tvsum"); [done|]. done. }
  destruct (video_feat_shortest_stream_aux id (fun _ => eq_refl) self false rgb_opt
              (f :: features) Hname ltac:(done) Hm) as (rows' & H1 & _ & _ & _ & H5).
  assert (get_video_feat_by_vid l2_normalize_np_array self false rgb_opt (f :: features)
          = get_video_feat_by_vid id self false rgb_opt (f :: features)) as Heq.
  { unfold get_video_feat_by_vid.
    destruct (String.eqb_spec (dset_name self) "tvsum"); [done|]. done. }
  rewrite Heq, H1 in Hrun. simplify_eq. by apply H5.
Qed.

Lemma video_feat_row_content_witness :
  dset_name ds_hl <> "tvsum"%string /\
  0 <= max_v_l ds_hl /\
  get_video_feat_by_vid id ds_hl false [] [[[1]; [2]; [3]]; [[4]; [5]]]%Q
  = Ok [[1; 4]; [2; 5]]%Q /\
  (1 < length [[1; 4]; [2; 5]]%Q)%nat /\
  exists parts,
    Forall2 (fun f p => f !! 1%nat = Some p) [[[1]; [2]; [3]]; [[4]; [5]]]%Q parts /\
    [[1; 4]; [2; 5]]%Q !! 1%nat = Some (concat parts).
Proof.
  split; [discriminate|]. split; [vm_compute; discriminate|].
  split; [reflexivity|]. split; [simpl; lia|].
  apply (video_feat_row_content id ds_hl [] [[[1]; [2]; [3]]; [[4]; [5]]]%Q
           [[1; 4]; [2; 5]]%Q 1);
    [discriminate|vm_compute; discriminate|reflexivity|simpl; lia].
Defined.

Lemma rmap_raise {A B} (f : A -> res B) (e : exn) (l : list A) :
  (forall x, x ∈ l -> f x = Raise e \/ exists y, f x = Ok y) ->
  Exists (fun x => f x = Raise e) l ->
  rmap f l = Raise e.
Proof.
  induction l as [|x l IH]; intros Hall Hex; [by apply Exists_nil in Hex|].
  simpl. destruct (Hall x ltac:(left)) as [->|[y Hy]]; [done|].
  rewrite Hy. cbn [rbind].
  apply Exists_cons in Hex as [Hx|Hex]; [congruence|].
  rewrite IH; [done| |done]. intros z Hz. apply Hall. by right.
Qed.

(** X23.  With no feature directory, [_get_video_feat_by_vid] raises
    [ValueError] (the minimum of an empty list); on tvsum it also raises
    [ValueError] when, in some directory, the rgb and the optical-flow
    arrays cut at [max_v_l] differ in their number of rows. *)
Theorem video_feat_value_error
    (l2_normalize_np_array : list (list Q) -> list (list Q))
    (self : StartEndDataset) (normalize_v : bool)
    (rgb_opt : list (list (list Q) * list (list Q)))
    (features : list (list (list Q))) :
  (if String.eqb (dset_name self) "tvsum"
   then rgb_opt = [] \/
        Exists (fun files => length (slice_to (fst files) (max_v_l self))
                             <> length (slice_to (snd files) (max_v_l self))) rgb_opt
   else features = []) ->
  get_video_feat_by_vid l2_normalize_np_array self normalize_v rgb_opt features
  = Raise ValueError.
Proof.
  unfold get_video_feat_by_vid.
  destruct (String.eqb (dset_name self) "tvsum").
  - intros [->|Hex]; [done|].
    rewrite (rmap_raise _ ValueError); [done| |].
    + intros files _. unfold np_concatenate_axis1. cbn [forallb].
      destruct (Nat.eqb _ _); cbn [andb rbind]; eauto.
    + eapply Exists_impl; [exact Hex|]. simpl. intros files Hne.
      unfold np_concatenate_axis1. cbn [forallb].
      destruct (Nat.eqb_spec (length (slice_to (snd files) (max_v_l self)))
                  (length (slice_to (fst files) (max_v_l self)))) as [Heq|_];
        [congruence|done].
  - intros ->. done.
Qed.

Lemma video_feat_value_error_witness :
  (if String.eqb (dset_name ds_tvsum) "tvsum"
   then [([[1]; [2]], [[3]; [4]; [5]])]%Q = [] \/
        Exists (fun files => length (slice_to (fst files) (max_v_l ds_tvsum))
                             <> length (slice_to (snd files) (max_v_l ds_tvsum)))
               [([[1]; [2]], [[3]; [4]; [5]])]%Q
   else ([] : list (list (list Q))) = []) /\
  get_video_feat_by_vid id ds_tvsum true [([[1]; [2]], [[3]; [4]; [5]])]%Q []
  = Raise ValueError.
Proof.
  assert (if String.eqb (dset_name ds_tvsum) "tvsum"
   then [([[1]; [2]], [[3]; [4]; [5]])]%Q = [] \/
        Exists (fun files => length (slice_to (fst files) (max_v_l ds_tvsum))
                             <> length (slice_to (snd files) (max_v_l ds_tvsum)))
               [([[1]; [2]], [[3]; [4]; [5]])]%Q
   else ([] : list (list (list Q))) = []) as H.
  { simpl. right. apply Exists_cons_hd. vm_compute. discriminate. }
  split; [exact H|].
  apply (video_feat_value_error id ds_tvsum true [([[1]; [2]], [[3]; [4]; [5]])]%Q []).
  exact H.
Defined.

(** ** Noun phrases *)

Lemma index_positions_lookup (c : chunk) (positions : list nat)
    (acc : gmap nat chunk * gmap nat (nat * nat)) (i : nat) :
  let r := foldl (fun acc i =>
                    (<[i := c]> (fst acc),
                     <[i := (chunk_start c, chunk_end c)]> (snd acc)))
                 acc positions in
  fst r !! i = (if decide (i ∈ positions) then Some c else fst acc !! i) /\
  snd r !! i = (if decide (i ∈ positions)
                then Some (chunk_start c, chunk_end c) else snd acc !! i).
Proof.
  cbv zeta. revert acc. induction positions as [|j positions IH]; intros acc.
  { destruct (decide (i ∈ [])) as [Hin|_]; [by apply not_elem_of_nil in Hin|done]. }
  cbn [foldl].
  destruct (IH (<[j := c]> (fst acc),
                <[j := (chunk_start c, chunk_end c)]> (snd acc))) as [IH1 IH2].
  rewrite IH1, IH2. cbn [fst snd].
  destruct (decide (i ∈ positions)) as [Hin|Hin].
  - destruct (decide (i ∈ j :: positions)) as [_|Hn]; [done|].
    destruct Hn. by right.
  - destruct (decide (i = j)) as [->|Hne].
    + destruct (decide (j ∈ j :: positions)) as [_|Hn]; [|destruct Hn; left].
      by rewrite !lookup_insert_eq.
    + destruct (decide (i ∈ j :: positions)) as [Hn|_].
      { apply elem_of_cons in Hn. tauto. }
      by rewrite !lookup_insert_ne.
Qed.

Lemma index_chunks_lookup_both (noun_chunks : list chunk) (i : nat) :
  fst (index_chunks noun_chunks) !! i = chunk_at noun_chunks i /\
  snd (index_chunks noun_chunks) !! i
  = (fun c => (chunk_start c, chunk_end c)) <$> chunk_at noun_chunks i.
Proof.
  unfold index_chunks, chunk_at.
  induction noun_chunks as [|c cs [IH1 IH2]] using rev_ind; [done|].
  rewrite foldl_snoc, filter_app.
  match goal with
  | |- context [foldl _ ?acc (seq ?s ?n)] =>
      destruct (index_positions_lookup c (seq s n) acc i) as [H1 H2]
  end.
  cbv zeta in H1, H2. rewrite H1, H2, IH1, IH2.
  destruct (decide (i ∈ seq (chunk_start c) (chunk_end c - chunk_start c)))
    as [Hin|Hin]; rewrite elem_of_seq in Hin.
  - rewrite filter_cons_True by (unfold covers; lia).
    rewrite filter_nil, last_snoc. done.
  - rewrite filter_cons_False by (unfold covers; lia).
    rewrite filter_nil, app_nil_r. done.
Qed.

Lemma chunk_at_Some (noun_chunks : list chunk) (i : nat) (c : chunk) :
  chunk_at noun_chunks i = Some c -> c ∈ noun_chunks /\ covers i c.
Proof.
  unfold chunk_at. intros [l Hl]%last_Some.
  assert (c ∈ filter (covers i) noun_chunks) as Hin.
  { rewrite Hl. apply elem_of_app. right. left. }
  apply list_elem_of_filter in Hin. tauto.
Qed.

Lemma chunk_at_None (noun_chunks : list chunk) (i : nat) :
  chunk_at noun_chunks i = None <-> Forall (fun c => ~ covers i c) noun_chunks.
Proof.
  unfold chunk_at. rewrite last_None. split.
  - intros Hnil. apply Forall_forall. intros c Hc Hcov.
    assert (c ∈ filter (covers i) noun_chunks) as Hin
      by (apply list_elem_of_filter; done).
    rewrite Hnil in Hin. by apply not_elem_of_nil in Hin.
  - intros Hall. induction Hall as [|c cs Hc _ IH]; [done|].
    by rewrite filter_cons_False.
Qed.

Lemma find_root_snoc (tokens : list token) (t : token) :
  find_root (tokens ++ [t])
  = if Nat.eqb (tok_head t) (length tokens) then Some (length tokens)
    else find_root tokens.
Proof.
  unfold find_root. rewrite imap_app, foldl_app. simpl.
  rewrite Nat.add_0_r.
  destruct (Nat.eqb_spec (tok_head t) (length tokens)) as [->|]; done.
Qed.

Lemma find_root_spec (tokens : list token) :
  match find_root tokens with
  | Some r => is_last_self_headed tokens r
  | None => forall j t, tokens !! j = Some t -> tok_head t <> j
  end.
Proof.
  induction tokens as [|t tokens IH] using rev_ind; [by intros j t|].
  rewrite find_root_snoc.
  destruct (Nat.eqb_spec (tok_head t) (length tokens)) as [Heq|Hne].
  - split.
    + exists t. split; [|done]. by rewrite lookup_app_r, Nat.sub_diag by lia.
    + intros j t' Hj _. apply lookup_lt_Some in Hj.
      rewrite length_app in Hj. simpl in Hj. lia.
  - destruct (find_root tokens) as [r|].
    + destruct IH as [(tr & Hr & Hh) Hlast]. split.
      * exists tr. split; [|done]. by apply lookup_app_l_Some.
      * intros j t' Hj Hhead.
        apply lookup_app_Some in Hj as [Hj|[Hge Hj]]; [by eapply Hlast|].
        apply list_lookup_singleton_Some in Hj as [Hz <-]. lia.
    + intros j t' Hj.
      apply lookup_app_Some in Hj as [Hj|[Hge Hj]]; [by eapply IH|].
      apply list_lookup_singleton_Some in Hj as [Hz <-]. lia.
Qed.

Lemma filter_all {A} (P : A -> Prop) `{!forall x, Decision (P x)} (l : list A) :
  Forall P l -> filter P l = l.
Proof.
  induction 1 as [|x l Hx _ IH]; [done|]. by rewrite filter_cons_True, IH.
Qed.

Lemma filter_none {A} (P : A -> Prop) `{!forall x, Decision (P x)} (l : list A) :
  Forall (fun x => ~ P x) l -> filter P l = [].
Proof.
  induction 1 as [|x l Hx _ IH]; [done|]. by rewrite filter_cons_False.
Qed.

Lemma seq_three (s e n : nat) :
  (s <= e)%nat ->
  seq 0 n = seq 0 (s `min` n) ++ seq s (e `min` n - s) ++ seq e (n - e).
Proof.
  intros Hse.
  destruct (decide (n <= s)%nat) as [Hn|Hn].
  { replace (s `min` n)%nat with n by lia.
    replace (e `min` n - s)%nat with 0%nat by lia.
    replace (n - e)%nat with 0%nat by lia. simpl. by rewrite app_nil_r. }
  replace (s `min` n)%nat with s by lia.
  destruct (decide (n <= e)%nat) as [He|He].
  { replace (e `min` n - s)%nat with (n - s)%nat by lia.
    replace (n - e)%nat with 0%nat by lia. simpl. rewrite app_nil_r.
    replace n with (s + (n - s))%nat at 1 by lia. by rewrite seq_app. }
  replace (e `min` n - s)%nat with (e - s)%nat by lia.
  replace n with (s + ((e - s) + (n - e)))%nat at 1 by lia.
  rewrite !seq_app. simpl. do 3 f_equal. lia.
Qed.

Lemma filter_covers_seq (c : chunk) (n : nat) :
  (chunk_start c < chunk_end c)%nat ->
  filter (fun i => covers i c) (seq 0 n)
  = seq (chunk_start c) (chunk_end c `min` n - chunk_start c) /\
  filter (fun i => ~ covers i c) (seq 0 n)
  = seq 0 (chunk_start c `min` n) ++ seq (chunk_end c) (n - chunk_end c).
Proof.
  intros Hse.
  rewrite (seq_three (chunk_start c) (chunk_end c) n) by lia.
  rewrite !filter_app. split.
  - rewrite (filter_none _ (seq 0 _)), (filter_all _ (seq (chunk_start c) _)),
      (filter_none _ (seq (chunk_end c) _)); [by rewrite app_nil_r| | |];
      apply Forall_forall; intros i Hi%elem_of_seq; unfold covers; lia.
  - rewrite (filter_all _ (seq 0 _)), (filter_none _ (seq (chunk_start c) _)),
      (filter_all _ (seq (chunk_end c) _)); [done| | |];
      apply Forall_forall; intros i Hi%elem_of_seq; unfold covers; lia.
Qed.

Lemma extract_noun_phrase_cases (text : string) (doc : Doc) (need_index : bool) :
  match find_root (doc_tokens doc) with
  | None => extract_noun_phrase text doc need_index = Raise UnboundLocalError
  | Some root =>
      (exists h c,
         (h = root \/
          (chunk_at (doc_noun_chunks doc) root = None /\
           exists tk, doc_tokens doc !! root = Some tk /\
                      head (tok_children tk) = Some h)) /\
         chunk_at (doc_noun_chunks doc) h = Some c /\
         extract_noun_phrase text doc need_index
         = Ok (if need_index
               then PhraseIndexed (chunk_text c)
                      (filter (fun i => covers i c)
                              (seq 0 (length (doc_tokens doc))))
                      (filter (fun i => ~ covers i c)
                              (seq 0 (length (doc_tokens doc))))
               else PhraseText (chunk_text c))) \/
      (chunk_at (doc_noun_chunks doc) root = None /\
       (forall tk h, doc_tokens doc !! root = Some tk ->
                     head (tok_children tk) = Some h ->
                     chunk_at (doc_noun_chunks doc) h = None) /\
       extract_noun_phrase text doc need_index
       = Ok (if need_index then PhraseWhole text else PhraseText text))
  end.
Proof.
  pose proof (find_root_spec (doc_tokens doc)) as Hroot.
  unfold extract_noun_phrase.
  destruct (find_root (doc_tokens doc)) as [root|]; [|done].
  destruct Hroot as [(tr & Hr & _) _].
  assert (forall h c,
    chunk_at (doc_noun_chunks doc) h = Some c ->
    match snd (index_chunks (doc_noun_chunks doc)) !! h,
          fst (index_chunks (doc_noun_chunks doc)) !! h with
    | Some se, Some c =>
        Ok (if need_index
            then PhraseIndexed (chunk_text c)
                   (filter (fun i => i ∈ seq (fst se) (snd se - fst se))
                           (seq 0 (length (doc_tokens doc))))
                   (filter (fun i => i ∉ seq (fst se) (snd se - fst se))
                           (seq 0 (length (doc_tokens doc))))
            else PhraseText (chunk_text c))
    | _, _ => Raise KeyError
    end
    = Ok (if need_index
          then PhraseIndexed (chunk_text c)
                 (filter (fun i => covers i c) (seq 0 (length (doc_tokens doc))))
                 (filter (fun i => ~ covers i c) (seq 0 (length (doc_tokens doc))))
          else PhraseText (chunk_text c))) as Hsel.
  { intros h c Hc.
    destruct (index_chunks_lookup_both (doc_noun_chunks doc) h) as [-> ->].
    rewrite Hc. simpl. destruct need_index; [|done].
    do 2 f_equal; apply list_filter_iff; intros i; rewrite elem_of_seq;
      unfold covers; lia. }
  destruct (index_chunks_lookup_both (doc_noun_chunks doc) root) as [Hf _].
  rewrite Hf.
  destruct (chunk_at (doc_noun_chunks doc) root) as [c|] eqn:Hc.
  - left. exists root, c. split; [by left|]. split; [done|].
    cbn [rbind]. by apply Hsel.
  - unfold lookup_or_raise. rewrite Hr. cbn [rbind].
    destruct (tok_children tr) as [|ch rest] eqn:Hch.
    + right. split; [done|]. split; [|done].
      intros tk h Htk Hh. simplify_eq. by rewrite Hch in Hh.
    + destruct (index_chunks_lookup_both (doc_noun_chunks doc) ch) as [Hfc _].
      rewrite Hfc.
      destruct (chunk_at (doc_noun_chunks doc) ch) as [c|] eqn:Hcc.
      * left. exists ch, c. split.
        { right. split; [done|]. exists tr. split; [done|]. by rewrite Hch. }
        split; [done|]. cbn [rbind]. by apply Hsel.
      * right. split; [done|]. split; [|done].
        intros tk h Htk Hh. simplify_eq. rewrite Hch in Hh. by simplify_eq/=.
Qed.

(** X24.  The dictionaries built from the noun chunks hold, at position
    [i], the last chunk whose span contains [i] and that chunk's
    [(start, end)]; a position that no chunk covers is in neither. *)
Theorem index_chunks_lookup (noun_chunks : list chunk) (i : nat) :
  fst (index_chunks noun_chunks) !! i = chunk_at noun_chunks i /\
  snd (index_chunks noun_chunks) !! i
  = (fun c => (chunk_start c, chunk_end c)) <$> chunk_at noun_chunks i /\
  (chunk_at noun_chunks i = None <->
   Forall (fun c => ~ covers i c) noun_chunks) /\
  (forall c, chunk_at noun_chunks i = Some c -> c ∈ noun_chunks /\ covers i c).
Proof.
  destruct (index_chunks_lookup_both noun_chunks i) as [H1 H2].
  split; [done|]. split; [done|]. split; [apply chunk_at_None|].
  apply chunk_at_Some.
Qed.

(** X25.  The head search of [extract_noun_phrase] finds the last token
    that is its own head, and finds none exactly when no token is. *)
Theorem find_root_last (tokens : list token) :
  (forall r, find_root tokens = Some r <-> is_last_self_headed tokens r) /\
  (find_root tokens = None <->
   forall j t, tokens !! j = Some t -> tok_head t <> j).
Proof.
  pose proof (find_root_spec tokens) as Hspec.
  destruct (find_root tokens) as [r|]; split.
  - intros r'. split; [by intros [= <-]|].
    intros [(t' & Ht' & Hh') Hlast']. destruct Hspec as [(t & Ht & Hh) Hlast].
    f_equal. apply Nat.le_antisymm; [by eapply Hlast'|by eapply Hlast].
  - split; [done|]. intros Hnone. destruct Hspec as [(t & Ht & Hh) _].
    by destruct (Hnone r t).
  - intros r. split; [done|]. intros [(t & Ht & Hh) _]. by destruct (Hspec r t).
  - done.
Qed.

(** X26.  [extract_noun_phrase] can fail in one way only: with
    [UnboundLocalError], exactly when no token of the parse is its own
    head (so for an empty text).  The lookups in the two chunk dictionaries
    never raise. *)
Theorem noun_phrase_errors (text : string) (doc : Doc) (need_index : bool) :
  (forall e, extract_noun_phrase text doc need_index = Raise e ->
             e = UnboundLocalError) /\
  (extract_noun_phrase text doc need_index = Raise UnboundLocalError <->
   forall j t, doc_tokens doc !! j = Some t -> tok_head t <> j).
Proof.
  pose proof (extract_noun_phrase_cases text doc need_index) as Hc.
  pose proof (find_root_spec (doc_tokens doc)) as Hroot.
  destruct (find_root (doc_tokens doc)) as [root|].
  - assert (exists v, extract_noun_phrase text doc need_index = Ok v) as [v Hv].
    { destruct Hc as [(h & c & _ & _ & ->)|(_ & _ & ->)]; eauto. }
    rewrite Hv. split; [done|]. split; [done|].
    intros Hnone. destruct Hroot as [(t & Ht & Hh) _]. by destruct (Hnone root t).
  - rewrite Hc. split; [by intros e [= <-]|]. done.
Qed.

(** X27.  When [extract_noun_phrase] returns index lists, the text is
    that of the last noun chunk covering the head position: the position
    of the root token, or of its first child when no chunk covers the
    root.  [phrase_index] is the chunk's span cut at the number of tokens,
    and [not_phrase_index] the positions before and after it, in order. *)
Theorem noun_phrase_indexed (text : string) (doc : Doc)
    (t : string) (phrase_index not_phrase_index : list nat) :
  extract_noun_phrase text doc true
  = Ok (PhraseIndexed t phrase_index not_phrase_index) ->
  exists root h c,
    find_root (doc_tokens doc) = Some root /\
    (h = root \/
     (chunk_at (doc_noun_chunks doc) root = None /\
      exists tk, doc_tokens doc !! root = Some tk /\
                 head (tok_children tk) = Some h)) /\
    chunk_at (doc_noun_chunks doc) h = Some c /\
    covers h c /\
    t = chunk_text c /\
    phrase_index
    = seq (chunk_start c)
          (chunk_end c `min` length (doc_tokens doc) - chunk_start c) /\
    not_phrase_index
    = seq 0 (chunk_start c `min` length (doc_tokens doc))
      ++ seq (chunk_end c) (length (doc_tokens doc) - chunk_end c).
Proof.
  intros Hrun.
  pose proof (extract_noun_phrase_cases text doc true) as Hc.
  destruct (find_root (doc_tokens doc)) as [root|]; [|congruence].
  destruct Hc as [(h & c & Hh & Hc & Heq)|(_ & _ & Heq)]; [|congruence].
  rewrite Heq in Hrun. injection Hrun as <- <- <-.
  destruct (chunk_at_Some _ _ _ Hc) as [_ Hcov].
  destruct (filter_covers_seq c (length (doc_tokens doc))) as [H1 H2].
  { unfold covers in Hcov. lia. }
  exists root, h, c. by rewrite H1, H2.
Qed.

Lemma noun_phrase_indexed_witness :
  extract_noun_phrase "man in gray top walks" doc_man true
  = Ok (PhraseIndexed "man" [0%nat] [1; 2; 3; 4]%nat) /\
  exists root h c,
    find_root (doc_tokens doc_man) = Some root /\
    (h = root \/
     (chunk_at (doc_noun_chunks doc_man) root = None /\
      exists tk, doc_tokens doc_man !! root = Some tk /\
                 head (tok_children tk) = Some h)) /\
    chunk_at (doc_noun_chunks doc_man) h = Some c /\
    covers h c /\
    "man"%string = chunk_text c /\
    [0%nat]
    = seq (chunk_start c)
          (chunk_end c `min` length (doc_tokens doc_man) - chunk_start c) /\
    [1; 2; 3; 4]%nat
    = seq 0 (chunk_start c `min` length (doc_tokens doc_man))
      ++ seq (chunk_end c) (length (doc_tokens doc_man) - chunk_end c).
Proof.
  split; [vm_compute; reflexivity|].
  apply (noun_phrase_indexed "man in gray top walks" doc_man "man"
           [0%nat] [1; 2; 3; 4]%nat).
  vm_compute. reflexivity.
Defined.

(** X28.  [extract_noun_phrase] gives the (lower-cased) text back
    unchanged exactly when no noun chunk covers the root token nor its
    first child, if it has one; otherwise the text it returns is that of a
    noun chunk of the parse. *)
Theorem noun_phrase_fallback (text : string) (doc : Doc) (root : nat) :
  find_root (doc_tokens doc) = Some root ->
  (chunk_at (doc_noun_chunks doc) root = None /\
   (forall tk h, doc_tokens doc !! root = Some tk ->
                 head (tok_children tk) = Some h ->
                 chunk_at (doc_noun_chunks doc) h = None) ->
   extract_noun_phrase text doc true = Ok (PhraseWhole text) /\
   extract_noun_phrase text doc false = Ok (PhraseText text)) /\
  (~ (chunk_at (doc_noun_chunks doc) root = None /\
      (forall tk h, doc_tokens doc !! root = Some tk ->
                    head (tok_children tk) = Some h ->
                    chunk_at (doc_noun_chunks doc) h = None)) ->
   exists c, c ∈ doc_noun_chunks doc /\
     extract_noun_phrase text doc false = Ok (PhraseText (chunk_text c)) /\
     exists phrase_index not_phrase_index,
       extract_noun_phrase text doc true
       = Ok (PhraseIndexed (chunk_text c) phrase_index not_phrase_index)).
Proof.
  intros Hroot.
  pose proof (extract_noun_phrase_cases text doc true) as Ht.
  pose proof (extract_noun_phrase_cases text doc false) as Hf.
  rewrite Hroot in Ht, Hf.
  destruct Ht as [(h & c & Hh & Hc & Ht)|(Hn & Hch & Ht)].
  - assert (~ (chunk_at (doc_noun_chunks doc) root = None /\
      (forall tk h, doc_tokens doc !! root = Some tk ->
                    head (tok_children tk) = Some h ->
                    chunk_at (doc_noun_chunks doc) h = None))) as Hnot.
    { intros [Hn Hch]. destruct Hh as [->|(_ & tk & Htk & Hhd)]; [congruence|].
      rewrite (Hch tk h Htk Hhd) in Hc. done. }
    split; [by intros ?|]. intros _.
    destruct Hf as [(h' & c' & Hh' & Hc' & Hf)|(Hn & Hch & _)]; [|by destruct Hnot].
    assert (h' = h) as ->.
    { destruct Hh as [->|(Hn & tk & Htk & Hhd)];
        destruct Hh' as [->|(Hn' & tk' & Htk' & Hhd')]; [done|congruence|congruence|].
      congruence. }
    simplify_eq. exists c. split; [by eapply chunk_at_Some|]. eauto.
  - split; [|by intros []]. intros _. split; [done|].
    destruct Hf as [(h' & c' & Hh' & Hc' & _)|(_ & _ & Hf)]; [|done].
    destruct Hh' as [->|(_ & tk & Htk & Hhd)]; [congruence|].
    rewrite (Hch tk h' Htk Hhd) in Hc'. done.
Qed.

Lemma noun_phrase_fallback_witness :
  find_root (doc_tokens doc_man) = Some 4%nat /\
  (chunk_at (doc_noun_chunks doc_man) 4 = None /\
   (forall tk h, doc_tokens doc_man !! 4%nat = Some tk ->
                 head (tok_children tk) = Some h ->
                 chunk_at (doc_noun_chunks doc_man) h = None) ->
   extract_noun_phrase "man in gray top walks" doc_man true
   = Ok (PhraseWhole "man in gray top walks") /\
   extract_noun_phrase "man in gray top walks" doc_man false
   = Ok (PhraseText "man in gray top walks")) /\
  (~ (chunk_at (doc_noun_chunks doc_man) 4 = None /\
      (forall tk h, doc_tokens doc_man !! 4%nat = Some tk ->
                    head (tok_children tk) = Some h ->
                    chunk_at (doc_noun_chunks doc_man) h = None)) ->
   exists c, c ∈ doc_noun_chunks doc_man /\
     extract_noun_phrase "man in gray top walks" doc_man false
     = Ok (PhraseText (chunk_text c)) /\
     exists phrase_index not_phrase_index,
       extract_noun_phrase "man in gray top walks" doc_man true
       = Ok (PhraseIndexed (chunk_text c) phrase_index not_phrase_index)).
Proof.
  split; [reflexivity|].
  apply (noun_phrase_fallback "man in gray top walks" doc_man 4). reflexivity.
Defined.
